(** * Wormhole Auto Downloader: a model of [content_script.js]

    The content script waits for a download control to appear on a page,
    clicks it, and otherwise backs off or reloads the page within a budget
    kept in [sessionStorage].  This development embeds the script's
    functions over an explicit host (DOM surface, session storage, timers,
    console) and proves the properties its specification states about the
    locator, the ledger and the retry machine. *)

From Stdlib Require Import ZArith List Bool Ascii String Lia QArith Qround Qpower.
From Stdlib Require Import Decimal DecimalString DecimalZ.
Import ListNotations.

Local Open Scope string_scope.
Local Open Scope Z_scope.

(* ================================================================== *)
(** * JavaScript values used by the script *)
(* ================================================================== *)

Module JS.

(** Numbers the script computes with.  Every number it handles is either
    [NaN] or an integer; the engine holds [JInt z] exactly, and prints it
    in plain decimal, whenever [|z| <= 2^53]. *)
Inductive Num : Type :=
| JNaN
| JInt (z : Z).

(** [v + 1] *)
Definition succ (v : Num) : Num :=
  match v with
  | JNaN => JNaN
  | JInt z => JInt (z + 1)
  end.

(** [a >= b]; a comparison with [NaN] is false. *)
Definition geb (a b : Num) : bool :=
  match a, b with
  | JInt x, JInt y => y <=? x
  | _, _ => false
  end.

(** [String(v)] *)
Definition String_ (v : Num) : string :=
  match v with
  | JNaN => "NaN"
  | JInt z => NilZero.string_of_int (Z.to_int z)
  end.

(** Code units are modelled by [ascii] (units below 256).
    [StrWhiteSpaceChar] within that range: TAB, LF, VT, FF, CR, SP, NBSP. *)
Definition isWhiteSpace (c : ascii) : bool :=
  let n := N_of_ascii c in
  ((9 <=? n) && (n <=? 13) || (n =? 32) || (n =? 160))%N.

Fixpoint trimStart (s : string) : string :=
  match s with
  | String c r => if isWhiteSpace c then trimStart r else s
  | EmptyString => EmptyString
  end.

Fixpoint rev_onto (s acc : string) : string :=
  match s with
  | String c r => rev_onto r (String c acc)
  | EmptyString => acc
  end.

Definition rev (s : string) : string := rev_onto s EmptyString.

(** [s.trim()] *)
Definition trim (s : string) : string := rev (trimStart (rev (trimStart s))).

(** The longest prefix of decimal digits, as a decimal numeral. *)
Fixpoint digitsPrefix (s : string) : uint :=
  match s with
  | String c r =>
      match c with
      | "0"%char => D0 (digitsPrefix r)
      | "1"%char => D1 (digitsPrefix r)
      | "2"%char => D2 (digitsPrefix r)
      | "3"%char => D3 (digitsPrefix r)
      | "4"%char => D4 (digitsPrefix r)
      | "5"%char => D5 (digitsPrefix r)
      | "6"%char => D6 (digitsPrefix r)
      | "7"%char => D7 (digitsPrefix r)
      | "8"%char => D8 (digitsPrefix r)
      | "9"%char => D9 (digitsPrefix r)
      | _ => Nil
      end
  | EmptyString => Nil
  end.

(** [parseInt(s, 10)]: skip leading white space, read an optional sign,
    then the longest run of decimal digits; [NaN] when that run is empty. *)
Definition parseInt (s : string) : Num :=
  let s1 := trimStart s in
  let '(neg, s2) :=
    match s1 with
    | String "-"%char r => (true, r)
    | String "+"%char r => (false, r)
    | _ => (false, s1)
    end in
  match digitsPrefix s2 with
  | Nil => JNaN
  | d => JInt (if neg then - Z.of_uint d else Z.of_uint d)
  end.

(** [x || y] on values that are [null] or strings: the empty string and
    [null] are falsy. *)
Definition orElse (x y : option string) : option string :=
  match x with
  | Some EmptyString | None => y
  | Some _ => x
  end.

(** [x || 'd'] with a string literal on the right. *)
Definition orDefault (x : option string) (d : string) : string :=
  match orElse x (Some d) with
  | Some s => s
  | None => d
  end.

Definition truthy (x : option string) : bool :=
  match x with
  | Some EmptyString | None => false
  | Some _ => true
  end.

End JS.

Export JS.

(* ================================================================== *)
(** * Configuration constants *)
(* ================================================================== *)

Definition INITIAL_WAIT_MS : Z := 7000.
Definition POLL_INTERVAL_MS : Z := 500.
Definition OBSERVER_TIMEOUT_MS : Z := 30000.
Definition MAX_RELOADS : Z := 3.
(** [1.8] *)
Definition BACKOFF_FACTOR : Q := 9 # 5.

Definition BUSY_TEXTS : list string :=
  [ "Encrypting"; "Encrypting..."; "Uploading"; "Uploading...";
    "Uploaded"; "You can close this page now"; "downloadError"; "downloadError" ].

Definition RELOAD_KEY : string := "wormhole_autodl_reloads".

(* ================================================================== *)
(** * Strings and the script's regular expressions *)
(* ================================================================== *)

Module Re.

Definition lower (c : ascii) : ascii :=
  let n := N_of_ascii c in
  if ((65 <=? n) && (n <=? 90))%N then ascii_of_N (n + 32) else c.

(** Equality of code units under the [i] flag (the patterns are ASCII). *)
Definition eqCI (a b : ascii) : bool := Ascii.eqb (lower a) (lower b).

(** [\w] *)
Definition isWordChar (c : ascii) : bool :=
  let n := N_of_ascii c in
  ((48 <=? n) && (n <=? 57) || (65 <=? n) && (n <=? 90)
   || (97 <=? n) && (n <=? 122) || (n =? 95))%N.

Definition isWord (c : option ascii) : bool :=
  match c with
  | Some a => isWordChar a
  | None => false
  end.

(** [\b] between the unit before a position and the unit after it. *)
Definition wordBoundary (prev next : option ascii) : bool :=
  xorb (isWord prev) (isWord next).

Definition head (s : string) : option ascii :=
  match s with
  | String c _ => Some c
  | EmptyString => None
  end.

(** Consume the literal [p] at the start of [s]; returns the last unit
    consumed (or [prev] when [p] is empty) and the rest of [s]. *)
Fixpoint consume (ci : bool) (p : string) (prev : option ascii) (s : string)
  : option (option ascii * string) :=
  match p with
  | EmptyString => Some (prev, s)
  | String a p' =>
      match s with
      | String c r =>
          if (if ci then eqCI a c else Ascii.eqb a c)
          then consume ci p' (Some c) r
          else None
      | EmptyString => None
      end
  end.

(** [s.indexOf(t) !== -1] when [ci = false]; [/t/i.test(s)] for a literal
    [t] when [ci = true]. *)
Fixpoint contains (ci : bool) (t s : string) : bool :=
  match consume ci t None s with
  | Some _ => true
  | None =>
      match s with
      | String _ r => contains ci t r
      | EmptyString => false
      end
  end.

Definition DOWNLOAD_ALTS : list string :=
  [ "download"; "download file"; "download all files"; "download files"; "get file" ].

Definition downloadAt (prev : option ascii) (s : string) : bool :=
  wordBoundary prev (head s) &&
  existsb (fun alt =>
             match consume true alt prev s with
             | Some (last, rest) => wordBoundary last (head rest)
             | None => false
             end) DOWNLOAD_ALTS.

Fixpoint downloadFrom (prev : option ascii) (s : string) : bool :=
  downloadAt prev s ||
  match s with
  | String c r => downloadFrom (Some c) r
  | EmptyString => false
  end.

(** [/\b(download|download file|download all files|download files|get file)\b/i.test(s)] *)
Definition DOWNLOAD_TEXT_RE (s : string) : bool := downloadFrom None s.

Definition FILE_EXTS : list string :=
  [ "zip"; "pdf"; "tar"; "gz"; "exe"; "msi"; "dmg"; "bin";
    "jpg"; "jpeg"; "png"; "mp4"; "webm" ].

Definition fileExtAt (s : string) : bool :=
  match s with
  | String "."%char r =>
      existsb (fun ext =>
                 match consume true ext None r with
                 | Some (_, EmptyString) => true
                 | Some (_, String "?"%char _) => true
                 | _ => false
                 end) FILE_EXTS
  | _ => false
  end.

(** [/\.(zip|pdf|tar|gz|exe|msi|dmg|bin|jpg|jpeg|png|mp4|webm)(\?|$)/i.test(s)] *)
Fixpoint HREF_FILE_EXT_RE (s : string) : bool :=
  fileExtAt s ||
  match s with
  | String _ r => HREF_FILE_EXT_RE r
  | EmptyString => false
  end.

(** [/download/i.test(s)] *)
Definition DOWNLOAD_RE (s : string) : bool := contains true "download" s.

End Re.

(* ================================================================== *)
(** * The page surface as the script observes it *)
(* ================================================================== *)

(** Outcome of a host call that may raise. *)
Inductive Completion (A : Type) : Type :=
| Normal (a : A)
| Throw.
Arguments Normal {A} a.
Arguments Throw {A}.

(** The fields of [getComputedStyle(el)] the script reads.
    [st_opacityIsZero] is the outcome of
    [parseFloat(style.opacity || '1') === 0], left to the host. *)
Record Style : Type := mkStyle {
  st_display : string;
  st_visibility : string;
  st_opacityIsZero : bool
}.

(** [getBoundingClientRect()], in layout units. *)
Record Rect : Type := mkRect {
  r_width : Z;
  r_height : Z;
  r_top : Z;
  r_bottom : Z
}.

(** One element of the document, by what the script can observe of it. *)
Record Element : Type := mkElement {
  el_node : nat;                               (* identity of the node *)
  el_matches : string -> bool;                 (* [el.matches(selector)] *)
  el_closest : string -> bool;                 (* [el.closest(selector)] is non-null *)
  el_disabled : bool;                          (* [el.disabled] is truthy *)
  el_computedStyle : Completion (option Style);(* [window.getComputedStyle(el)] *)
  el_clientRects : nat;                        (* [el.getClientRects().length] *)
  el_boundingRect : Rect;
  el_textContent : string;
  el_attributes : list (string * string);
  el_href : string;                            (* the resolved [a.href] property *)
  el_scrollThrows : bool;                      (* [el.scrollIntoView(...)] raises *)
  el_dispatchThrows : bool;                    (* [el.dispatchEvent(...)] raises *)
  el_click : option bool                       (* [el.click] is a function; it raises *)
}.

Fixpoint lookupAttr (name : string) (l : list (string * string)) : option string :=
  match l with
  | (k, v) :: r => if String.eqb k name then Some v else lookupAttr name r
  | [] => None
  end.

(** [el.getAttribute(name)] *)
Definition getAttribute (el : Element) (name : string) : option string :=
  lookupAttr name (el_attributes el).

(** [el.hasAttribute(name)] *)
Definition hasAttribute (el : Element) (name : string) : bool :=
  match getAttribute el name with
  | Some _ => true
  | None => false
  end.

(** A snapshot of the document and window during one callback. *)
Record Surface : Type := mkSurface {
  sf_elements : list Element;          (* the elements, in document order *)
  sf_selectorThrows : string -> bool;  (* the selector engine raises on this selector *)
  sf_bodyInnerText : option string;    (* [document.body.innerText], when both exist *)
  sf_innerHeight : Z;                  (* [window.innerHeight] *)
  sf_clientHeight : Z;                 (* [document.documentElement.clientHeight] *)
  sf_observeThrows : bool;             (* [observer.observe(...)] raises *)
  sf_reloadThrows : bool               (* [location.reload()] raises *)
}.

(** [document.querySelector(sel)]: the first match in document order. *)
Definition querySelector (sf : Surface) (sel : string) : Completion (option Element) :=
  if sf_selectorThrows sf sel then Throw
  else Normal (find (fun e => el_matches e sel) (sf_elements sf)).

(** [Array.from(document.querySelectorAll(sel))] *)
Definition querySelectorAll (sf : Surface) (sel : string) : Completion (list Element) :=
  if sf_selectorThrows sf sel then Throw
  else Normal (filter (fun e => el_matches e sel) (sf_elements sf)).

(** The selector literals of the script that contain double quotes. *)
Definition dq (s : string) : string :=
  String (ascii_of_nat 34) (s ++ String (ascii_of_nat 34) EmptyString).

(** ['[aria-hidden="true"]'] *)
Definition SEL_ARIA_HIDDEN : string :=
  Eval vm_compute in "[aria-hidden=" ++ dq "true" ++ "]".

(** ['[aria-busy="true"], [data-loading="true"], .loading, .spinner'] *)
Definition SEL_BUSY : string :=
  Eval vm_compute in
    "[aria-busy=" ++ dq "true" ++ "], [data-loading=" ++ dq "true"
    ++ "], .loading, .spinner".

(** ['a, button, input[type="button"], input[type="submit"], [role="button"]'] *)
Definition SEL_CLICKABLE : string :=
  Eval vm_compute in
    "a, button, input[type=" ++ dq "button" ++ "], input[type=" ++ dq "submit"
    ++ "], [role=" ++ dq "button" ++ "]".

Definition specificSelectors : list string :=
  Eval vm_compute in
  [ "button.chakra-button";
    "a.chakra-link.chakra-button";
    "a[href*=" ++ dq "download" ++ "]";
    "a[download]";
    "button[aria-label*=" ++ dq "Download" ++ "]";
    "button[title*=" ++ dq "Download" ++ "]" ].

(* ================================================================== *)
(** * Element predicates *)
(* ================================================================== *)

Definition styleHidden (st : Style) : bool :=
  String.eqb (st_display st) "none"
  || String.eqb (st_visibility st) "hidden"
  || st_opacityIsZero st.

(** The checks of [isVisibleAndInteractable] that follow the style check. *)
Definition geometryVisible (sf : Surface) (el : Element) : bool :=
  if (el_clientRects el =? 0)%nat then false
  else
    let r := el_boundingRect el in
    if (r_width r =? 0) || (r_height r =? 0) then false
    else
      let vh := if sf_innerHeight sf =? 0 then sf_clientHeight sf
                else sf_innerHeight sf in
      let inViewport := (0 <=? r_bottom r) && (r_top r <=? vh) in
      if negb inViewport then false
      else if el_closest el SEL_ARIA_HIDDEN then false
      else true.

Definition isVisibleAndInteractable (sf : Surface) (el : Element) : bool :=
  if el_disabled el then false
  else
    match el_computedStyle el with
    | Normal (Some st) =>
        if styleHidden st then false else geometryVisible sf el
    | Normal None => geometryVisible sf el
    | Throw => (* catch (e) { /* ignore */ } *) geometryVisible sf el
    end.

Definition looksLikeDownload (el : Element) : bool :=
  let text := trim (el_textContent el ++ " "
                    ++ orDefault (getAttribute el "aria-label") "" ++ " "
                    ++ orDefault (getAttribute el "title") "") in
  if Re.DOWNLOAD_TEXT_RE text then true
  else
    let href := getAttribute el "href" in
    if truthy href && Re.HREF_FILE_EXT_RE (orDefault href "") then true
    else if hasAttribute el "download" then true
    else
      let aria := orElse (getAttribute el "data-testid")
                    (orElse (getAttribute el "data-test")
                            (getAttribute el "data-download")) in
      if truthy aria && Re.DOWNLOAD_RE (orDefault aria "") then true
      else false.

(* ================================================================== *)
(** * The host state the script acts on *)
(* ================================================================== *)

(** How [sessionStorage] answers: every access raises (storage disabled
    for the page), reads work and writes raise (quota exhausted), or both
    work. *)
Inductive Access : Type := Denied | WriteFails | Full.

(** [sessionStorage], restricted to the script's key. *)
Record Storage : Type := mkStorage {
  sto_access : Access;
  sto_item : option string      (* the value under [RELOAD_KEY]; [None] is [null] *)
}.

(** [sessionStorage.getItem] raises. *)
Definition sto_getThrows (s : Storage) : bool :=
  match sto_access s with
  | Denied => true
  | WriteFails | Full => false
  end.

(** [sessionStorage.setItem] raises. *)
Definition sto_setThrows (s : Storage) : bool :=
  match sto_access s with
  | Denied | WriteFails => true
  | Full => false
  end.

Inductive Level : Type := Debug | Info | Warn | Error.

(** The console messages of the script, one constructor per call site. *)
Inductive Message : Type :=
| BusyTextFound (t : string)
| BusyElementFound (node : nat)
| FoundViaSelector (s : string) (node : nat)
| FoundViaScan (node : nat)
| FoundDownloadAttr (node : nat)
| FoundFileHref (node : nat)
| EmulatingClick (node : nat)
| ClickDispatched
| ClickFailed
| StartAutoDl
| BusyDelaying
| FoundViaObserver
| ObserverAttachFailed
| FoundViaPolling
| PageBusyRetry (reloads : Num)
| MaxReloadsReached (reloads : Num)
| ReloadingAttempt (newCount : Num)
| ReloadFailed
| ObserverTimeout.

(** What the script does to the outside, in the order it does it. *)
Inductive Effect : Type :=
| Console (l : Level) (m : Message)
| ScrollIntoView (node : nat)
| DispatchEvent (type : string) (node : nat)
| NativeClick (node : nat)
| SetItem (v : string)                 (* [sessionStorage.setItem(RELOAD_KEY, v)] went through *)
| LocationReload                       (* [location.reload()] was called *)
| SetTimeoutStart (delay : Num)        (* [setTimeout(() => startAutoDl(), delay)] *)
| Uncaught.                            (* a callback ended with an exception *)

(** The closure of one [startAutoDl] activation that went on to watch. *)
Record Instance : Type := mkInstance {
  resolved : bool;       (* the latch *)
  observing : bool;      (* the MutationObserver is attached and not disconnected *)
  timerOn : bool;        (* the interval timer has not been cleared *)
  elapsed : Z;
  watchdog : bool        (* the [OBSERVER_TIMEOUT_MS] timeout has not fired yet *)
}.

Record World : Type := mkWorld {
  storage : Storage;
  instances : list Instance;   (* in creation order; the index names the instance *)
  pendingStarts : nat;         (* scheduled [startAutoDl] calls that have not run *)
  reloadRequested : bool;      (* [location.reload()] returned; the page is about to go *)
  trace : list Effect          (* oldest first *)
}.

Definition emptyStorage : Storage := mkStorage Full None.

(** The page just loaded: the script scheduled its first [startAutoDl]. *)
Definition initialWorld (sto : Storage) : World := mkWorld sto [] 1 false [].

Definition setStorage (s : Storage) (w : World) : World :=
  mkWorld s (instances w) (pendingStarts w) (reloadRequested w) (trace w).
Definition setInstances (l : list Instance) (w : World) : World :=
  mkWorld (storage w) l (pendingStarts w) (reloadRequested w) (trace w).
Definition setPendingStarts (n : nat) (w : World) : World :=
  mkWorld (storage w) (instances w) n (reloadRequested w) (trace w).
Definition setReloadRequested (b : bool) (w : World) : World :=
  mkWorld (storage w) (instances w) (pendingStarts w) b (trace w).
Definition addTrace (l : list Effect) (w : World) : World :=
  mkWorld (storage w) (instances w) (pendingStarts w) (reloadRequested w)
          (trace w ++ l).

(* ================================================================== *)
(** * Computations: host state and exceptions *)
(* ================================================================== *)

Definition M (A : Type) : Type := World -> Completion A * World.

Definition ret {A} (a : A) : M A := fun w => (Normal a, w).

Definition bind {A B} (m : M A) (f : A -> M B) : M B :=
  fun w =>
    match m w with
    | (Normal a, w') => f a w'
    | (Throw, w') => (Throw, w')
    end.

Definition throw {A} : M A := fun w => (Throw, w).

(** [try { m } catch (e) { h }] *)
Definition tryCatch {A} (m : M A) (h : M A) : M A :=
  fun w =>
    match m w with
    | (Normal a, w') => (Normal a, w')
    | (Throw, w') => h w'
    end.

Definition lift {A} (c : Completion A) : M A :=
  fun w => (c, w).

Definition emit (e : Effect) : M unit :=
  fun w => (Normal tt, addTrace [e] w).

Definition console (l : Level) (m : Message) : M unit := emit (Console l m).

Declare Scope js_scope.
Delimit Scope js_scope with js.
Notation "x <- m ;; k" := (bind m (fun x => k))
  (at level 61, m at next level, right associativity) : js_scope.
Notation "m ;; k" := (bind m (fun _ => k))
  (at level 61, right associativity) : js_scope.
Local Open Scope js_scope.

(** [arr.forEach(f)] *)
Fixpoint forEach {A} (f : A -> M unit) (l : list A) : M unit :=
  match l with
  | [] => ret tt
  | a :: r => f a ;; forEach f r
  end.

(* ================================================================== *)
(** * The attempt ledger *)
(* ================================================================== *)

(** [sessionStorage.getItem(RELOAD_KEY)] *)
Definition getItem : M (option string) :=
  fun w =>
    if sto_getThrows (storage w) then (Throw, w)
    else (Normal (sto_item (storage w)), w).

(** The store once [v] is written under [RELOAD_KEY]. *)
Definition written (v : string) (s : Storage) : Storage :=
  mkStorage (sto_access s) (Some v).

(** [sessionStorage.setItem(RELOAD_KEY, v)] *)
Definition setItem (v : string) : M unit :=
  fun w =>
    if sto_setThrows (storage w) then (Throw, w)
    else (Normal tt, addTrace [SetItem v] (setStorage (written v (storage w)) w)).

Definition getReloadCount : M Num :=
  tryCatch
    (x <- getItem ;;
     ret (parseInt (orDefault x "0")))
    (ret (JInt 0)).

Definition incrementReloadCount : M Num :=
  tryCatch
    (c <- getReloadCount ;;
     let v := succ c in
     setItem (String_ v) ;;
     ret v)
    (ret (JInt 0)).

(* ================================================================== *)
(** * Busy detection and target location *)
(* ================================================================== *)

Definition isBusyUiPresent (sf : Surface) : M bool :=
  let texts := BUSY_TEXTS in
  let bodyText := orDefault (sf_bodyInnerText sf) EmptyString in
  match find (fun t => Re.contains false t bodyText) texts with
  | Some t => console Debug (BusyTextFound t) ;; ret true
  | None =>
      busyEl <- lift (querySelector sf SEL_BUSY) ;;
      match busyEl with
      | Some el => console Debug (BusyElementFound (el_node el)) ;; ret true
      | None => ret false
      end
  end.

(** The loop over [specificSelectors]; [Some] is the early [return node]. *)
Fixpoint trySpecific (sf : Surface) (sels : list string) : M (option Element) :=
  match sels with
  | [] => ret None
  | s :: rest =>
      r <- tryCatch
             (node <- lift (querySelector sf s) ;;
              match node with
              | Some n =>
                  if isVisibleAndInteractable sf n && looksLikeDownload n
                  then console Debug (FoundViaSelector s (el_node n)) ;; ret (Some n)
                  else ret None
              | None => ret None
              end)
             (ret None) ;;
      match r with
      | Some n => ret (Some n)
      | None => trySpecific sf rest
      end
  end.

(** The end of step 3: a visible link whose target has a file extension. *)
Definition fileHrefFallback (sf : Surface) : M (option Element) :=
  links <- lift (querySelectorAll sf "a[href]") ;;
  match find (fun a => Re.HREF_FILE_EXT_RE (el_href a)
                       && isVisibleAndInteractable sf a) links with
  | Some a => console Debug (FoundFileHref (el_node a)) ;; ret (Some a)
  | None => ret None
  end.

(** [findDownloadControl], with the list of specific selectors as a
    parameter. *)
Definition findDownloadControlWith (sels : list string) (sf : Surface)
  : M (option Element) :=
  (* 1) specific candidate selectors *)
  r <- trySpecific sf sels ;;
  match r with
  | Some n => ret (Some n)
  | None =>
      (* 2) scan all clickable elements *)
      candidates <- lift (querySelectorAll sf SEL_CLICKABLE) ;;
      match find (fun c => looksLikeDownload c && isVisibleAndInteractable sf c)
                 candidates with
      | Some c => console Debug (FoundViaScan (el_node c)) ;; ret (Some c)
      | None =>
          (* 3) last resort *)
          downloadAttr <- lift (querySelector sf "[download]") ;;
          match downloadAttr with
          | Some d =>
              if isVisibleAndInteractable sf d
              then console Debug (FoundDownloadAttr (el_node d)) ;; ret (Some d)
              else fileHrefFallback sf
          | None => fileHrefFallback sf
          end
      end
  end.

(** The script's own call uses its fixed selector list. *)
Definition findDownloadControl (sf : Surface) : M (option Element) :=
  findDownloadControlWith specificSelectors sf.

(* ================================================================== *)
(** * Activation *)
(* ================================================================== *)

Definition emulateClick (el : Element) : M unit :=
  tryCatch
    (console Info (EmulatingClick (el_node el)) ;;
     (if el_scrollThrows el then throw else emit (ScrollIntoView (el_node el))) ;;
     forEach (fun type =>
                if el_dispatchThrows el then throw
                else emit (DispatchEvent type (el_node el)))
             [ "pointerdown"; "mousedown"; "click"; "mouseup" ] ;;
     match el_click el with
     | Some throws =>
         tryCatch (if throws then throw else emit (NativeClick (el_node el)))
                  (ret tt)
     | None => ret tt
     end ;;
     console Info ClickDispatched)
    (console Error ClickFailed).

(* ================================================================== *)
(** * The retry machine *)
(* ================================================================== *)

(** A slot that holds no live closure. *)
Definition noInstance : Instance := mkInstance false false false 0 false.

Definition inst (i : nat) (w : World) : Instance :=
  nth i (instances w) noInstance.

Fixpoint setNth {A} (i : nat) (x : A) (l : list A) : list A :=
  match l, i with
  | [], _ => []
  | _ :: r, O => x :: r
  | a :: r, S j => a :: setNth j x r
  end.

(** The world with [f] applied to the closure of instance [i]. *)
Definition updInst (i : nat) (f : Instance -> Instance) (w : World) : World :=
  setInstances (setNth i (f (inst i w)) (instances w)) w.

Definition modifyInst (i : nat) (f : Instance -> Instance) : M unit :=
  fun w => (Normal tt, updInst i f w).

Definition readInst {A} (i : nat) (f : Instance -> A) : M A :=
  fun w => (Normal (f (inst i w)), w).

(** [resolved = true] *)
Definition latch (x : Instance) : Instance :=
  mkInstance true (observing x) (timerOn x) (elapsed x) (watchdog x).
(** [observer.disconnect()] *)
Definition disconnect (x : Instance) : Instance :=
  mkInstance (resolved x) false (timerOn x) (elapsed x) (watchdog x).
(** [clearInterval(timer)] *)
Definition clearInterval (x : Instance) : Instance :=
  mkInstance (resolved x) (observing x) false (elapsed x) (watchdog x).
(** [elapsed += d] *)
Definition addElapsed (d : Z) (x : Instance) : Instance :=
  mkInstance (resolved x) (observing x) (timerOn x) (elapsed x + d) (watchdog x).
(** The watchdog timeout fires (once). *)
Definition watchdogFired (x : Instance) : Instance :=
  mkInstance (resolved x) (observing x) (timerOn x) (elapsed x) false.
(** The page goes away: none of the closure's callbacks can run any more. *)
Definition destroy (x : Instance) : Instance :=
  mkInstance (resolved x) false false (elapsed x) false.

Definition newInstance (x : Instance) : M unit :=
  fun w => (Normal tt, setInstances (instances w ++ [x]) w).

(** [Math.max(2000, Math.floor(INITIAL_WAIT_MS * Math.pow(BACKOFF_FACTOR, reloads)))],
    with the minimum, the wait and the factor as parameters.  The engine
    computes the power and the product in doubles; the model computes them
    in exact rationals. *)
Definition backoffDelay (minDelay initialWait : Z) (factor : Q) (reloads : Num) : Num :=
  match reloads with
  | JNaN => JNaN
  | JInt n =>
      JInt (Z.max minDelay (Qfloor (inject_Z initialWait * Qpower factor n)))
  end.

Definition extraWaitFor (reloads : Num) : Num :=
  backoffDelay 2000 INITIAL_WAIT_MS BACKOFF_FACTOR reloads.

(** [location.reload()] *)
Definition locationReload (sf : Surface) : M unit :=
  emit LocationReload ;;
  if sf_reloadThrows sf then throw
  else fun w => (Normal tt, setReloadRequested true w).

(** [setTimeout(() => startAutoDl(), delay)] *)
Definition setTimeoutStart (delay : Num) : M unit :=
  emit (SetTimeoutStart delay) ;;
  fun w => (Normal tt, setPendingStarts (S (pendingStarts w)) w).

(** The body of the MutationObserver callback of instance [i]. *)
Definition observerCallback (i : nat) (sf : Surface) : M unit :=
  r <- readInst i resolved ;;
  if r then ret tt
  else
    found <- findDownloadControl sf ;;
    match found with
    | Some el =>
        modifyInst i latch ;;
        modifyInst i disconnect ;;
        console Debug FoundViaObserver ;;
        emulateClick el
    | None => ret tt
    end.

(** The body of the interval callback of instance [i]. *)
Definition timerCallback (i : nat) (sf : Surface) : M unit :=
  r <- readInst i resolved ;;
  if r then modifyInst i clearInterval
  else
    found <- findDownloadControl sf ;;
    match found with
    | Some el =>
        modifyInst i latch ;;
        modifyInst i clearInterval ;;
        modifyInst i disconnect ;;
        console Debug FoundViaPolling ;;
        emulateClick el
    | None =>
        modifyInst i (addElapsed POLL_INTERVAL_MS) ;;
        e <- readInst i elapsed ;;
        if INITIAL_WAIT_MS <=? e then
          modifyInst i clearInterval ;;
          modifyInst i disconnect ;;
          busy <- isBusyUiPresent sf ;;
          if busy then
            reloads <- getReloadCount ;;
            console Info (PageBusyRetry reloads) ;;
            let extraWait := extraWaitFor reloads in
            setTimeoutStart extraWait
          else
            reloads <- getReloadCount ;;
            if geb reloads (JInt MAX_RELOADS) then
              console Warn (MaxReloadsReached reloads)
            else
              newCount <- incrementReloadCount ;;
              console Warn (ReloadingAttempt newCount) ;;
              tryCatch (locationReload sf) (console Error ReloadFailed)
        else ret tt
    end.

(** The body of the [OBSERVER_TIMEOUT_MS] timeout of instance [i]. *)
Definition watchdogCallback (i : nat) : M unit :=
  r <- readInst i resolved ;;
  if negb r then
    modifyInst i disconnect ;;
    tryCatch (modifyInst i clearInterval) (ret tt) ;;
    console Debug ObserverTimeout
  else ret tt.

Definition startAutoDl (sf : Surface) : M unit :=
  console Debug StartAutoDl ;;
  immediate <- findDownloadControl sf ;;
  match immediate with
  | Some el => emulateClick el
  | None =>
      busy <- isBusyUiPresent sf ;;
      (if busy then console Debug BusyDelaying else ret tt) ;;
      attached <- tryCatch
                    (if sf_observeThrows sf then throw else ret true)
                    (console Warn ObserverAttachFailed ;; ret false) ;;
      (* [resolved = false], the interval timer with [elapsed = 0], and the
         [OBSERVER_TIMEOUT_MS] timeout *)
      newInstance (mkInstance false attached true 0 true)
  end.

(** What the event loop can run next. *)
Inductive Event : Type :=
| EvStart (sf : Surface)               (* a scheduled [startAutoDl] runs *)
| EvMutation (i : nat) (sf : Surface)  (* the observer of instance [i] is notified *)
| EvTick (i : nat) (sf : Surface)      (* the interval of instance [i] fires *)
| EvWatchdog (i : nat)                 (* the long timeout of instance [i] fires *)
| EvNavigate.                          (* the requested reload replaces the page *)

Definition enabled (ev : Event) (w : World) : bool :=
  match ev with
  | EvStart _ => (0 <? pendingStarts w)%nat
  | EvMutation i _ => observing (inst i w)
  | EvTick i _ => timerOn (inst i w)
  | EvWatchdog i => watchdog (inst i w)
  | EvNavigate => reloadRequested w
  end.

Definition callback (ev : Event) : M unit :=
  match ev with
  | EvStart sf =>
      (fun w => (Normal tt, setPendingStarts (pred (pendingStarts w)) w)) ;;
      startAutoDl sf
  | EvMutation i sf => observerCallback i sf
  | EvTick i sf => timerCallback i sf
  | EvWatchdog i => modifyInst i watchdogFired ;; watchdogCallback i
  | EvNavigate =>
      fun w => (Normal tt,
                mkWorld (storage w) (map destroy (instances w)) 1 false (trace w))
  end.

(** An exception that leaves a callback is reported and the loop goes on. *)
Definition finish (r : Completion unit * World) : World :=
  match r with
  | (Normal _, w) => w
  | (Throw, w) => addTrace [Uncaught] w
  end.

Definition step (ev : Event) (w : World) : option World :=
  if enabled ev w then Some (finish (callback ev w)) else None.

Fixpoint run (evs : list Event) (w : World) : option World :=
  match evs with
  | [] => Some w
  | ev :: r =>
      match step ev w with
      | Some w' => run r w'
      | None => None
      end
  end.

(* ================================================================== *)
(** * Notions used in the statements *)
(* ================================================================== *)

(** Kinds of effects. *)
Definition isReload (e : Effect) : bool :=
  match e with LocationReload => true | _ => false end.
Definition isSetItem (e : Effect) : bool :=
  match e with SetItem _ => true | _ => false end.
Definition isBackoff (e : Effect) : bool :=
  match e with SetTimeoutStart _ => true | _ => false end.
(** The first thing [emulateClick] does. *)
Definition isActivation (e : Effect) : bool :=
  match e with Console Info (EmulatingClick _) => true | _ => false end.

(** Diagnostics only: no write, no reload, no timer, no activation. *)
Definition inert (e : Effect) : bool :=
  negb (isReload e || isSetItem e || isBackoff e || isActivation e).

(** Acting on an element at most: no write, no reload, no timer. *)
Definition clicking (e : Effect) : bool :=
  negb (isReload e || isSetItem e || isBackoff e).

Definition countIf (p : Effect -> bool) (l : list Effect) : nat :=
  List.length (filter p l).

(** A computation that only writes to the trace, and only effects that
    satisfy [P]: its result does not depend on the world and it leaves
    everything but the trace alone. *)
Definition emitsOnly (P : Effect -> bool) {A} (m : M A) : Prop :=
  exists (r : Completion A) (l : list Effect),
    forallb P l = true /\ forall w, m w = (r, addTrace l w).

(** The world in which a trace-only computation is observed. *)
Definition emptyWorld : World := mkWorld emptyStorage [] 0 false [].

Definition resultOf {A} (m : M A) : Completion A := fst (m emptyWorld).
Definition effectsOf {A} (m : M A) : list Effect := trace (snd (m emptyWorld)).

(** The candidate [findDownloadControl] returns on a surface, and what
    [isBusyUiPresent] answers on it. *)
Definition located (sf : Surface) : Completion (option Element) :=
  resultOf (findDownloadControl sf).
Definition busy (sf : Surface) : Completion bool :=
  resultOf (isBusyUiPresent sf).

(** What [getReloadCount] returns on a store. *)
Definition readLedger (s : Storage) : Num :=
  if sto_getThrows s then JInt 0
  else parseInt (orDefault (sto_item s) "0").

(** The test applied to the node a specific selector yields. *)
Definition passes (sf : Surface) (n : Element) : bool :=
  isVisibleAndInteractable sf n && looksLikeDownload n.

(** The first selector of [sels] whose first match passes, with that match. *)
Fixpoint firstSpecificHit (sf : Surface) (sels : list string)
  : option (string * Element) :=
  match sels with
  | [] => None
  | s :: rest =>
      match querySelector sf s with
      | Normal (Some n) =>
          if passes sf n then Some (s, n) else firstSpecificHit sf rest
      | _ => firstSpecificHit sf rest
      end
  end.

(** An element matches one of the specific selectors and passes the
    visibility, interactability and download checks. *)
Definition tier1Candidate (sf : Surface) (e : Element) : Prop :=
  In e (sf_elements sf)
  /\ existsb (el_matches e) specificSelectors = true
  /\ isVisibleAndInteractable sf e = true
  /\ looksLikeDownload e = true.

(** A stored value that is a non-empty run of decimal digits. *)
Definition isNaturalString (s : string) : bool :=
  negb (String.length s =? 0)%nat
  && (Decimal.nb_digits (digitsPrefix s) =? String.length s)%nat.

(** The step is the reload branch of the interval callback: the watch
    window of instance [i] expired on a surface with no control and no busy
    sign, the ledger read below the ceiling, and the callback called
    [incrementReloadCount] and then [location.reload()]. *)
Definition reloadBranch (ev : Event) (w w' : World) : Prop :=
  exists i sf v,
    ev = EvTick i sf
    /\ timerOn (inst i w) = true
    /\ resolved (inst i w) = false
    /\ located sf = Normal None
    /\ INITIAL_WAIT_MS <= elapsed (inst i w) + POLL_INTERVAL_MS
    /\ busy sf = Normal false
    /\ geb (readLedger (storage w)) (JInt MAX_RELOADS) = false
    /\ fst (incrementReloadCount w) = Normal v
    /\ storage w' = storage (snd (incrementReloadCount w))
    /\ trace w' =
       (trace (snd (incrementReloadCount w))
        ++ [Console Warn (ReloadingAttempt v); LocationReload]
        ++ (if sf_reloadThrows sf then [Console Error ReloadFailed] else []))%list.

(** The world after a run, or the starting world when the run is not
    possible. *)
Definition after (evs : list Event) (w : World) : World :=
  match run evs w with
  | Some w' => w'
  | None => w
  end.

(** A surface with no qualifying control and no busy sign. *)
Definition quiet (sf : Surface) : Prop :=
  located sf = Normal None /\ busy sf = Normal false.

Definition quietEvent (ev : Event) : Prop :=
  match ev with
  | EvStart sf | EvMutation _ sf | EvTick _ sf => quiet sf
  | EvWatchdog _ | EvNavigate => True
  end.

(** The event is a tick that ends the watch window of its instance. *)
Definition expiry (ev : Event) (w : World) : bool :=
  match ev with
  | EvTick i _ =>
      timerOn (inst i w) && negb (resolved (inst i w))
      && (INITIAL_WAIT_MS <=? elapsed (inst i w) + POLL_INTERVAL_MS)
  | _ => false
  end.

(** The number of watch-window expiries along a run. *)
Fixpoint expiries (evs : list Event) (w : World) : nat :=
  match evs with
  | [] => 0
  | ev :: r =>
      ((if expiry ev w then 1 else 0)
       + match step ev w with
         | Some w' => expiries r w'
         | None => 0
         end)%nat
  end.

(** The instance whose callback an event runs. *)
Definition eventInstance (ev : Event) : option nat :=
  match ev with
  | EvMutation i _ | EvTick i _ | EvWatchdog i => Some i
  | EvStart _ | EvNavigate => None
  end.

(** Instance [i] exists and none of its callbacks can run any more. *)
Definition stopped (i : nat) (w : World) : Prop :=
  (i < List.length (instances w))%nat
  /\ observing (inst i w) = false
  /\ timerOn (inst i w) = false
  /\ watchdog (inst i w) = false.

(** How a candidate the locator returns qualified: by a specific selector
    or in the scan of clickable elements (both with the download check), by
    its [download] attribute, or as a link to a file. *)
Definition qualifies (e : Element) : Prop :=
  (existsb (el_matches e) specificSelectors = true /\ looksLikeDownload e = true)
  \/ (el_matches e SEL_CLICKABLE = true /\ looksLikeDownload e = true)
  \/ el_matches e "[download]" = true
  \/ (el_matches e "a[href]" = true /\ Re.HREF_FILE_EXT_RE (el_href e) = true).

(** The height [isVisibleAndInteractable] compares the box with:
    [window.innerHeight || document.documentElement.clientHeight]. *)
Definition viewportHeight (sf : Surface) : Z :=
  if sf_innerHeight sf =? 0 then sf_clientHeight sf else sf_innerHeight sf.

(** The events of a full activation, in the order [emulateClick] makes
    them, for an element whose [click] is a function or not. *)
Definition activationEvents (node : nat) (hasClick : bool) : list Effect :=
  ([ Console Info (EmulatingClick node); ScrollIntoView node;
     DispatchEvent "pointerdown" node; DispatchEvent "mousedown" node;
     DispatchEvent "click" node; DispatchEvent "mouseup" node ]
   ++ (if hasClick then [NativeClick node] else [])
   ++ [ Console Info ClickDispatched ])%list.

(** The search of [DOWNLOAD_TEXT_RE] with the list of alternatives as a
    parameter: some alternative of [alts], between two word boundaries,
    at some position of the string. *)
Definition altAt (alts : list string) (prev : option ascii) (s : string) : bool :=
  Re.wordBoundary prev (Re.head s) &&
  existsb (fun alt =>
             match Re.consume true alt prev s with
             | Some (last, rest) => Re.wordBoundary last (Re.head rest)
             | None => false
             end) alts.

Fixpoint altFrom (alts : list string) (prev : option ascii) (s : string) : bool :=
  altAt alts prev s ||
  match s with
  | String c r => altFrom alts (Some c) r
  | EmptyString => false
  end.

(** The string with its ASCII capitals turned into small letters. *)
Fixpoint lowerString (s : string) : string :=
  match s with
  | String c r => String (Re.lower c) (lowerString r)
  | EmptyString => EmptyString
  end.

(** [t] occurs in [s] as a substring. *)
Definition occurs (t s : string) : Prop :=
  exists pre post, s = pre ++ t ++ post.


(** A surface with no qualifying control that shows a busy sign. *)
Definition stillBusy (sf : Surface) : Prop :=
  located sf = Normal None /\ busy sf = Normal true.

Definition busyEvent (ev : Event) : Prop :=
  match ev with
  | EvStart sf | EvMutation _ sf | EvTick _ sf => stillBusy sf
  | EvWatchdog _ | EvNavigate => True
  end.

(** The number of times [startAutoDl] is entered along a run. *)
Fixpoint starts (evs : list Event) : nat :=
  match evs with
  | [] => 0
  | EvStart _ :: r => S (starts r)
  | _ :: r => starts r
  end.

(** What holds of the closure of every instance the machine can reach: a
    connected observer means the latch is unset and the interval is
    running; a running interval means the watch window has not ended; and
    [elapsed] is a whole number of polls within the window. *)
Definition coherent (x : Instance) : Prop :=
  (observing x = true -> resolved x = false /\ timerOn x = true)
  /\ (timerOn x = true -> elapsed x < INITIAL_WAIT_MS)
  /\ 0 <= elapsed x <= INITIAL_WAIT_MS
  /\ (POLL_INTERVAL_MS | elapsed x).

(** The number of instances whose latch is unset. *)
Definition unresolved (w : World) : nat :=
  List.length (filter (fun x => negb (resolved x)) (instances w)).

(* ================================================================== *)
(** * Sample pages and runs *)
(* ================================================================== *)

Definition matching (sels : list string) : string -> bool :=
  fun s => existsb (String.eqb s) sels.

Definition shownStyle : Style := mkStyle "inline-block" "visible" false.
Definition shownRect : Rect := mkRect 120 40 100 140.

(** A visible, enabled element with the given identity, script selectors
    it matches, text and attributes; its [href] property is its [href]
    attribute as written. *)
Definition shown (node : nat) (sels : list string) (text : string)
    (attrs : list (string * string)) : Element :=
  mkElement node (matching sels) (fun _ => false) false (Normal (Some shownStyle))
            1 shownRect text attrs (orDefault (lookupAttr "href" attrs) EmptyString)
            false false (Some false).

(** [<a href="/files/report">Download</a>] *)
Definition plainLink : Element :=
  shown 1 [SEL_CLICKABLE; "a[href]"] "Download" [("href", "/files/report")].

(** [<button class="chakra-button">Cancel</button>] *)
Definition cancelButton : Element :=
  shown 2 ["button.chakra-button"; SEL_CLICKABLE] "Cancel"
        [("class", "chakra-button")].

(** [<button class="chakra-button">Download file</button>] *)
Definition downloadButton : Element :=
  shown 3 ["button.chakra-button"; SEL_CLICKABLE] "Download file"
        [("class", "chakra-button")].


Definition page (els : list Element) (text : string) : Surface :=
  mkSurface els (fun _ => false) (Some text) 800 800 false false.

(** A plain download link, then a Chakra cancel button, then a Chakra
    download button. *)
Definition mixedPage : Surface :=
  page [plainLink; cancelButton; downloadButton] "Download Cancel Download file".


(** A visible download button whose style cannot be computed. *)
Definition unstyledButton : Element :=
  mkElement 5 (matching ["button.chakra-button"; SEL_CLICKABLE]) (fun _ => false)
            false Throw 1 shownRect "Download" [("class", "chakra-button")]
            EmptyString false false (Some false).

(** Nothing to click, nothing busy. *)
Definition quietPage : Surface := page [] "Your files are on their way".

(** Nothing to click, the page says it is still working. *)
Definition busyPage : Surface := page [] "Encrypting...".

(** The download button is there. *)
Definition readyPage : Surface := page [downloadButton] "Download file".

(** A fresh session on a busy page, one tick before the watch window ends. *)
Definition busyWaiting : World :=
  after (EvStart busyPage :: repeat (EvTick 0%nat busyPage) 13)
        (initialWorld emptyStorage).

(** A fresh session on a quiet page, one tick before the watch window ends. *)
Definition quietWaiting : World :=
  after (EvStart quietPage :: repeat (EvTick 0%nat quietPage) 13)
        (initialWorld emptyStorage).

(** A session whose storage raises on every access. *)
Definition deadStorage : Storage := mkStorage Denied None.

(** One page life on a quiet page: start, watch until the window ends,
    and let the requested reload happen.  [k] names the instance. *)
Definition quietLife (k : nat) : list Event :=
  (EvStart quietPage :: repeat (EvTick k quietPage) 14 ++ [EvNavigate])%list.

(** A fresh session: the page is quiet at first, then the download button
    is mounted and the observer is notified. *)
Definition resolvedByObserver : World :=
  after [EvStart quietPage; EvMutation 0%nat readyPage]
        (initialWorld emptyStorage).

(** A fresh session on a page that stays busy: the first instance backs
    off after its window, so does the second, the third is watching when
    the watchdog of the first fires. *)
Definition busyReentries : list Event :=
  (EvStart busyPage :: repeat (EvTick 0%nat busyPage) 14
   ++ EvStart busyPage :: repeat (EvTick 1%nat busyPage) 14
   ++ EvStart busyPage :: repeat (EvTick 2%nat busyPage) 3
   ++ [EvWatchdog 0%nat])%list.

(** A visible download button whose [scrollIntoView] raises. *)
Definition stuckButton : Element :=
  mkElement 6 (matching ["button.chakra-button"; SEL_CLICKABLE]) (fun _ => false)
            false (Normal (Some shownStyle)) 1 shownRect "Download"
            [("class", "chakra-button")] EmptyString true false (Some false).

(** A page that says it is working and whose selector engine rejects the
    busy-marker selector. *)
Definition busyTextBrokenMarkers : Surface :=
  mkSurface [] (String.eqb SEL_BUSY) (Some "Still Uploading your files")
            800 800 false false.

(** A page without body text that carries a spinner. *)
Definition spinnerPage : Surface :=
  mkSurface [shown 7 [SEL_BUSY] EmptyString [("class", "spinner")]]
            (fun _ => false) None 800 800 false false.

(** A session in which something else left a non-numeric value under the
    script's key. *)
Definition garbledStorage : Storage := mkStorage Full (Some "abc").

(** A session whose storage can be read but not written, holding a count. *)
Definition readOnlyStorage : Storage := mkStorage WriteFails (Some "1").

(** A session over two page lives: the first page stays quiet and is
    reloaded; the second is busy for one watch window, and the button is
    there when the backoff re-entry runs. *)
Definition mixedSession : list Event :=
  (quietLife 0
   ++ EvStart busyPage :: repeat (EvTick 1%nat busyPage) 14
   ++ [EvStart readyPage])%list.

(** A page whose selector engine rejects the selector of the clickable
    scan, and one whose engine rejects the busy-marker selector. *)
Definition brokenScanPage : Surface :=
  mkSurface [] (String.eqb SEL_CLICKABLE) (Some "Your files") 800 800 false false.
Definition brokenMarkersPage : Surface :=
  mkSurface [] (String.eqb SEL_BUSY) (Some "Your files") 800 800 false false.

(* ================================================================== *)
(** * The model on concrete inputs *)
(* ================================================================== *)

Example parseInt_samples :
  parseInt "12" = JInt 12 /\ parseInt "007" = JInt 7 /\ parseInt " -7x" = JInt (-7)
  /\ parseInt "3.9" = JInt 3 /\ parseInt "abc" = JNaN /\ parseInt "+" = JNaN.
Proof. repeat split. Qed.

Example String_samples :
  String_ (JInt 0) = "0" /\ String_ (JInt 13) = "13" /\ String_ (JInt (-4)) = "-4"
  /\ String_ JNaN = "NaN".
Proof. repeat split. Qed.

Example DOWNLOAD_TEXT_RE_samples :
  Re.DOWNLOAD_TEXT_RE "Download" = true
  /\ Re.DOWNLOAD_TEXT_RE "please GET FILE now" = true
  /\ Re.DOWNLOAD_TEXT_RE "Downloads" = false
  /\ Re.DOWNLOAD_TEXT_RE "Cancel" = false.
Proof. repeat split. Qed.

Example HREF_FILE_EXT_RE_samples :
  Re.HREF_FILE_EXT_RE "/a/b.zip" = true
  /\ Re.HREF_FILE_EXT_RE "/a/b.ZIP?x=1" = true
  /\ Re.HREF_FILE_EXT_RE "/a/b.zipx" = false
  /\ Re.HREF_FILE_EXT_RE "/files/report" = false.
Proof. repeat split. Qed.

Example extraWaitFor_samples :
  extraWaitFor (JInt 0) = JInt 7000 /\ extraWaitFor (JInt 1) = JInt 12600
  /\ extraWaitFor (JInt 2) = JInt 22680 /\ extraWaitFor JNaN = JNaN.
Proof. repeat split. Qed.

(** The control is there when the script starts: it is activated at once,
    no closure, timer or watchdog is created, the store is untouched. *)
Example control_present_at_start :
  let w := after [EvStart readyPage] (initialWorld emptyStorage) in
  instances w = [] /\ storage w = emptyStorage
  /\ countIf isActivation (trace w) = 1%nat.
Proof. vm_compute. repeat split. Qed.

(** Nothing shows up and nothing is busy: one reload, the ledger holds 1. *)
Example quiet_window_reloads_once :
  let w := after [EvTick 0%nat quietPage] quietWaiting in
  countIf isReload (trace w) = 1%nat /\ sto_item (storage w) = Some "1"
  /\ reloadRequested w = true.
Proof. vm_compute. repeat split. Qed.

(** The page says it is working: no reload, a re-entry after 7000 ms, the
    store is untouched. *)
Example busy_window_backs_off :
  let w := after [EvTick 0%nat busyPage] busyWaiting in
  countIf isReload (trace w) = 0%nat /\ storage w = emptyStorage
  /\ pendingStarts w = 1%nat
  /\ last (trace w) Uncaught = SetTimeoutStart (JInt 7000).
Proof. vm_compute. repeat split. Qed.

(** The ledger is at the ceiling: the machine gives up. *)
Example ceiling_gives_up :
  let w := after (EvStart quietPage :: repeat (EvTick 0%nat quietPage) 14)
                 (initialWorld (mkStorage Full (Some "3"))) in
  countIf isReload (trace w) = 0%nat /\ sto_item (storage w) = Some "3"
  /\ last (trace w) Uncaught = Console Warn (MaxReloadsReached (JInt 3))
  /\ stopped 0 (after [EvWatchdog 0%nat] w).
Proof. vm_compute. repeat split; auto. Qed.

(* ================================================================== *)
(** * Reasoning about computations *)
(* ================================================================== *)

Lemma addTrace_nil (w : World) : addTrace [] w = w.
Proof. destruct w; unfold addTrace; simpl. now rewrite app_nil_r. Qed.

Lemma addTrace_addTrace (l1 l2 : list Effect) (w : World) :
  addTrace l2 (addTrace l1 w) = addTrace (l1 ++ l2)%list w.
Proof. unfold addTrace; simpl. now rewrite app_assoc. Qed.

Lemma countIf_app p l1 l2 :
  countIf p (l1 ++ l2) = (countIf p l1 + countIf p l2)%nat.
Proof. unfold countIf. now rewrite filter_app, length_app. Qed.

Lemma countIf_none p q l :
  forallb q l = true -> (forall e, q e = true -> p e = false) -> countIf p l = 0%nat.
Proof.
  intros Hq Hpq. unfold countIf. induction l as [|e l IH]; [reflexivity|].
  cbn [forallb] in Hq. apply andb_true_iff in Hq as [He Hl].
  cbn [filter]. rewrite (Hpq e He). auto.
Qed.

Section EmitsOnly.
Variable P : Effect -> bool.

Lemma emitsOnly_ret {A} (a : A) : emitsOnly P (ret a).
Proof.
  exists (Normal a), []. split; [reflexivity|].
  intros w. unfold ret. now rewrite addTrace_nil.
Qed.

Lemma emitsOnly_throw {A} : emitsOnly P (@throw A).
Proof.
  exists Throw, []. split; [reflexivity|].
  intros w. unfold throw. now rewrite addTrace_nil.
Qed.

Lemma emitsOnly_lift {A} (c : Completion A) : emitsOnly P (lift c).
Proof.
  exists c, []. split; [reflexivity|].
  intros w. unfold lift. now rewrite addTrace_nil.
Qed.

Lemma emitsOnly_emit (e : Effect) : P e = true -> emitsOnly P (emit e).
Proof.
  intros He. exists (Normal tt), [e]. split; [|reflexivity].
  cbn [forallb]. now rewrite He.
Qed.

Lemma emitsOnly_bind {A B} (m : M A) (f : A -> M B) :
  emitsOnly P m -> (forall a, emitsOnly P (f a)) -> emitsOnly P (bind m f).
Proof.
  intros (r & l & Hl & Hm) Hf. destruct r as [a|].
  - destruct (Hf a) as (r' & l' & Hl' & Hfa).
    exists r', (l ++ l')%list. split.
    + rewrite forallb_app, Hl, Hl'. reflexivity.
    + intros w. unfold bind. now rewrite Hm, Hfa, addTrace_addTrace.
  - exists Throw, l. split; [exact Hl|].
    intros w. unfold bind. now rewrite Hm.
Qed.

Lemma emitsOnly_tryCatch {A} (m h : M A) :
  emitsOnly P m -> emitsOnly P h -> emitsOnly P (tryCatch m h).
Proof.
  intros (r & l & Hl & Hm) (r' & l' & Hl' & Hh). destruct r as [a|].
  - exists (Normal a), l. split; [exact Hl|].
    intros w. unfold tryCatch. now rewrite Hm.
  - exists r', (l ++ l')%list. split.
    + rewrite forallb_app, Hl, Hl'. reflexivity.
    + intros w. unfold tryCatch. now rewrite Hm, Hh, addTrace_addTrace.
Qed.

Lemma emitsOnly_forEach {A} (f : A -> M unit) (l : list A) :
  (forall a, emitsOnly P (f a)) -> emitsOnly P (forEach f l).
Proof.
  intros Hf. induction l as [|a l IH]; simpl.
  - apply emitsOnly_ret.
  - apply emitsOnly_bind; auto.
Qed.
End EmitsOnly.

Ltac emits_only :=
  repeat first
    [ apply emitsOnly_ret | apply emitsOnly_throw | apply emitsOnly_lift
    | apply emitsOnly_emit; reflexivity
    | apply emitsOnly_forEach; intros
    | apply emitsOnly_tryCatch
    | apply emitsOnly_bind; [| intros]
    | match goal with
      | |- emitsOnly _ (match ?x with _ => _ end) => destruct x
      | |- emitsOnly _ (if ?x then _ else _) => destruct x
      end ].

Lemma emitsOnly_eq P {A} (m : M A) :
  emitsOnly P m -> forall w, m w = (resultOf m, addTrace (effectsOf m) w).
Proof.
  intros (r & l & _ & Hm) w. unfold resultOf, effectsOf.
  rewrite (Hm emptyWorld), (Hm w). reflexivity.
Qed.

Lemma emitsOnly_effects P {A} (m : M A) :
  emitsOnly P m -> forallb P (effectsOf m) = true.
Proof.
  intros (r & l & Hl & Hm). unfold effectsOf. now rewrite (Hm emptyWorld).
Qed.

Lemma emitsOnly_trySpecific (sf : Surface) (sels : list string) :
  emitsOnly inert (trySpecific sf sels).
Proof.
  induction sels as [|s rest IH]; simpl.
  - apply emitsOnly_ret.
  - apply emitsOnly_bind.
    + unfold console. emits_only.
    + intros [n|]; [apply emitsOnly_ret | exact IH].
Qed.

Lemma emitsOnly_fileHrefFallback (sf : Surface) :
  emitsOnly inert (fileHrefFallback sf).
Proof. unfold fileHrefFallback, console. emits_only. Qed.

Lemma emitsOnly_findDownloadControlWith (sels : list string) (sf : Surface) :
  emitsOnly inert (findDownloadControlWith sels sf).
Proof.
  unfold findDownloadControlWith, console.
  apply emitsOnly_bind; [apply emitsOnly_trySpecific|].
  intros [n|]; [apply emitsOnly_ret|].
  apply emitsOnly_bind; [apply emitsOnly_lift|]. intros candidates.
  destruct (find _ candidates); [emits_only|].
  apply emitsOnly_bind; [apply emitsOnly_lift|]. intros [d|].
  - destruct (isVisibleAndInteractable sf d);
      [emits_only | apply emitsOnly_fileHrefFallback].
  - apply emitsOnly_fileHrefFallback.
Qed.

Lemma emitsOnly_findDownloadControl (sf : Surface) :
  emitsOnly inert (findDownloadControl sf).
Proof. apply emitsOnly_findDownloadControlWith. Qed.

Lemma emitsOnly_isBusyUiPresent (sf : Surface) :
  emitsOnly inert (isBusyUiPresent sf).
Proof. unfold isBusyUiPresent, console. emits_only. Qed.

Lemma emitsOnly_emulateClick (el : Element) :
  emitsOnly clicking (emulateClick el).
Proof. unfold emulateClick, console. emits_only. Qed.

Lemma findDownloadControl_eq (sf : Surface) (w : World) :
  findDownloadControl sf w
  = (located sf, addTrace (effectsOf (findDownloadControl sf)) w).
Proof. apply (emitsOnly_eq inert), emitsOnly_findDownloadControl. Qed.

Lemma isBusyUiPresent_eq (sf : Surface) (w : World) :
  isBusyUiPresent sf w = (busy sf, addTrace (effectsOf (isBusyUiPresent sf)) w).
Proof. apply (emitsOnly_eq inert), emitsOnly_isBusyUiPresent. Qed.

Lemma emulateClick_eq (el : Element) (w : World) :
  emulateClick el w
  = (resultOf (emulateClick el), addTrace (effectsOf (emulateClick el)) w).
Proof. apply (emitsOnly_eq clicking), emitsOnly_emulateClick. Qed.

(* ================================================================== *)
(** * The ledger: reading back what was written *)
(* ================================================================== *)

Lemma digitsPrefix_string_of_uint (d : uint) :
  digitsPrefix (NilEmpty.string_of_uint d) = d.
Proof. induction d; simpl; congruence. Qed.

Lemma parseInt_string_of_uint (d : uint) :
  d <> Nil -> parseInt (NilEmpty.string_of_uint d) = JInt (Z.of_uint d).
Proof.
  intros Hd.
  destruct d; try congruence; unfold parseInt;
    cbn [NilEmpty.string_of_uint trimStart];
    match goal with
    | |- context [isWhiteSpace ?c] => change (isWhiteSpace c) with false
    end;
    cbv beta iota; cbn [digitsPrefix];
    rewrite digitsPrefix_string_of_uint; reflexivity.
Qed.

Lemma parseInt_minus_string_of_uint (d : uint) :
  d <> Nil ->
  parseInt (String "-"%char (NilEmpty.string_of_uint d)) = JInt (- Z.of_uint d).
Proof.
  intros Hd. unfold parseInt. cbn [trimStart].
  change (isWhiteSpace "-"%char) with false. cbv beta iota.
  rewrite digitsPrefix_string_of_uint. destruct d; try congruence; reflexivity.
Qed.

Lemma string_of_uint_nonnil (d : uint) :
  d <> Nil -> NilZero.string_of_uint d = NilEmpty.string_of_uint d.
Proof. destruct d; congruence || reflexivity. Qed.

(** [parseInt(String(z), 10)] is [z]. *)
Lemma parseInt_String (z : Z) : parseInt (String_ (JInt z)) = JInt z.
Proof.
  unfold String_, Z.to_int. destruct z as [|p|p]; [reflexivity| |];
    pose proof (DecimalPos.Unsigned.to_uint_nonnil p) as Hn;
    unfold NilZero.string_of_int; rewrite string_of_uint_nonnil by exact Hn.
  - rewrite parseInt_string_of_uint by exact Hn.
    unfold Z.of_uint. now rewrite DecimalPos.Unsigned.of_to.
  - rewrite parseInt_minus_string_of_uint by exact Hn.
    unfold Z.of_uint. now rewrite DecimalPos.Unsigned.of_to.
Qed.

(** [String(z)] is never the empty string, so [x || '0'] keeps it. *)
Lemma orDefault_String (z : Z) (d : string) :
  orDefault (Some (String_ (JInt z))) d = String_ (JInt z).
Proof.
  unfold String_, Z.to_int. destruct z as [|p|p]; [reflexivity| |].
  - pose proof (DecimalPos.Unsigned.to_uint_nonnil p) as Hn.
    unfold NilZero.string_of_int, NilZero.string_of_uint.
    destruct (Pos.to_uint p); try congruence; reflexivity.
  - reflexivity.
Qed.

Lemma getReloadCount_eq (w : World) :
  getReloadCount w = (Normal (readLedger (storage w)), w).
Proof.
  unfold getReloadCount, tryCatch, bind, getItem, readLedger, ret.
  destruct (sto_getThrows (storage w)); reflexivity.
Qed.

Lemma incrementReloadCount_eq (w : World) :
  incrementReloadCount w =
  if sto_setThrows (storage w) then (Normal (JInt 0), w)
  else
    let v := succ (readLedger (storage w)) in
    (Normal v, addTrace [SetItem (String_ v)]
                 (setStorage (written (String_ v) (storage w)) w)).
Proof.
  unfold incrementReloadCount, tryCatch, bind.
  rewrite getReloadCount_eq. unfold setItem, ret.
  destruct (sto_setThrows (storage w)); reflexivity.
Qed.

Lemma readLedger_written (z : Z) (s : Storage) :
  sto_getThrows s = false ->
  readLedger (written (String_ (JInt z)) s) = JInt z.
Proof.
  intros Hg. unfold readLedger.
  change (sto_getThrows (written (String_ (JInt z)) s)) with (sto_getThrows s).
  rewrite Hg. cbn [written sto_item].
  now rewrite orDefault_String, parseInt_String.
Qed.

(* ================================================================== *)
(** * The locator, tier by tier *)
(* ================================================================== *)

Lemma trySpecific_eq (sf : Surface) (sels : list string) (w : World) :
  trySpecific sf sels w =
  match firstSpecificHit sf sels with
  | Some (s, n) =>
      (Normal (Some n), addTrace [Console Debug (FoundViaSelector s (el_node n))] w)
  | None => (Normal None, w)
  end.
Proof.
  revert w. induction sels as [|s rest IH]; intros w; [reflexivity|].
  cbn [trySpecific firstSpecificHit]. unfold bind at 1, tryCatch, bind, lift.
  fold (passes sf).
  destruct (querySelector sf s) as [[n|]|]; cbn [ret].
  - unfold passes at 1. fold (passes sf n).
    destruct (passes sf n); cbn; [reflexivity | apply IH].
  - apply IH.
  - apply IH.
Qed.


Lemma firstSpecificHit_sound (sf : Surface) (sels : list string) s n :
  firstSpecificHit sf sels = Some (s, n) ->
  exists pre post,
    sels = (pre ++ s :: post)%list /\
    firstSpecificHit sf pre = None /\
    querySelector sf s = Normal (Some n) /\ passes sf n = true.
Proof.
  induction sels as [|s0 rest IH]; [discriminate|].
  cbn [firstSpecificHit]. intros H.
  destruct (querySelector sf s0) as [[n0|]|] eqn:Q.
  - destruct (passes sf n0) eqn:P.
    + injection H as <- <-. exists [], rest. auto.
    + destruct (IH H) as (pre & post & -> & Hpre & Hq & Hp).
      exists (s0 :: pre), post. cbn [firstSpecificHit]. rewrite Q, P. auto.
  - destruct (IH H) as (pre & post & -> & Hpre & Hq & Hp).
    exists (s0 :: pre), post. cbn [firstSpecificHit]. rewrite Q. auto.
  - destruct (IH H) as (pre & post & -> & Hpre & Hq & Hp).
    exists (s0 :: pre), post. cbn [firstSpecificHit]. rewrite Q. auto.
Qed.

Lemma firstSpecificHit_complete (sf : Surface) (sels : list string) s n :
  In s sels -> querySelector sf s = Normal (Some n) -> passes sf n = true ->
  exists s' n', firstSpecificHit sf sels = Some (s', n').
Proof.
  induction sels as [|s0 rest IH]; [contradiction|].
  intros [->|Hin] Q P; cbn [firstSpecificHit].
  - rewrite Q, P. eauto.
  - destruct (querySelector sf s0) as [[n0|]|]; auto.
    destruct (passes sf n0); eauto.
Qed.

(** When the locator finds nothing it writes nothing. *)
Lemma findDownloadControlWith_none sels (sf : Surface) (w : World) :
  fst (findDownloadControlWith sels sf w) = Normal None ->
  snd (findDownloadControlWith sels sf w) = w.
Proof.
  unfold findDownloadControlWith, fileHrefFallback, bind, lift, console, emit, ret.
  rewrite trySpecific_eq.
  destruct (firstSpecificHit sf sels) as [[s n]|]; [discriminate|].
  destruct (querySelectorAll sf SEL_CLICKABLE) as [cands|]; [|discriminate].
  destruct (find _ cands); [discriminate|].
  destruct (querySelector sf "[download]") as [[d|]|]; [| |discriminate].
  - destruct (isVisibleAndInteractable sf d); [discriminate|].
    destruct (querySelectorAll sf "a[href]") as [links|]; [|discriminate].
    destruct (find _ links); [discriminate|reflexivity].
  - destruct (querySelectorAll sf "a[href]") as [links|]; [|discriminate].
    destruct (find _ links); [discriminate|reflexivity].
Qed.

Lemma located_none_effects (sf : Surface) :
  located sf = Normal None -> effectsOf (findDownloadControl sf) = [].
Proof.
  unfold located, resultOf, effectsOf, findDownloadControl. intros H.
  now rewrite (findDownloadControlWith_none _ _ _ H).
Qed.

Lemma isBusyUiPresent_false (sf : Surface) (w : World) :
  fst (isBusyUiPresent sf w) = Normal false -> snd (isBusyUiPresent sf w) = w.
Proof.
  unfold isBusyUiPresent.
  destruct (find _ BUSY_TEXTS); [discriminate|].
  unfold bind, lift, console, emit, ret.
  destruct (querySelector sf SEL_BUSY) as [[el|]|]; try discriminate.
  reflexivity.
Qed.

Lemma busy_false_effects (sf : Surface) :
  busy sf = Normal false -> effectsOf (isBusyUiPresent sf) = [].
Proof.
  unfold busy, resultOf, effectsOf. intros H.
  now rewrite (isBusyUiPresent_false _ _ H).
Qed.

(* ================================================================== *)
(** * Properties of the locator and of the element checks *)
(* ================================================================== *)

(** C3, as stated, fails: on [mixedPage] the second Chakra button is a
    tier-1 candidate (it matches [button.chakra-button] and passes every
    check), yet the locator returns the plain link, which matches none of
    the specific selectors: [querySelector] only ever yields the first
    match of a selector, here the cancel button. *)
Lemma locate_prefers_tier1_counterexample :
  tier1Candidate mixedPage downloadButton
  /\ located mixedPage = Normal (Some plainLink)
  /\ existsb (el_matches plainLink) specificSelectors = false
  /\ el_node plainLink <> el_node downloadButton.
Proof.
  split; [|split; [|split]].
  - unfold tier1Candidate. repeat split; try reflexivity.
    simpl. auto.
  - vm_compute. reflexivity.
  - vm_compute. reflexivity.
  - vm_compute. discriminate.
Qed.

(** C3 (amended): [findDownloadControl] is deterministic: its result
    depends on the surface only, calling it again after it ran gives the
    same candidate, and it changes nothing but the console.  Whenever the
    first match of some specific selector passes the visibility,
    interactability and download checks, the locator returns the first
    match of the earliest such selector in the list, whatever the lower
    tiers would find. *)
Theorem locate_deterministic_first_hit_wins :
  forall (sf : Surface),
    (forall w1 w2,
        fst (findDownloadControl sf w1) = fst (findDownloadControl sf w2))
    /\ (forall w,
        fst (findDownloadControl sf (snd (findDownloadControl sf w)))
        = fst (findDownloadControl sf w))
    /\ (forall w,
        exists l, snd (findDownloadControl sf w) = addTrace l w)
    /\ (forall s n,
        In s specificSelectors ->
        querySelector sf s = Normal (Some n) ->
        passes sf n = true ->
        exists pre s' post n',
          specificSelectors = (pre ++ s' :: post)%list
          /\ firstSpecificHit sf pre = None
          /\ querySelector sf s' = Normal (Some n')
          /\ passes sf n' = true
          /\ located sf = Normal (Some n')).
Proof.
  intros sf. split; [|split; [|split]].
  - intros w1 w2. now rewrite !findDownloadControl_eq.
  - intros w. now rewrite !findDownloadControl_eq.
  - intros w. rewrite findDownloadControl_eq. cbn [snd]. eauto.
  - intros s n Hin Hq Hp.
    destruct (firstSpecificHit_complete sf _ s n Hin Hq Hp) as (s' & n' & Hhit).
    destruct (firstSpecificHit_sound sf _ s' n' Hhit)
      as (pre & post & Hsplit & Hpre & Hq' & Hp').
    exists pre, s', post, n'. repeat split; auto.
    unfold located, resultOf, findDownloadControl, findDownloadControlWith.
    unfold bind at 1. now rewrite trySpecific_eq, Hhit.
Qed.

Lemma locate_deterministic_first_hit_wins_witness :
  In "button.chakra-button" specificSelectors
  /\ querySelector readyPage "button.chakra-button" = Normal (Some downloadButton)
  /\ passes readyPage downloadButton = true
  /\ exists pre s' post n',
      specificSelectors = (pre ++ s' :: post)%list
      /\ firstSpecificHit readyPage pre = None
      /\ querySelector readyPage s' = Normal (Some n')
      /\ passes readyPage n' = true
      /\ located readyPage = Normal (Some n').
Proof.
  assert (H1 : In "button.chakra-button" specificSelectors) by (simpl; auto).
  assert (H2 : querySelector readyPage "button.chakra-button"
               = Normal (Some downloadButton)) by reflexivity.
  assert (H3 : passes readyPage downloadButton = true) by reflexivity.
  repeat split; auto.
  exact (proj2 (proj2 (proj2 (locate_deterministic_first_hit_wins readyPage)))
           _ _ H1 H2 H3).
Defined.



(** C9, as stated, fails: the style of [unstyledButton] cannot be computed,
    and the check still answers [true]. *)
Lemma style_failure_counterexample :
  el_computedStyle unstyledButton = Throw
  /\ isVisibleAndInteractable readyPage unstyledButton = true.
Proof. split; reflexivity. Qed.

(** C9 (amended): when the style computation raises, the failure is
    swallowed where it occurs and only the style test is skipped: the
    answer is that of the remaining checks (not disabled, client rects,
    non-empty box, viewport, no [aria-hidden] ancestor). *)
Theorem style_failure_skips_style_check :
  forall (sf : Surface) (el : Element),
    el_computedStyle el = Throw ->
    isVisibleAndInteractable sf el
    = negb (el_disabled el) && geometryVisible sf el.
Proof.
  intros sf el H. unfold isVisibleAndInteractable. rewrite H.
  now destruct (el_disabled el).
Qed.

Lemma style_failure_skips_style_check_witness :
  el_computedStyle unstyledButton = Throw
  /\ isVisibleAndInteractable readyPage unstyledButton
     = negb (el_disabled unstyledButton) && geometryVisible readyPage unstyledButton.
Proof.
  split; [reflexivity|].
  apply (style_failure_skips_style_check readyPage unstyledButton). reflexivity.
Defined.

(* ================================================================== *)
(** * Properties of the ledger *)
(* ================================================================== *)

(** C8, as stated, fails: the stored value [abc] is not a non-negative
    integer string, and [getReloadCount] returns [NaN], not [0]. *)
Lemma ledger_unreadable_value_counterexample :
  isNaturalString "abc" = false
  /\ getReloadCount (initialWorld (mkStorage Full (Some "abc")))
     = (Normal JNaN, initialWorld (mkStorage Full (Some "abc")))
  /\ JNaN <> JInt 0.
Proof. repeat split; try reflexivity. discriminate. Qed.

(** C8 (amended): neither ledger operation ever raises.  When reading the
    medium raises, [getReloadCount] returns 0; when writing raises,
    [incrementReloadCount] returns 0 and changes nothing.  An absent or
    empty stored value reads as 0; any other stored string reads as
    [parseInt] of it. *)
Theorem ledger_degrades :
  forall (w : World),
    (exists v, getReloadCount w = (Normal v, w))
    /\ (exists v, fst (incrementReloadCount w) = Normal v)
    /\ (sto_getThrows (storage w) = true ->
        getReloadCount w = (Normal (JInt 0), w))
    /\ (sto_setThrows (storage w) = true ->
        incrementReloadCount w = (Normal (JInt 0), w))
    /\ (sto_item (storage w) = None \/ sto_item (storage w) = Some EmptyString ->
        getReloadCount w = (Normal (JInt 0), w))
    /\ (forall s,
        sto_getThrows (storage w) = false ->
        sto_item (storage w) = Some s -> s <> EmptyString ->
        getReloadCount w = (Normal (parseInt s), w)).
Proof.
  intros w. rewrite getReloadCount_eq, incrementReloadCount_eq.
  unfold readLedger. repeat split.
  - eauto.
  - destruct (sto_setThrows (storage w)); cbn [fst]; eauto.
  - intros ->. reflexivity.
  - intros ->. reflexivity.
  - intros [-> | ->]; destruct (sto_getThrows (storage w)); reflexivity.
  - intros s -> -> Hs. destruct s; [congruence | reflexivity].
Qed.

Lemma ledger_degrades_witness :
  let dead := initialWorld (mkStorage Denied (Some "2")) in
  let fresh := initialWorld emptyStorage in
  let used := initialWorld (mkStorage Full (Some "2")) in
  getReloadCount dead = (Normal (JInt 0), dead)
  /\ incrementReloadCount dead = (Normal (JInt 0), dead)
  /\ getReloadCount fresh = (Normal (JInt 0), fresh)
  /\ getReloadCount used = (Normal (JInt 2), used).
Proof.
  intros dead fresh used.
  destruct (ledger_degrades dead) as (_ & _ & Hg & Hs & _).
  destruct (ledger_degrades fresh) as (_ & _ & _ & _ & Ha & _).
  destruct (ledger_degrades used) as (_ & _ & _ & _ & _ & Hv).
  split; [|split; [|split]].
  - apply Hg. reflexivity.
  - apply Hs. reflexivity.
  - apply Ha. left. reflexivity.
  - apply (Hv "2"); [reflexivity | reflexivity | discriminate].
Defined.

(* ================================================================== *)
(** * Running the callbacks symbolically *)
(* ================================================================== *)

Lemma nth_setNth_same {A} (i : nat) (x d : A) (l : list A) :
  (i < List.length l)%nat -> nth i (setNth i x l) d = x.
Proof.
  revert i. induction l as [|a l IH]; intros [|i] H; simpl in *;
    try lia; auto. apply IH. lia.
Qed.

Lemma nth_setNth_other {A} (i j : nat) (x d : A) (l : list A) :
  i <> j -> nth j (setNth i x l) d = nth j l d.
Proof.
  revert i j. induction l as [|a l IH]; intros [|i] [|j] H; simpl;
    try congruence; auto.
Qed.

Lemma length_setNth {A} (i : nat) (x : A) (l : list A) :
  List.length (setNth i x l) = List.length l.
Proof.
  revert i. induction l as [|a l IH]; intros [|i]; simpl; auto.
Qed.

Lemma inst_updInst_same i f w :
  (i < List.length (instances w))%nat -> inst i (updInst i f w) = f (inst i w).
Proof. intros H. unfold inst, updInst; cbn [instances setInstances]. now apply nth_setNth_same. Qed.

Lemma inst_updInst_other i j f w :
  i <> j -> inst j (updInst i f w) = inst j w.
Proof. intros H. unfold inst, updInst; cbn [instances setInstances]. now apply nth_setNth_other. Qed.

(** A slot out of range holds no live closure. *)
Lemma inst_out_of_range i w :
  (List.length (instances w) <= i)%nat -> inst i w = noInstance.
Proof. intros H. unfold inst. now apply nth_overflow. Qed.

Lemma live_in_range i w :
  observing (inst i w) = true \/ timerOn (inst i w) = true
  \/ watchdog (inst i w) = true \/ resolved (inst i w) = true ->
  (i < List.length (instances w))%nat.
Proof.
  intros H. destruct (Nat.lt_ge_cases i (List.length (instances w))) as [|Hge]; auto.
  rewrite (inst_out_of_range _ _ Hge) in H. simpl in H.
  intuition discriminate.
Qed.

Lemma emulateClick_normal (el : Element) : resultOf (emulateClick el) = Normal tt.
Proof.
  unfold resultOf, emulateClick.
  destruct el as [node m c dis sty cr br txt attrs href [|] [|] [[|]|]];
    reflexivity.
Qed.

Lemma bind_eq {A B} (m : M A) (f : A -> M B) (w : World) :
  bind m f w =
  match m w with
  | (Normal a, w') => f a w'
  | (Throw, w') => (Throw, w')
  end.
Proof. reflexivity. Qed.

Lemma tryCatch_eq {A} (m h : M A) (w : World) :
  tryCatch m h w =
  match m w with
  | (Normal a, w') => (Normal a, w')
  | (Throw, w') => h w'
  end.
Proof. reflexivity. Qed.

Lemma inst_addTrace i l w : inst i (addTrace l w) = inst i w.
Proof. reflexivity. Qed.

Lemma inst_setPendingStarts i n w : inst i (setPendingStarts n w) = inst i w.
Proof. reflexivity. Qed.

Lemma inst_setReloadRequested i b w : inst i (setReloadRequested b w) = inst i w.
Proof. reflexivity. Qed.

Lemma inst_setStorage i s w : inst i (setStorage s w) = inst i w.
Proof. reflexivity. Qed.

Lemma storage_addTrace l w : storage (addTrace l w) = storage w.
Proof. reflexivity. Qed.

Lemma storage_updInst i f w : storage (updInst i f w) = storage w.
Proof. reflexivity. Qed.

Lemma storage_setPendingStarts n w : storage (setPendingStarts n w) = storage w.
Proof. reflexivity. Qed.

Lemma storage_setReloadRequested b w :
  storage (setReloadRequested b w) = storage w.
Proof. reflexivity. Qed.

(** Fields of a world seen through the updates the callbacks make. *)
Ltac fields :=
  cbn [storage instances pendingStarts reloadRequested trace
       setStorage setInstances setPendingStarts setReloadRequested addTrace
       updInst fst snd].

Ltac in_range :=
  fields; repeat rewrite length_setNth; assumption.

(** The closure of an instance seen through the updates. *)
Ltac insts :=
  repeat first
    [ rewrite inst_addTrace | rewrite inst_setPendingStarts
    | rewrite inst_setReloadRequested | rewrite inst_setStorage
    | rewrite storage_addTrace | rewrite storage_updInst
    | rewrite storage_setPendingStarts | rewrite storage_setReloadRequested
    | rewrite inst_updInst_same by in_range
    | rewrite inst_updInst_other by assumption ].

(** Symbolic execution of a callback body. *)
Ltac exec :=
  repeat first
    [ rewrite bind_eq
    | rewrite tryCatch_eq
    | rewrite findDownloadControl_eq
    | rewrite isBusyUiPresent_eq
    | rewrite getReloadCount_eq
    | rewrite incrementReloadCount_eq
    | rewrite emulateClick_eq
    | rewrite emulateClick_normal
    | match goal with
      | H : located _ = _ |- _ => rewrite H
      | H : busy _ = _ |- _ => rewrite H
      end
    | progress insts
    | match goal with
      | H : resolved (inst _ _) = _ |- _ => rewrite H
      end
    | progress cbn [bind ret tryCatch lift emit console throw modifyInst readInst
                    newInstance setTimeoutStart locationReload fst snd finish
                    callback timerCallback observerCallback watchdogCallback
                    startAutoDl negb
                    resolved observing timerOn elapsed watchdog
                    latch disconnect clearInterval addElapsed watchdogFired] ].

(* ================================================================== *)
(** * One step of the machine *)
(* ================================================================== *)

Lemma countIf_inert_effects p (sf : Surface) :
  (forall e, inert e = true -> p e = false) ->
  countIf p (effectsOf (findDownloadControl sf)) = 0%nat
  /\ countIf p (effectsOf (isBusyUiPresent sf)) = 0%nat.
Proof.
  intros H. split; apply (countIf_none p inert); auto.
  - apply emitsOnly_effects, emitsOnly_findDownloadControl.
  - apply emitsOnly_effects, emitsOnly_isBusyUiPresent.
Qed.

Lemma countIf_click_effects p (el : Element) :
  (forall e, clicking e = true -> p e = false) ->
  countIf p (effectsOf (emulateClick el)) = 0%nat.
Proof.
  intros H. apply (countIf_none p clicking); auto.
  apply emitsOnly_effects, emitsOnly_emulateClick.
Qed.

Lemma inert_not_reload e : inert e = true -> isReload e = false.
Proof. destruct e; simpl; intros H; reflexivity || discriminate H. Qed.
Lemma inert_not_setItem e : inert e = true -> isSetItem e = false.
Proof. destruct e; simpl; intros H; reflexivity || discriminate H. Qed.
Lemma inert_not_backoff e : inert e = true -> isBackoff e = false.
Proof. destruct e; simpl; intros H; reflexivity || discriminate H. Qed.
Lemma inert_not_activation e : inert e = true -> isActivation e = false.
Proof.
  destruct e; simpl; intros H; try reflexivity; try discriminate H.
  now apply negb_true_iff in H.
Qed.
Lemma clicking_not_reload e : clicking e = true -> isReload e = false.
Proof. destruct e; simpl; intros H; reflexivity || discriminate H. Qed.
Lemma clicking_not_setItem e : clicking e = true -> isSetItem e = false.
Proof. destruct e; simpl; intros H; reflexivity || discriminate H. Qed.
Lemma clicking_not_backoff e : clicking e = true -> isBackoff e = false.
Proof. destruct e; simpl; intros H; reflexivity || discriminate H. Qed.

(** Counting one kind of effect in the trace a step leaves. *)
Ltac counts :=
  fields;
  repeat rewrite countIf_app;
  repeat match goal with
    | |- context [countIf isReload (effectsOf (findDownloadControl ?sf))] =>
        rewrite (proj1 (countIf_inert_effects isReload sf inert_not_reload))
    | |- context [countIf isReload (effectsOf (isBusyUiPresent ?sf))] =>
        rewrite (proj2 (countIf_inert_effects isReload sf inert_not_reload))
    | |- context [countIf isReload (effectsOf (emulateClick ?el))] =>
        rewrite (countIf_click_effects isReload el clicking_not_reload)
    | |- context [countIf isSetItem (effectsOf (findDownloadControl ?sf))] =>
        rewrite (proj1 (countIf_inert_effects isSetItem sf inert_not_setItem))
    | |- context [countIf isSetItem (effectsOf (isBusyUiPresent ?sf))] =>
        rewrite (proj2 (countIf_inert_effects isSetItem sf inert_not_setItem))
    | |- context [countIf isSetItem (effectsOf (emulateClick ?el))] =>
        rewrite (countIf_click_effects isSetItem el clicking_not_setItem)
    | |- context [countIf isBackoff (effectsOf (findDownloadControl ?sf))] =>
        rewrite (proj1 (countIf_inert_effects isBackoff sf inert_not_backoff))
    | |- context [countIf isBackoff (effectsOf (isBusyUiPresent ?sf))] =>
        rewrite (proj2 (countIf_inert_effects isBackoff sf inert_not_backoff))
    | |- context [countIf isBackoff (effectsOf (emulateClick ?el))] =>
        rewrite (countIf_click_effects isBackoff el clicking_not_backoff)
    | |- context [countIf isActivation (effectsOf (findDownloadControl ?sf))] =>
        rewrite (proj1 (countIf_inert_effects isActivation sf inert_not_activation))
    | |- context [countIf isActivation (effectsOf (isBusyUiPresent ?sf))] =>
        rewrite (proj2 (countIf_inert_effects isActivation sf inert_not_activation))
    end;
  cbn [countIf filter List.length isReload isSetItem isBackoff isActivation];
  try lia.

(** Every step either leaves the store alone and calls no reload, or is
    the reload branch. *)
Lemma step_cases (ev : Event) (w w' : World) :
  step ev w = Some w' ->
  (storage w' = storage w
   /\ countIf isReload (trace w') = countIf isReload (trace w))
  \/ reloadBranch ev w w'.
Proof.
  unfold step. destruct (enabled ev w) eqn:En; [|discriminate].
  intros [= <-]. destruct ev as [sf|i sf|i sf|i|]; cbn [enabled] in En.
  - left. exec.
    destruct (located sf) as [[el|]|]; exec; [split; [fields; auto|counts]| |split; [fields; auto|counts]].
    destruct (busy sf) as [[|]|]; exec;
      destruct (sf_observeThrows sf); exec; (split; [fields; auto|counts]).
  - left.
    assert (Hi : (i < List.length (instances w))%nat)
      by (apply live_in_range; auto).
    exec. destruct (resolved (inst i w)) eqn:Hr; exec; [split; [fields; auto|counts]|].
    destruct (located sf) as [[el|]|]; exec; (split; [fields; auto|counts]).
  - assert (Hi : (i < List.length (instances w))%nat)
      by (apply live_in_range; auto).
    exec. destruct (resolved (inst i w)) eqn:Hr; exec;
      [left; split; [fields; auto|counts]|].
    destruct (located sf) as [[el|]|] eqn:Hl; exec;
      [left; split; [fields; auto|counts] | | left; split; [fields; auto|counts]].
    destruct (INITIAL_WAIT_MS <=? elapsed (inst i w) + POLL_INTERVAL_MS) eqn:He;
      exec; [|left; split; [fields; auto|counts]].
    destruct (busy sf) as [[|]|] eqn:Hb; exec;
      [left; split; [fields; auto|counts] | | left; split; [fields; auto|counts]].
    destruct (geb (readLedger (storage w)) (JInt MAX_RELOADS)) eqn:Hg; exec;
      [left; split; [fields; auto|counts]|].
    right. exists i, sf.
    rewrite (located_none_effects _ Hl), (busy_false_effects _ Hb).
    apply Z.leb_le in He. rewrite !incrementReloadCount_eq.
    destruct (sto_setThrows (storage w)) eqn:Hst; exec;
      destruct (sf_reloadThrows sf); exec; eexists; cbn [fst snd];
      repeat split; try assumption; fields;
      rewrite <- ?app_assoc; reflexivity.
  - left.
    assert (Hi : (i < List.length (instances w))%nat)
      by (apply live_in_range; auto).
    exec. destruct (resolved (inst i w)) eqn:Hr; exec; (split; [fields; auto|counts]).
  - left. exec. cbn. auto.
Qed.

(** The busy branch of the interval callback. *)
Lemma busy_expiry_step (w : World) (i : nat) (sf : Surface) (w' : World) :
  timerOn (inst i w) = true ->
  resolved (inst i w) = false ->
  located sf = Normal None ->
  INITIAL_WAIT_MS <= elapsed (inst i w) + POLL_INTERVAL_MS ->
  busy sf = Normal true ->
  step (EvTick i sf) w = Some w' ->
  storage w' = storage w
  /\ pendingStarts w' = S (pendingStarts w)
  /\ reloadRequested w' = reloadRequested w
  /\ trace w' =
     (trace w ++ effectsOf (isBusyUiPresent sf)
      ++ [Console Info (PageBusyRetry (readLedger (storage w)));
          SetTimeoutStart (extraWaitFor (readLedger (storage w)))])%list
  /\ timerOn (inst i w') = false
  /\ observing (inst i w') = false.
Proof.
  intros Ht Hr Hl He Hb. unfold step. cbn [enabled]. rewrite Ht.
  intros [= <-].
  assert (Hi : (i < List.length (instances w))%nat)
    by (apply live_in_range; auto).
  apply Z.leb_le in He. exec. rewrite He. exec.
  rewrite (located_none_effects _ Hl).
  repeat split; fields; rewrite <- ?app_assoc, ?app_nil_r; try reflexivity.
Qed.

(* ================================================================== *)
(** * Properties of the retry machine *)
(* ================================================================== *)

(** C7: when the watch window expires on a busy surface the machine takes
    the backoff branch: it schedules one delayed [startAutoDl], calls no
    reload and leaves the store as it was.  More generally, a step changes
    the store only in the reload branch. *)
Theorem busy_backoff_never_increments :
  (forall (w : World) (i : nat) (sf : Surface) (w' : World),
      timerOn (inst i w) = true ->
      resolved (inst i w) = false ->
      located sf = Normal None ->
      INITIAL_WAIT_MS <= elapsed (inst i w) + POLL_INTERVAL_MS ->
      busy sf = Normal true ->
      step (EvTick i sf) w = Some w' ->
      storage w' = storage w
      /\ pendingStarts w' = S (pendingStarts w)
      /\ countIf isBackoff (trace w') = S (countIf isBackoff (trace w))
      /\ countIf isSetItem (trace w') = countIf isSetItem (trace w)
      /\ countIf isReload (trace w') = countIf isReload (trace w))
  /\ (forall (ev : Event) (w w' : World),
      step ev w = Some w' -> storage w' <> storage w -> reloadBranch ev w w').
Proof.
  split.
  - intros w i sf w' Ht Hr Hl He Hb Hs.
    destruct (busy_expiry_step w i sf w' Ht Hr Hl He Hb Hs)
      as (Hsto & Hp & _ & Htr & _).
    repeat split; auto; rewrite Htr; counts.
  - intros ev w w' Hs Hne.
    destruct (step_cases ev w w' Hs) as [[Heq _]|Hrb]; [contradiction|exact Hrb].
Qed.

Lemma busy_backoff_never_increments_witness :
  let w' := after [EvTick 0%nat busyPage] busyWaiting in
  timerOn (inst 0 busyWaiting) = true
  /\ resolved (inst 0 busyWaiting) = false
  /\ located busyPage = Normal None
  /\ INITIAL_WAIT_MS <= elapsed (inst 0 busyWaiting) + POLL_INTERVAL_MS
  /\ busy busyPage = Normal true
  /\ step (EvTick 0%nat busyPage) busyWaiting = Some w'
  /\ storage w' = storage busyWaiting
  /\ pendingStarts w' = S (pendingStarts busyWaiting)
  /\ countIf isBackoff (trace w') = S (countIf isBackoff (trace busyWaiting))
  /\ countIf isSetItem (trace w') = countIf isSetItem (trace busyWaiting)
  /\ countIf isReload (trace w') = countIf isReload (trace busyWaiting).
Proof.
  intros w'.
  assert (H1 : timerOn (inst 0 busyWaiting) = true) by (vm_compute; reflexivity).
  assert (H2 : resolved (inst 0 busyWaiting) = false) by (vm_compute; reflexivity).
  assert (H3 : located busyPage = Normal None) by (vm_compute; reflexivity).
  assert (H4 : INITIAL_WAIT_MS <= elapsed (inst 0 busyWaiting) + POLL_INTERVAL_MS)
    by (vm_compute; discriminate).
  assert (H5 : busy busyPage = Normal true) by (vm_compute; reflexivity).
  assert (H6 : step (EvTick 0%nat busyPage) busyWaiting = Some w') by (vm_compute; reflexivity).
  repeat (split; [assumption|]).
  exact (proj1 busy_backoff_never_increments _ _ _ _ H1 H2 H3 H4 H5 H6).
Defined.

(** C2: along every run of the machine the ledger value never decreases
    and, once changed by a step, is at most the ceiling: a step that
    changes the store found the value strictly below the ceiling.  The
    value is what [getReloadCount] reads, a non-negative integer at the
    start of the run. *)
Theorem ledger_monotone_bounded :
  forall (w : World) (n : Z),
    readLedger (storage w) = JInt n ->
    0 <= n ->
    (forall evs w',
        run evs w = Some w' ->
        exists n', readLedger (storage w') = JInt n'
                   /\ n <= n' /\ n' <= Z.max n MAX_RELOADS)
    /\ (forall ev w',
        step ev w = Some w' ->
        storage w' <> storage w ->
        n < MAX_RELOADS
        /\ exists n', readLedger (storage w') = JInt n'
                      /\ n <= n' /\ n' <= MAX_RELOADS).
Proof.
  assert (Hstep : forall ev w w' n,
             readLedger (storage w) = JInt n -> 0 <= n ->
             step ev w = Some w' ->
             storage w' = storage w
             \/ (n < MAX_RELOADS
                 /\ exists n', readLedger (storage w') = JInt n'
                               /\ n <= n' /\ n' <= MAX_RELOADS)).
  { intros ev w w' n Hn Hpos Hs.
    destruct (step_cases ev w w' Hs) as [[Heq _]|Hrb]; [left; exact Heq|].
    destruct Hrb as (i & sf & v & _ & _ & _ & _ & _ & _ & Hg & _ & Hsto & _).
    rewrite Hn in Hg. cbn [geb] in Hg. apply Z.leb_gt in Hg.
    rewrite incrementReloadCount_eq in Hsto.
    destruct (sto_setThrows (storage w)) eqn:Hst; cbn [snd] in Hsto;
      [left; exact Hsto|].
    assert (Hgt : sto_getThrows (storage w) = false)
      by (unfold sto_getThrows, sto_setThrows in *;
          destruct (sto_access (storage w)); congruence).
    right. split; [exact Hg|]. rewrite Hsto. fields.
    rewrite Hn. cbn [succ].
    exists (n + 1). rewrite readLedger_written by exact Hgt.
    split; [reflexivity|]. lia. }
  intros w n Hn Hpos. split.
  - intros evs. revert w n Hn Hpos.
    induction evs as [|ev evs IH]; intros w n Hn Hpos w' Hrun.
    + injection Hrun as <-. exists n. split; [exact Hn|]. lia.
    + cbn [run] in Hrun. destruct (step ev w) as [w1|] eqn:Hs; [|discriminate].
      destruct (Hstep ev w w1 n Hn Hpos Hs) as [Heq|(Hlt & n1 & Hn1 & Hle & Hmax)].
      * apply (IH w1 n); [now rewrite Heq | exact Hpos | exact Hrun].
      * destruct (IH w1 n1 Hn1 ltac:(lia) w' Hrun) as (n' & Hn' & Hle' & Hmax').
        exists n'. split; [exact Hn'|]. lia.
  - intros ev w' Hs Hne.
    destruct (Hstep ev w w' n Hn Hpos Hs) as [Heq|H]; [contradiction|exact H].
Qed.

Lemma ledger_monotone_bounded_witness :
  let evs := [EvTick 0%nat quietPage; EvNavigate; EvStart quietPage] in
  let w' := after evs quietWaiting in
  readLedger (storage quietWaiting) = JInt 0
  /\ 0 <= 0
  /\ run evs quietWaiting = Some w'
  /\ readLedger (storage w') = JInt 1
  /\ exists n', readLedger (storage w') = JInt n'
                /\ 0 <= n' /\ n' <= Z.max 0 MAX_RELOADS.
Proof.
  intros evs w'.
  assert (H1 : readLedger (storage quietWaiting) = JInt 0) by (vm_compute; reflexivity).
  assert (H2 : 0 <= 0) by lia.
  assert (H3 : run evs quietWaiting = Some w') by (vm_compute; reflexivity).
  repeat (split; [assumption || (vm_compute; reflexivity)|]).
  exact (proj1 (ledger_monotone_bounded quietWaiting 0 H1 H2) evs w' H3).
Defined.

(** What a quiet watch-window expiry does, by the ledger value. *)
Lemma quiet_expiry_step (w : World) (n : Z) (i : nat) (sf : Surface) (w' : World) :
  sto_getThrows (storage w) = false ->
  sto_setThrows (storage w) = false ->
  readLedger (storage w) = JInt n ->
  quiet sf ->
  expiry (EvTick i sf) w = true ->
  step (EvTick i sf) w = Some w' ->
  timerOn (inst i w') = false
  /\ observing (inst i w') = false
  /\ pendingStarts w' = pendingStarts w
  /\ if n <? MAX_RELOADS then
       storage w' = written (String_ (JInt (n + 1))) (storage w)
       /\ trace w' =
          (trace w
           ++ [SetItem (String_ (JInt (n + 1)));
               Console Warn (ReloadingAttempt (JInt (n + 1)));
               LocationReload]
           ++ (if sf_reloadThrows sf then [Console Error ReloadFailed] else []))%list
     else
       storage w' = storage w
       /\ reloadRequested w' = reloadRequested w
       /\ trace w' = (trace w ++ [Console Warn (MaxReloadsReached (JInt n))])%list.
Proof.
  intros Hgt Hst Hn [Hl Hb] Hex. unfold step. cbn [enabled].
  cbn [expiry] in Hex.
  apply andb_true_iff in Hex as [Hex He]. apply andb_true_iff in Hex as [Ht Hr].
  apply negb_true_iff in Hr. rewrite Ht. intros [= <-].
  assert (Hi : (i < List.length (instances w))%nat)
    by (apply live_in_range; auto).
  exec. rewrite He. exec.
  rewrite (located_none_effects _ Hl), (busy_false_effects _ Hb), Hn.
  cbn [geb]. rewrite Z.leb_antisym.
  destruct (n <? MAX_RELOADS); cbn [negb]; exec.
  - rewrite Hst, Hn. exec. cbn [succ].
    destruct (sf_reloadThrows sf); exec;
      repeat split; fields; rewrite <- ?app_assoc; reflexivity.
  - repeat split; fields; rewrite <- ?app_assoc; reflexivity.
Qed.

(** A quiet event that is not an expiry touches neither the store nor
    the page. *)
Lemma quiet_other_step (ev : Event) (w w' : World) :
  quietEvent ev ->
  expiry ev w = false ->
  step ev w = Some w' ->
  storage w' = storage w
  /\ countIf isReload (trace w') = countIf isReload (trace w)
  /\ countIf isSetItem (trace w') = countIf isSetItem (trace w).
Proof.
  intros Hq Hex. unfold step. destruct (enabled ev w) eqn:En; [|discriminate].
  intros [= <-]. destruct ev as [sf|i sf|i sf|i|]; cbn [enabled] in En;
    cbn [quietEvent] in Hq.
  - destruct Hq as [Hl Hb]. exec.
    destruct (sf_observeThrows sf); exec; (repeat split; solve [fields; auto | counts]).
  - destruct Hq as [Hl Hb].
    assert (Hi : (i < List.length (instances w))%nat)
      by (apply live_in_range; auto).
    exec. destruct (resolved (inst i w)) eqn:Hr; exec;
      (repeat split; solve [fields; auto | counts]).
  - destruct Hq as [Hl Hb].
    assert (Hi : (i < List.length (instances w))%nat)
      by (apply live_in_range; auto).
    cbn [expiry] in Hex. rewrite En in Hex. cbn [andb] in Hex.
    exec. destruct (resolved (inst i w)) eqn:Hr; exec;
      [repeat split; solve [fields; auto | counts]|].
    cbn [negb andb] in Hex. rewrite Hex. exec.
    repeat split; solve [fields; auto | counts].
  - assert (Hi : (i < List.length (instances w))%nat)
      by (apply live_in_range; auto).
    exec. destruct (resolved (inst i w)) eqn:Hr; exec;
      (repeat split; solve [fields; auto | counts]).
  - exec. cbn. auto.
Qed.

(** C1, as stated, fails when the storage is unavailable: on a quiet page
    the machine reloads at every expiry, four times here and so beyond the
    ceiling, while nothing is ever written and the ledger stays at 0. *)
Lemma reload_budget_counterexample :
  let w' := after (quietLife 0 ++ quietLife 1 ++ quietLife 2 ++ quietLife 3)
                  (initialWorld deadStorage) in
  quiet quietPage
  /\ run (quietLife 0 ++ quietLife 1 ++ quietLife 2 ++ quietLife 3)
         (initialWorld deadStorage) = Some w'
  /\ countIf isReload (trace w') = 4%nat
  /\ (Z.of_nat (countIf isReload (trace w')) > MAX_RELOADS)
  /\ countIf isSetItem (trace w') = 0%nat
  /\ storage w' = deadStorage
  /\ readLedger (storage w') = JInt 0.
Proof.
  intros w'. unfold quiet.
  repeat match goal with |- _ /\ _ => split end; vm_compute; reflexivity.
Qed.

(** C1 (amended): provided the storage can be read and written and the
    ledger reads a non-negative integer [n]: along every run over quiet
    surfaces the number of reloads and the number of ledger writes both
    grow by the number of watch-window expiries, capped by the remaining
    budget [MAX_RELOADS - n], and the ledger grows by the same number; at a
    single expiry below the ceiling the machine writes [n + 1] and then
    calls [location.reload()], once each; at an expiry at or above the
    ceiling it only reports that it gives up; and from the ceiling on no
    run ever changes the store or reloads. *)
Theorem quiet_runs_reload_within_budget :
  forall (w : World) (n : Z),
    sto_access (storage w) = Full ->
    readLedger (storage w) = JInt n ->
    0 <= n ->
    (forall evs w',
        Forall quietEvent evs ->
        run evs w = Some w' ->
        let k := Z.min (Z.of_nat (expiries evs w)) (Z.max 0 (MAX_RELOADS - n)) in
        Z.of_nat (countIf isReload (trace w'))
        = Z.of_nat (countIf isReload (trace w)) + k
        /\ Z.of_nat (countIf isSetItem (trace w'))
           = Z.of_nat (countIf isSetItem (trace w)) + k
        /\ readLedger (storage w') = JInt (n + k))
    /\ (forall i sf w',
        quiet sf ->
        expiry (EvTick i sf) w = true ->
        step (EvTick i sf) w = Some w' ->
        if n <? MAX_RELOADS then
          readLedger (storage w') = JInt (n + 1)
          /\ trace w' =
             (trace w
              ++ [SetItem (String_ (JInt (n + 1)));
                  Console Warn (ReloadingAttempt (JInt (n + 1)));
                  LocationReload]
              ++ (if sf_reloadThrows sf then [Console Error ReloadFailed] else []))%list
        else
          storage w' = storage w
          /\ reloadRequested w' = reloadRequested w
          /\ timerOn (inst i w') = false
          /\ observing (inst i w') = false
          /\ trace w' = (trace w ++ [Console Warn (MaxReloadsReached (JInt n))])%list)
    /\ (MAX_RELOADS <= n ->
        forall evs w',
          run evs w = Some w' ->
          storage w' = storage w
          /\ countIf isReload (trace w') = countIf isReload (trace w)).
Proof.
  intros w n Hfull Hn Hpos.
  assert (Hgt : sto_getThrows (storage w) = false)
    by (unfold sto_getThrows; now rewrite Hfull).
  assert (Hst : sto_setThrows (storage w) = false)
    by (unfold sto_setThrows; now rewrite Hfull).
  clear Hfull. split; [|split].
  - intros evs. revert w n Hgt Hst Hn Hpos.
    induction evs as [|ev evs IH]; intros w n Hgt Hst Hn Hpos w' Hq Hrun.
    + injection Hrun as <-. cbn [expiries]. cbv zeta.
      replace (Z.min (Z.of_nat 0) (Z.max 0 (MAX_RELOADS - n))) with 0 by lia.
      rewrite !Z.add_0_r. auto.
    + inversion Hq as [|? ? Hev Hevs]; subst.
      cbn [run] in Hrun. cbn [expiries].
      destruct (step ev w) as [w1|] eqn:Hs; [|discriminate].
      destruct (expiry ev w) eqn:Hex.
      * destruct ev as [sf|i sf|i sf|i|]; try discriminate Hex.
        pose proof (quiet_expiry_step w n i sf w1 Hgt Hst Hn Hev Hex Hs)
          as (_ & _ & _ & Hcase).
        destruct (n <? MAX_RELOADS) eqn:Hlt.
        -- apply Z.ltb_lt in Hlt. destruct Hcase as [Hsto Htr].
           assert (Hgt1 : sto_getThrows (storage w1) = false)
             by (rewrite Hsto; exact Hgt).
           assert (Hst1 : sto_setThrows (storage w1) = false)
             by (rewrite Hsto; exact Hst).
           assert (Hn1 : readLedger (storage w1) = JInt (n + 1))
             by (rewrite Hsto; apply readLedger_written; exact Hgt).
           destruct (IH w1 (n + 1) Hgt1 Hst1 Hn1 ltac:(lia) w' Hevs Hrun)
             as (Hr & Hw & Hl).
           cbv zeta in *. rewrite Hr, Hw, Hl, Htr.
           assert (Hc1 : countIf isReload
                           (trace w
                            ++ [SetItem (String_ (JInt (n + 1)));
                                Console Warn (ReloadingAttempt (JInt (n + 1)));
                                LocationReload]
                            ++ (if sf_reloadThrows sf
                                then [Console Error ReloadFailed] else []))%list
                         = S (countIf isReload (trace w)))
             by (destruct (sf_reloadThrows sf); counts).
           assert (Hc2 : countIf isSetItem
                           (trace w
                            ++ [SetItem (String_ (JInt (n + 1)));
                                Console Warn (ReloadingAttempt (JInt (n + 1)));
                                LocationReload]
                            ++ (if sf_reloadThrows sf
                                then [Console Error ReloadFailed] else []))%list
                         = S (countIf isSetItem (trace w)))
             by (destruct (sf_reloadThrows sf); counts).
           rewrite Hc1, Hc2.
           unfold MAX_RELOADS in *; split; [lia | split; [lia | f_equal; lia]].
        -- apply Z.ltb_ge in Hlt. destruct Hcase as (Hsto & _ & Htr).
           assert (Hgt1 : sto_getThrows (storage w1) = false)
             by (rewrite Hsto; exact Hgt).
           assert (Hst1 : sto_setThrows (storage w1) = false)
             by (rewrite Hsto; exact Hst).
           assert (Hn1 : readLedger (storage w1) = JInt n)
             by (rewrite Hsto; exact Hn).
           destruct (IH w1 n Hgt1 Hst1 Hn1 Hpos w' Hevs Hrun) as (Hr & Hw & Hl).
           cbv zeta in *. rewrite Hr, Hw, Hl, Htr.
           assert (Hc1 : countIf isReload
                           (trace w ++ [Console Warn (MaxReloadsReached (JInt n))])
                         = countIf isReload (trace w)) by counts.
           assert (Hc2 : countIf isSetItem
                           (trace w ++ [Console Warn (MaxReloadsReached (JInt n))])
                         = countIf isSetItem (trace w)) by counts.
           rewrite Hc1, Hc2.
           unfold MAX_RELOADS in *; split; [lia | split; [lia | f_equal; lia]].
      * destruct (quiet_other_step ev w w1 Hev Hex Hs) as (Hsto & Hc1 & Hc2).
        assert (Hgt1 : sto_getThrows (storage w1) = false)
          by (rewrite Hsto; exact Hgt).
        assert (Hst1 : sto_setThrows (storage w1) = false)
          by (rewrite Hsto; exact Hst).
        assert (Hn1 : readLedger (storage w1) = JInt n)
          by (rewrite Hsto; exact Hn).
        destruct (IH w1 n Hgt1 Hst1 Hn1 Hpos w' Hevs Hrun) as (Hr & Hw & Hl).
        cbv zeta in *. rewrite Hr, Hw, Hl, Hc1, Hc2.
        unfold MAX_RELOADS in *; split; [lia | split; [lia | f_equal; lia]].
  - intros i sf w' Hq Hex Hs.
    pose proof (quiet_expiry_step w n i sf w' Hgt Hst Hn Hq Hex Hs)
      as (Ht & Ho & _ & Hcase).
    destruct (n <? MAX_RELOADS).
    + destruct Hcase as [Hsto Htr]. split; [|exact Htr].
      rewrite Hsto. apply readLedger_written. exact Hgt.
    + destruct Hcase as (Hsto & Hrr & Htr). auto.
  - intros Hmax evs. revert w Hn Hgt Hst.
    induction evs as [|ev evs IH]; intros w Hn Hgt Hst w' Hrun.
    + injection Hrun as <-. auto.
    + cbn [run] in Hrun.
      destruct (step ev w) as [w1|] eqn:Hs; [|discriminate].
      destruct (step_cases ev w w1 Hs) as [[Hsto Hc]|Hrb].
      * rewrite <- Hsto, <- Hc. apply IH; rewrite ?Hsto; auto.
      * destruct Hrb as (i & sf & v & _ & _ & _ & _ & _ & _ & Hg & _).
        rewrite Hn in Hg. cbn [geb] in Hg. apply Z.leb_gt in Hg. lia.
Qed.

Lemma quietPage_quiet : quiet quietPage.
Proof. split; vm_compute; reflexivity. Qed.

Lemma quiet_runs_reload_within_budget_witness :
  let evs := (quietLife 0 ++ quietLife 1 ++ quietLife 2
              ++ EvStart quietPage :: repeat (EvTick 3%nat quietPage) 14)%list in
  let w := initialWorld emptyStorage in
  let w' := after evs w in
  sto_access (storage w) = Full
  /\ readLedger (storage w) = JInt 0
  /\ 0 <= 0
  /\ Forall quietEvent evs
  /\ run evs w = Some w'
  /\ expiries evs w = 4%nat
  /\ countIf isReload (trace w') = 3%nat
  /\ (let k := Z.min (Z.of_nat (expiries evs w)) (Z.max 0 (MAX_RELOADS - 0)) in
      Z.of_nat (countIf isReload (trace w'))
      = Z.of_nat (countIf isReload (trace w)) + k
      /\ Z.of_nat (countIf isSetItem (trace w'))
         = Z.of_nat (countIf isSetItem (trace w)) + k
      /\ readLedger (storage w') = JInt (0 + k)).
Proof.
  intros evs w w'.
  assert (H1 : sto_access (storage w) = Full) by reflexivity.
  assert (H3 : readLedger (storage w) = JInt 0) by reflexivity.
  assert (H4 : 0 <= 0) by lia.
  assert (H5 : Forall quietEvent evs).
  { unfold evs, quietLife. cbn [repeat app].
    repeat (constructor; [first [exact quietPage_quiet | exact I]|]).
    constructor. }
  assert (H6 : run evs w = Some w') by (vm_compute; reflexivity).
  do 7 (split; [assumption || (vm_compute; reflexivity)|]).
  exact (proj1 (quiet_runs_reload_within_budget w 0 H1 H3 H4) evs w' H5 H6).
Defined.

Lemma inst_newInstance i x w :
  (i < List.length (instances w))%nat ->
  inst i (setInstances (instances w ++ [x]) w) = inst i w.
Proof. intros H. unfold inst; cbn [instances setInstances]. now apply app_nth1. Qed.

Lemma inst_navigate i w :
  inst i (mkWorld (storage w) (map destroy (instances w)) 1 false (trace w))
  = destroy (inst i w).
Proof.
  unfold inst; cbn [instances].
  change noInstance with (destroy noInstance) at 1. apply map_nth.
Qed.

(** A latched instance stays latched, and its own callbacks do nothing
    but clear its timer and retire its watchdog. *)
Lemma resolved_step (w : World) (i : nat) (ev : Event) (w' : World) :
  resolved (inst i w) = true ->
  step ev w = Some w' ->
  resolved (inst i w') = true
  /\ (eventInstance ev = Some i ->
      trace w' = trace w
      /\ storage w' = storage w
      /\ pendingStarts w' = pendingStarts w
      /\ reloadRequested w' = reloadRequested w
      /\ observing (inst i w') = observing (inst i w)
      /\ (forall sf, ev = EvTick i sf -> timerOn (inst i w') = false)
      /\ (ev = EvWatchdog i -> watchdog (inst i w') = false)).
Proof.
  intros Hres. unfold step. destruct (enabled ev w) eqn:En; [|discriminate].
  intros [= <-].
  assert (Hi : (i < List.length (instances w))%nat)
    by (apply live_in_range; auto).
  destruct ev as [sf|j sf|j sf|j|]; cbn [enabled eventInstance] in *.
  - split; [|discriminate]. exec.
    destruct (located sf) as [[el|]|]; exec; auto.
    destruct (busy sf) as [[|]|]; exec; auto;
      destruct (sf_observeThrows sf); exec;
      rewrite inst_newInstance by in_range; insts; auto.
  - destruct (Nat.eq_dec j i) as [->|Hne].
    + exec. repeat split; intros; congruence.
    + split; [|congruence].
      assert (Hj : (j < List.length (instances w))%nat)
        by (apply live_in_range; auto).
      exec. destruct (resolved (inst j w)) eqn:Hr; exec; auto.
      destruct (located sf) as [[el|]|]; exec; auto.
  - destruct (Nat.eq_dec j i) as [->|Hne].
    + exec. repeat split; intros; try congruence; insts; reflexivity.
    + split; [|congruence].
      assert (Hj : (j < List.length (instances w))%nat)
        by (apply live_in_range; auto).
      exec. destruct (resolved (inst j w)) eqn:Hr; exec; auto.
      destruct (located sf) as [[el|]|]; exec; auto.
      destruct (INITIAL_WAIT_MS <=? elapsed (inst j w) + POLL_INTERVAL_MS);
        exec; auto.
      destruct (busy sf) as [[|]|]; exec; auto.
      destruct (geb (readLedger (storage w)) (JInt MAX_RELOADS)); exec; auto.
      destruct (sto_setThrows (storage w)); exec;
        destruct (sf_reloadThrows sf); exec; auto.
  - destruct (Nat.eq_dec j i) as [->|Hne].
    + exec.
      repeat split; intros; try congruence; insts; reflexivity.
    + split; [|congruence].
      assert (Hj : (j < List.length (instances w))%nat)
        by (apply live_in_range; auto).
      exec. destruct (resolved (inst j w)) eqn:Hr; exec; auto.
  - split; [|discriminate]. exec. rewrite inst_navigate.
    cbn [destroy resolved]. exact Hres.
Qed.

Lemma countIf_activation_emulateClick (el : Element) :
  countIf isActivation (effectsOf (emulateClick el)) = 1%nat.
Proof.
  unfold effectsOf, emulateClick.
  destruct el as [node m c dis sty cr br txt attrs href [|] [|] [[|]|]];
    reflexivity.
Qed.

(** The step that sets the latch of an instance: one of its two channels
    found a control; the observer is disconnected in the same callback (and
    the timer cleared when the interval found it), the control is activated
    once, and nothing is written, reloaded or scheduled. *)
Lemma latch_step (w : World) (i : nat) (ev : Event) (w' : World) :
  (i < List.length (instances w))%nat ->
  resolved (inst i w) = false ->
  step ev w = Some w' ->
  resolved (inst i w') = true ->
  (exists sf el,
      (ev = EvMutation i sf \/ ev = EvTick i sf)
      /\ located sf = Normal (Some el))
  /\ observing (inst i w') = false
  /\ (forall sf, ev = EvTick i sf -> timerOn (inst i w') = false)
  /\ watchdog (inst i w') = watchdog (inst i w)
  /\ countIf isActivation (trace w') = S (countIf isActivation (trace w))
  /\ storage w' = storage w
  /\ countIf isReload (trace w') = countIf isReload (trace w)
  /\ countIf isBackoff (trace w') = countIf isBackoff (trace w).
Proof.
  intros Hi Hres. unfold step. destruct (enabled ev w) eqn:En; [|discriminate].
  intros [= <-].
  destruct ev as [sf|j sf|j sf|j|]; cbn [enabled] in *.
  - exec. destruct (located sf) as [[el|]|]; exec; try congruence.
    destruct (busy sf) as [[|]|]; exec; try congruence;
      destruct (sf_observeThrows sf); exec;
      rewrite inst_newInstance by in_range; insts; congruence.
  - destruct (Nat.eq_dec j i) as [->|Hne].
    + exec. destruct (located sf) as [[el|]|] eqn:Hl; exec; try congruence.
      intros _. split; [exists sf, el; auto|].
      repeat split; try discriminate; try solve [fields; auto].
      all: counts; rewrite ?countIf_activation_emulateClick; lia.
    + assert (Hj : (j < List.length (instances w))%nat)
        by (apply live_in_range; auto).
      exec. destruct (resolved (inst j w)) eqn:Hr; exec; try congruence.
      destruct (located sf) as [[el|]|]; exec; congruence.
  - destruct (Nat.eq_dec j i) as [->|Hne].
    + exec. destruct (located sf) as [[el|]|] eqn:Hl; exec; try congruence.
      * intros _. split; [exists sf, el; auto|].
        repeat split; try solve [fields; auto].
        all: counts; rewrite ?countIf_activation_emulateClick; lia.
      * destruct (INITIAL_WAIT_MS <=? elapsed (inst i w) + POLL_INTERVAL_MS);
          exec; try congruence.
        destruct (busy sf) as [[|]|]; exec; try congruence.
        destruct (geb (readLedger (storage w)) (JInt MAX_RELOADS)); exec;
          try congruence.
        destruct (sto_setThrows (storage w)); exec;
          destruct (sf_reloadThrows sf); exec; congruence.
    + assert (Hj : (j < List.length (instances w))%nat)
        by (apply live_in_range; auto).
      exec. destruct (resolved (inst j w)) eqn:Hr; exec; try congruence.
      destruct (located sf) as [[el|]|]; exec; try congruence.
      destruct (INITIAL_WAIT_MS <=? elapsed (inst j w) + POLL_INTERVAL_MS);
        exec; try congruence.
      destruct (busy sf) as [[|]|]; exec; try congruence.
      destruct (geb (readLedger (storage w)) (JInt MAX_RELOADS)); exec;
        try congruence.
      destruct (sto_setThrows (storage w)); exec;
        destruct (sf_reloadThrows sf); exec; congruence.
  - destruct (Nat.eq_dec j i) as [->|Hne].
    + exec. congruence.
    + assert (Hj : (j < List.length (instances w))%nat)
        by (apply live_in_range; auto).
      exec. destruct (resolved (inst j w)) eqn:Hr; exec; congruence.
  - exec. rewrite inst_navigate. cbn [destroy resolved]. congruence.
Qed.

(** C4, as stated, fails: after the observer set the latch, the interval
    timer is still running (it clears itself at its next tick) and the
    watchdog timeout is still scheduled (it is never cancelled; it finds
    the latch set when it fires). *)
Lemma latch_cancels_timers_counterexample :
  run [EvStart quietPage; EvMutation 0%nat readyPage] (initialWorld emptyStorage)
  = Some resolvedByObserver
  /\ resolved (inst 0 resolvedByObserver) = true
  /\ timerOn (inst 0 resolvedByObserver) = true
  /\ watchdog (inst 0 resolvedByObserver) = true
  /\ enabled (EvTick 0%nat readyPage) resolvedByObserver = true
  /\ enabled (EvWatchdog 0%nat) resolvedByObserver = true.
Proof.
  repeat match goal with |- _ /\ _ => split end; vm_compute; reflexivity.
Qed.

(** C4 (amended): the step that sets the latch disconnects the observer,
    activates the control exactly once and neither writes the ledger, nor
    reloads, nor schedules a backoff (the interval timer is cleared in that
    step only when the interval itself found the control; the watchdog is
    left scheduled).  From then on the instance stays latched, and whatever
    callbacks of that instance still run - the next tick, which clears the
    timer, and the watchdog - leave the trace, the store, the scheduled
    starts and the reload request untouched: no reload, no backoff, no
    increment, no second activation. *)
Theorem resolution_is_final :
  (forall (w : World) (i : nat) (ev : Event) (w' : World),
      (i < List.length (instances w))%nat ->
      resolved (inst i w) = false ->
      step ev w = Some w' ->
      resolved (inst i w') = true ->
      observing (inst i w') = false
      /\ (forall sf, ev = EvTick i sf -> timerOn (inst i w') = false)
      /\ countIf isActivation (trace w') = S (countIf isActivation (trace w))
      /\ storage w' = storage w
      /\ countIf isReload (trace w') = countIf isReload (trace w)
      /\ countIf isBackoff (trace w') = countIf isBackoff (trace w))
  /\ (forall (w : World) (i : nat),
      resolved (inst i w) = true ->
      (forall ev w',
          step ev w = Some w' ->
          resolved (inst i w') = true
          /\ (eventInstance ev = Some i ->
              trace w' = trace w
              /\ storage w' = storage w
              /\ pendingStarts w' = pendingStarts w
              /\ reloadRequested w' = reloadRequested w
              /\ (forall sf, ev = EvTick i sf -> timerOn (inst i w') = false)))
      /\ (forall evs w',
          Forall (fun ev => eventInstance ev = Some i) evs ->
          run evs w = Some w' ->
          resolved (inst i w') = true
          /\ trace w' = trace w
          /\ storage w' = storage w
          /\ pendingStarts w' = pendingStarts w
          /\ reloadRequested w' = reloadRequested w)).
Proof.
  split.
  - intros w i ev w' Hi Hres Hs Hres'.
    destruct (latch_step w i ev w' Hi Hres Hs Hres')
      as (_ & Ho & Ht & _ & Ha & Hsto & Hr & Hb).
    auto 10.
  - intros w i Hres. split.
    + intros ev w' Hs.
      destruct (resolved_step w i ev w' Hres Hs) as [Hres' Hsil].
      split; [exact Hres'|]. intros He.
      destruct (Hsil He) as (H1 & H2 & H3 & H4 & _ & H6 & _). auto 10.
    + intros evs. revert w Hres.
      induction evs as [|ev evs IH]; intros w Hres w' Hall Hrun.
      * injection Hrun as <-. auto.
      * inversion Hall as [|? ? Hev Hevs]; subst.
        cbn [run] in Hrun.
        destruct (step ev w) as [w1|] eqn:Hs; [|discriminate].
        destruct (resolved_step w i ev w1 Hres Hs) as [Hres1 Hsil].
        destruct (Hsil Hev) as (H1 & H2 & H3 & H4 & _).
        destruct (IH w1 Hres1 w' Hevs Hrun) as (K0 & K1 & K2 & K3 & K4).
        rewrite K1, K2, K3, K4. auto.
Qed.

Lemma resolution_is_final_witness :
  let w0 := after [EvStart quietPage] (initialWorld emptyStorage) in
  let late := [EvTick 0%nat readyPage; EvWatchdog 0%nat] in
  let w' := after late resolvedByObserver in
  ((0 < List.length (instances w0))%nat
   /\ resolved (inst 0 w0) = false
   /\ step (EvMutation 0%nat readyPage) w0 = Some resolvedByObserver
   /\ resolved (inst 0 resolvedByObserver) = true
   /\ observing (inst 0 resolvedByObserver) = false
   /\ countIf isActivation (trace resolvedByObserver)
      = S (countIf isActivation (trace w0)))
  /\ (Forall (fun ev => eventInstance ev = Some 0%nat) late
      /\ run late resolvedByObserver = Some w'
      /\ resolved (inst 0 w') = true
      /\ trace w' = trace resolvedByObserver
      /\ storage w' = storage resolvedByObserver
      /\ pendingStarts w' = pendingStarts resolvedByObserver
      /\ reloadRequested w' = reloadRequested resolvedByObserver).
Proof.
  intros w0 late w'.
  assert (H1 : (0 < List.length (instances w0))%nat) by (vm_compute; lia).
  assert (H2 : resolved (inst 0 w0) = false) by (vm_compute; reflexivity).
  assert (H3 : step (EvMutation 0%nat readyPage) w0 = Some resolvedByObserver)
    by (vm_compute; reflexivity).
  assert (H4 : resolved (inst 0 resolvedByObserver) = true)
    by (vm_compute; reflexivity).
  assert (H5 : Forall (fun ev => eventInstance ev = Some 0%nat) late)
    by (repeat constructor).
  assert (H6 : run late resolvedByObserver = Some w')
    by (vm_compute; reflexivity).
  destruct (proj1 resolution_is_final w0 0%nat _ _ H1 H2 H3 H4)
    as (K1 & _ & K3 & _).
  pose proof (proj2 (proj2 resolution_is_final resolvedByObserver 0%nat H4)
                late w' H5 H6) as K.
  split.
  - do 4 (split; [assumption|]). split; assumption.
  - do 2 (split; [assumption|]). exact K.
Defined.

Lemma stopped_disabled (i : nat) (w : World) (ev : Event) :
  stopped i w -> eventInstance ev = Some i -> enabled ev w = false.
Proof.
  intros (_ & Ho & Ht & Hw) He.
  destruct ev; cbn [eventInstance] in He; try discriminate;
    injection He as ->; cbn [enabled]; assumption.
Qed.

Lemma stopped_step (i : nat) (ev : Event) (w w' : World) :
  stopped i w -> step ev w = Some w' -> stopped i w'.
Proof.
  intros (Hi & Ho & Ht & Hw). unfold step, stopped.
  destruct (enabled ev w) eqn:En; [|discriminate]. intros [= <-].
  destruct ev as [sf|j sf|j sf|j|]; cbn [enabled] in *.
  - exec. destruct (located sf) as [[el|]|]; exec; auto.
    destruct (busy sf) as [[|]|]; exec; auto;
      destruct (sf_observeThrows sf); exec;
      rewrite inst_newInstance by in_range; insts;
      (split; [fields; rewrite length_app; cbn; lia | auto]).
  - assert (Hne : j <> i) by congruence.
    assert (Hj : (j < List.length (instances w))%nat)
      by (apply live_in_range; auto).
    exec. destruct (resolved (inst j w)) eqn:Hr; exec; auto.
    destruct (located sf) as [[el|]|]; exec; auto.
    split; [in_range | auto].
  - assert (Hne : j <> i) by congruence.
    assert (Hj : (j < List.length (instances w))%nat)
      by (apply live_in_range; auto).
    exec. destruct (resolved (inst j w)) eqn:Hr; exec;
      [split; [in_range | auto]|].
    destruct (located sf) as [[el|]|]; exec; try (split; [in_range | auto]).
    destruct (INITIAL_WAIT_MS <=? elapsed (inst j w) + POLL_INTERVAL_MS);
      exec; try (split; [in_range | auto]).
    destruct (busy sf) as [[|]|]; exec; try (split; [in_range | auto]).
    destruct (geb (readLedger (storage w)) (JInt MAX_RELOADS)); exec;
      try (split; [in_range | auto]).
    destruct (sto_setThrows (storage w)); exec;
      destruct (sf_reloadThrows sf); exec; (split; [in_range | auto]).
  - assert (Hne : j <> i) by congruence.
    assert (Hj : (j < List.length (instances w))%nat)
      by (apply live_in_range; auto).
    exec. destruct (resolved (inst j w)) eqn:Hr; exec;
      (split; [in_range | auto]).
  - exec. rewrite inst_navigate. cbn [destroy observing timerOn watchdog].
    split; [fields; now rewrite length_map | auto].
Qed.

Lemma stopped_run (i : nat) (evs : list Event) (w w' : World) :
  stopped i w -> run evs w = Some w' -> stopped i w'.
Proof.
  revert w. induction evs as [|ev evs IH]; intros w Hst Hrun.
  - now injection Hrun as <-.
  - cbn [run] in Hrun. destruct (step ev w) as [w1|] eqn:Hs; [|discriminate].
    exact (IH w1 (stopped_step i ev w w1 Hst Hs) Hrun).
Qed.

(** What an activation of [startAutoDl] leaves behind. *)
Lemma start_step (w : World) (sf : Surface) (w' : World) :
  step (EvStart sf) w = Some w' ->
  match located sf, busy sf with
  | Normal None, Normal _ =>
      instances w' =
      (instances w ++ [mkInstance false (negb (sf_observeThrows sf)) true 0 true])%list
  | _, _ => instances w' = instances w
  end.
Proof.
  unfold step. destruct (enabled (EvStart sf) w); [|discriminate].
  intros [= <-]. exec.
  destruct (located sf) as [[el|]|]; exec; try reflexivity.
  destruct (busy sf) as [[|]|]; exec; try reflexivity;
    destruct (sf_observeThrows sf); exec; reflexivity.
Qed.

(** What the watchdog does when it fires with the latch unset. *)
Lemma watchdog_step (w : World) (i : nat) (w' : World) :
  resolved (inst i w) = false ->
  step (EvWatchdog i) w = Some w' ->
  stopped i w'
  /\ resolved (inst i w') = false
  /\ (forall j, j <> i -> inst j w' = inst j w)
  /\ pendingStarts w' = pendingStarts w
  /\ storage w' = storage w
  /\ reloadRequested w' = reloadRequested w
  /\ trace w' = (trace w ++ [Console Debug ObserverTimeout])%list.
Proof.
  intros Hres. unfold step, stopped. cbn [enabled].
  destruct (watchdog (inst i w)) eqn:Hw; [|discriminate]. intros [= <-].
  assert (Hi : (i < List.length (instances w))%nat)
    by (apply live_in_range; auto).
  exec. repeat split; try solve [in_range | fields; auto].
  intros j Hne. assert (Hne' : i <> j) by congruence. insts. reflexivity.
Qed.

(** C5, as stated, fails: when the watchdog of the first instance fires
    with its latch unset, the instance created by the second backoff
    re-entry keeps its observer and its interval timer, and each re-entry
    started a watchdog of its own. *)
Lemma watchdog_stops_everything_counterexample :
  let w' := after busyReentries (initialWorld emptyStorage) in
  run busyReentries (initialWorld emptyStorage) = Some w'
  /\ resolved (inst 0 w') = false
  /\ watchdog (inst 0 w') = false
  /\ timerOn (inst 2 w') = true
  /\ observing (inst 2 w') = true
  /\ enabled (EvTick 2%nat busyPage) w' = true
  /\ watchdog (inst 1 w') = true
  /\ watchdog (inst 2 w') = true.
Proof.
  intros w'.
  repeat match goal with |- _ /\ _ => split end; vm_compute; reflexivity.
Qed.

(** C5 (amended): every activation of [startAutoDl] that goes on to watch
    creates one closure with one watchdog of its own, and an activation
    that finds the control at once creates none.  When a watchdog fires
    with the latch of its instance unset, it disconnects the observer and
    clears the interval timer of that instance, whatever the instance was
    doing, and from then on no callback of that instance can ever run; it
    leaves the other instances, the scheduled backoff re-entries, the store
    and the reload request as they are. *)
Theorem watchdog_stops_its_own_instance :
  (forall (w : World) (sf : Surface) (w' : World),
      step (EvStart sf) w = Some w' ->
      match located sf, busy sf with
      | Normal None, Normal _ =>
          instances w' =
          (instances w
           ++ [mkInstance false (negb (sf_observeThrows sf)) true 0 true])%list
      | _, _ => instances w' = instances w
      end)
  /\ (forall (w : World) (i : nat) (w' : World),
      resolved (inst i w) = false ->
      step (EvWatchdog i) w = Some w' ->
      stopped i w'
      /\ (forall j, j <> i -> inst j w' = inst j w)
      /\ pendingStarts w' = pendingStarts w
      /\ storage w' = storage w
      /\ reloadRequested w' = reloadRequested w
      /\ (forall evs w'',
          run evs w' = Some w'' ->
          stopped i w''
          /\ forall ev, eventInstance ev = Some i -> enabled ev w'' = false)).
Proof.
  split.
  - exact start_step.
  - intros w i w' Hres Hs.
    destruct (watchdog_step w i w' Hres Hs)
      as (Hst & _ & Hoth & Hp & Hsto & Hrr & _).
    split; [exact Hst|]. split; [exact Hoth|]. split; [exact Hp|].
    split; [exact Hsto|]. split; [exact Hrr|].
    intros evs w'' Hrun.
    pose proof (stopped_run i evs w' w'' Hst Hrun) as Hst''.
    split; [exact Hst''|].
    intros ev He. exact (stopped_disabled i w'' ev Hst'' He).
Qed.

Lemma watchdog_stops_its_own_instance_witness :
  let w := after [EvStart quietPage; EvTick 0%nat quietPage]
                 (initialWorld emptyStorage) in
  let w' := after [EvWatchdog 0%nat] w in
  resolved (inst 0 w) = false
  /\ step (EvWatchdog 0%nat) w = Some w'
  /\ timerOn (inst 0 w) = true
  /\ stopped 0 w'
  /\ pendingStarts w' = pendingStarts w
  /\ storage w' = storage w.
Proof.
  intros w w'.
  assert (H1 : resolved (inst 0 w) = false) by (vm_compute; reflexivity).
  assert (H2 : step (EvWatchdog 0%nat) w = Some w') by (vm_compute; reflexivity).
  destruct (proj2 watchdog_stops_its_own_instance w 0%nat w' H1 H2)
    as (K1 & _ & K3 & K4 & _).
  do 2 (split; [assumption|]). split; [vm_compute; reflexivity|].
  split; [exact K1|]. split; assumption.
Defined.

(* ================================================================== *)
(** * The backoff delay *)
(* ================================================================== *)





(* ================================================================== *)
(** * Further properties: locator, element checks, activation *)
(* ================================================================== *)

Lemma find_filter {A} (f g : A -> bool) (l : list A) :
  find f (filter g l) = find (fun x => g x && f x) l.
Proof.
  induction l as [|a l IH]; [reflexivity|].
  cbn [filter find]. destruct (g a); cbn [find andb]; rewrite IH; reflexivity.
Qed.

Lemma find_in_filter {A} (f g : A -> bool) (l : list A) (x : A) :
  find f (filter g l) = Some x -> In x l /\ g x = true /\ f x = true.
Proof.
  intros H. apply find_some in H as [Hin Hf].
  apply filter_In in Hin as [Hin Hg]. auto.
Qed.

Lemma firstSpecificHit_in (sf : Surface) (sels : list string) s n :
  firstSpecificHit sf sels = Some (s, n) ->
  In s sels /\ In n (sf_elements sf) /\ el_matches n s = true /\ passes sf n = true.
Proof.
  intros H. destruct (firstSpecificHit_sound sf sels s n H)
    as (pre & post & -> & _ & Hq & Hp).
  split; [apply in_or_app; right; left; reflexivity|].
  unfold querySelector in Hq.
  destruct (sf_selectorThrows sf s); [discriminate|].
  injection Hq as Hq. apply find_some in Hq as [Hin Hm]. auto.
Qed.

Lemma fileHrefFallback_sound (sf : Surface) (w : World) (r : Element) :
  fst (fileHrefFallback sf w) = Normal (Some r) ->
  In r (sf_elements sf) /\ isVisibleAndInteractable sf r = true
  /\ el_matches r "a[href]" = true
  /\ Re.HREF_FILE_EXT_RE (el_href r) = true.
Proof.
  unfold fileHrefFallback, bind, lift, console, emit, ret, querySelectorAll.
  destruct (sf_selectorThrows sf "a[href]"); [discriminate|].
  destruct (find _ (filter _ (sf_elements sf))) as [a|] eqn:Ha;
    cbn [fst]; [|discriminate].
  intros [= <-].
  apply find_in_filter in Ha as (Hin & Hm & Hp).
  apply andb_true_iff in Hp as [Hx Hv]. auto.
Qed.

(** X1: whatever [findDownloadControl] returns is an element of the
    document that passed the visibility and interactability check, and
    that qualified in one of the four ways the tiers accept. *)
Theorem located_element_is_sound :
  forall (sf : Surface) (e : Element),
    located sf = Normal (Some e) ->
    In e (sf_elements sf)
    /\ isVisibleAndInteractable sf e = true
    /\ qualifies e.
Proof.
  intros sf e. unfold located, resultOf, findDownloadControl,
    findDownloadControlWith, bind, lift, console, emit, ret, qualifies.
  rewrite trySpecific_eq.
  destruct (firstSpecificHit sf specificSelectors) as [[s n]|] eqn:Hhit.
  - cbn [fst]. intros [= <-].
    destruct (firstSpecificHit_in sf _ s n Hhit) as (Hs & Hin & Hm & Hp).
    unfold passes in Hp. apply andb_true_iff in Hp as [Hv Hl].
    split; [exact Hin|]. split; [exact Hv|]. left. split; [|exact Hl].
    apply existsb_exists. exists s. auto.
  - unfold querySelectorAll, querySelector.
    destruct (sf_selectorThrows sf SEL_CLICKABLE); [discriminate|].
    destruct (find _ (filter _ (sf_elements sf))) as [c|] eqn:Hc.
    + cbn [fst]. intros [= <-].
      apply find_in_filter in Hc as (Hin & Hm & Hp).
      apply andb_true_iff in Hp as [Hl Hv]. auto 6.
    + destruct (sf_selectorThrows sf "[download]"); [discriminate|].
      destruct (find (fun e0 => el_matches e0 "[download]") (sf_elements sf))
        as [d|] eqn:Hd.
      * destruct (isVisibleAndInteractable sf d) eqn:Hv.
        -- cbn [fst]. intros [= <-].
           apply find_some in Hd as [Hin Hm]. auto 6.
        -- intros H.
           destruct (fileHrefFallback_sound sf _ e H) as (Hin & Hv' & Hm & Hx).
           auto 8.
      * intros H.
        destruct (fileHrefFallback_sound sf _ e H) as (Hin & Hv' & Hm & Hx).
        auto 8.
Qed.

Lemma located_element_is_sound_witness :
  located readyPage = Normal (Some downloadButton)
  /\ In downloadButton (sf_elements readyPage)
  /\ isVisibleAndInteractable readyPage downloadButton = true
  /\ qualifies downloadButton.
Proof.
  assert (H : located readyPage = Normal (Some downloadButton))
    by (vm_compute; reflexivity).
  split; [exact H|].
  exact (located_element_is_sound readyPage downloadButton H).
Defined.

(** X2: the locator never misses a qualifying clickable element: when an
    element of the document matches the clickable selector, looks like a
    download and is visible, and the clickable query does not raise, the
    locator returns a candidate; when no specific selector hit, it is the
    first such element in document order. *)
Theorem qualifying_clickable_is_found :
  forall (sf : Surface) (e : Element),
    sf_selectorThrows sf SEL_CLICKABLE = false ->
    In e (sf_elements sf) ->
    el_matches e SEL_CLICKABLE = true ->
    looksLikeDownload e = true ->
    isVisibleAndInteractable sf e = true ->
    exists e',
      located sf = Normal (Some e')
      /\ (firstSpecificHit sf specificSelectors = None ->
          find (fun c => el_matches c SEL_CLICKABLE
                         && (looksLikeDownload c && isVisibleAndInteractable sf c))
               (sf_elements sf) = Some e').
Proof.
  intros sf e Hthrow Hin Hm Hl Hv.
  unfold located, resultOf, findDownloadControl, findDownloadControlWith,
    bind, lift, console, emit, ret.
  rewrite trySpecific_eq.
  destruct (firstSpecificHit sf specificSelectors) as [[s n]|] eqn:Hhit.
  - exists n. split; [reflexivity|discriminate].
  - unfold querySelectorAll. rewrite Hthrow, find_filter.
    destruct (find _ (sf_elements sf)) as [c|] eqn:Hc.
    + exists c. split; [reflexivity|]. intros _. reflexivity.
    + pose proof (find_none _ _ Hc e Hin) as Hno. cbv beta in Hno.
      rewrite Hm, Hl, Hv in Hno. discriminate.
Qed.

Lemma qualifying_clickable_is_found_witness :
  sf_selectorThrows mixedPage SEL_CLICKABLE = false
  /\ In downloadButton (sf_elements mixedPage)
  /\ el_matches downloadButton SEL_CLICKABLE = true
  /\ looksLikeDownload downloadButton = true
  /\ isVisibleAndInteractable mixedPage downloadButton = true
  /\ exists e',
      located mixedPage = Normal (Some e')
      /\ (firstSpecificHit mixedPage specificSelectors = None ->
          find (fun c => el_matches c SEL_CLICKABLE
                         && (looksLikeDownload c
                             && isVisibleAndInteractable mixedPage c))
               (sf_elements mixedPage) = Some e').
Proof.
  assert (H1 : sf_selectorThrows mixedPage SEL_CLICKABLE = false) by reflexivity.
  assert (H2 : In downloadButton (sf_elements mixedPage)) by (simpl; auto).
  assert (H3 : el_matches downloadButton SEL_CLICKABLE = true) by reflexivity.
  assert (H4 : looksLikeDownload downloadButton = true) by reflexivity.
  assert (H5 : isVisibleAndInteractable mixedPage downloadButton = true)
    by reflexivity.
  do 5 (split; [assumption|]).
  exact (qualifying_clickable_is_found mixedPage downloadButton H1 H2 H3 H4 H5).
Defined.

(** X3: [isVisibleAndInteractable] answers [true] exactly when the element
    is not disabled, its style (when it can be computed) is neither
    [display: none], nor [visibility: hidden], nor of zero opacity, it has a
    client rect, its box has non-zero width and height, the box reaches
    into the vertical range of the viewport, and it has no [aria-hidden]
    ancestor.  In particular no failure of the style query can make a
    disabled, empty, off-screen or [aria-hidden] element pass. *)
Theorem visible_iff_checks :
  forall (sf : Surface) (el : Element),
    isVisibleAndInteractable sf el = true
    <-> (el_disabled el = false
         /\ (forall st, el_computedStyle el = Normal (Some st) ->
                        st_display st <> "none"
                        /\ st_visibility st <> "hidden"
                        /\ st_opacityIsZero st = false)
         /\ el_clientRects el <> 0%nat
         /\ r_width (el_boundingRect el) <> 0
         /\ r_height (el_boundingRect el) <> 0
         /\ 0 <= r_bottom (el_boundingRect el)
         /\ r_top (el_boundingRect el) <= viewportHeight sf
         /\ el_closest el SEL_ARIA_HIDDEN = false).
Proof.
  intros sf el.
  assert (G : geometryVisible sf el = true
              <-> (el_clientRects el <> 0%nat
                   /\ r_width (el_boundingRect el) <> 0
                   /\ r_height (el_boundingRect el) <> 0
                   /\ 0 <= r_bottom (el_boundingRect el)
                   /\ r_top (el_boundingRect el) <= viewportHeight sf
                   /\ el_closest el SEL_ARIA_HIDDEN = false)).
  { unfold geometryVisible, viewportHeight.
    destruct (Nat.eqb_spec (el_clientRects el) 0);
      [split; [discriminate | intros (K & _); contradiction]|].
    destruct (Z.eqb_spec (r_width (el_boundingRect el)) 0); cbn [orb];
      [split; [discriminate | intros (_ & K & _); contradiction]|].
    destruct (Z.eqb_spec (r_height (el_boundingRect el)) 0);
      [split; [discriminate | intros (_ & _ & K & _); contradiction]|].
    destruct (Z.leb_spec 0 (r_bottom (el_boundingRect el))); cbn [andb negb];
      [|split; [discriminate | intros (_ & _ & _ & K & _); lia]].
    destruct (Z.leb_spec (r_top (el_boundingRect el))
                (if sf_innerHeight sf =? 0 then sf_clientHeight sf
                 else sf_innerHeight sf)); cbn [negb];
      [|split; [discriminate | intros (_ & _ & _ & _ & K & _); lia]].
    destruct (el_closest el SEL_ARIA_HIDDEN);
      [split; [discriminate | intros (_ & _ & _ & _ & _ & K); discriminate]|].
    split; auto 8. }
  assert (S : forall st, styleHidden st = false
                         <-> (st_display st <> "none"
                              /\ st_visibility st <> "hidden"
                              /\ st_opacityIsZero st = false)).
  { intros st. unfold styleHidden.
    destruct (String.eqb_spec (st_display st) "none");
      destruct (String.eqb_spec (st_visibility st) "hidden");
      destruct (st_opacityIsZero st); cbn [orb];
      split; try discriminate; try (intros (A & B & C); congruence); auto. }
  unfold isVisibleAndInteractable.
  destruct (el_disabled el);
    [split; [discriminate | intros (H & _); discriminate]|].
  destruct (el_computedStyle el) as [[st|]|].
  - destruct (styleHidden st) eqn:Hs.
    + split; [discriminate|]. intros (_ & Hst & _).
      pose proof (proj2 (S st) (Hst st eq_refl)). congruence.
    + rewrite G. split.
      * intros Hg. split; [reflexivity|]. split; [|exact Hg].
        intros st' [= <-]. now apply S.
      * intros (_ & _ & Hg). exact Hg.
  - rewrite G. split.
    + intros Hg. split; [reflexivity|]. split; [discriminate|exact Hg].
    + intros (_ & _ & Hg). exact Hg.
  - rewrite G. split.
    + intros Hg. split; [reflexivity|]. split; [discriminate|exact Hg].
    + intros (_ & _ & Hg). exact Hg.
Qed.

Lemma visible_iff_checks_witness :
  isVisibleAndInteractable readyPage unstyledButton = true
  /\ el_disabled unstyledButton = false
  /\ el_clientRects unstyledButton <> 0%nat
  /\ el_closest unstyledButton SEL_ARIA_HIDDEN = false.
Proof.
  assert (H : isVisibleAndInteractable readyPage unstyledButton = true)
    by reflexivity.
  split; [exact H|].
  destruct (proj1 (visible_iff_checks readyPage unstyledButton) H)
    as (H1 & _ & H3 & _ & _ & _ & _ & H8).
  auto.
Defined.

(** X4: [emulateClick] never raises and touches nothing but the page and
    the console.  When neither [scrollIntoView] nor [dispatchEvent] raise
    it makes the full sequence - scroll, then [pointerdown], [mousedown],
    [click], [mouseup], then the native [click] when that is a function and
    does not raise - and reports success even when the native [click]
    raised; when [scrollIntoView] raises nothing is dispatched, and when
    [dispatchEvent] raises nothing is dispatched after the scroll; both
    failures are only logged. *)
Theorem emulateClick_best_effort :
  forall (el : Element) (w : World),
    exists l,
      emulateClick el w = (Normal tt, addTrace l w)
      /\ (el_scrollThrows el = false -> el_dispatchThrows el = false ->
          l = activationEvents (el_node el)
                (match el_click el with Some false => true | _ => false end))
      /\ (el_scrollThrows el = true ->
          l = [Console Info (EmulatingClick (el_node el));
               Console Error ClickFailed])
      /\ (el_scrollThrows el = false -> el_dispatchThrows el = true ->
          l = [Console Info (EmulatingClick (el_node el));
               ScrollIntoView (el_node el);
               Console Error ClickFailed]).
Proof.
  intros el w. rewrite emulateClick_eq, emulateClick_normal.
  exists (effectsOf (emulateClick el)). split; [reflexivity|].
  unfold effectsOf, emulateClick.
  destruct el as [node m c dis sty cr br txt attrs href [|] [|] [[|]|]];
    cbn [el_scrollThrows el_dispatchThrows el_click el_node];
    repeat split; intros; try discriminate; reflexivity.
Qed.

Lemma emulateClick_best_effort_witness :
  el_scrollThrows stuckButton = true
  /\ el_scrollThrows downloadButton = false
  /\ el_dispatchThrows downloadButton = false
  /\ emulateClick stuckButton emptyWorld
     = (Normal tt, addTrace [Console Info (EmulatingClick 6);
                             Console Error ClickFailed] emptyWorld)
  /\ emulateClick downloadButton emptyWorld
     = (Normal tt, addTrace (activationEvents 3 true) emptyWorld).
Proof.
  destruct (emulateClick_best_effort stuckButton emptyWorld)
    as (l1 & E1 & _ & S1 & _).
  destruct (emulateClick_best_effort downloadButton emptyWorld)
    as (l2 & E2 & S2 & _).
  assert (H1 : el_scrollThrows stuckButton = true) by reflexivity.
  assert (H2 : el_scrollThrows downloadButton = false) by reflexivity.
  assert (H3 : el_dispatchThrows downloadButton = false) by reflexivity.
  do 3 (split; [assumption|]).
  rewrite (S1 H1) in E1. rewrite (S2 H2 H3) in E2.
  split; [exact E1 | exact E2].
Defined.

(* ================================================================== *)
(** * Further properties: the vocabulary *)
(* ================================================================== *)

Lemma downloadFrom_altFrom (prev : option ascii) (s : string) :
  Re.downloadFrom prev s = altFrom Re.DOWNLOAD_ALTS prev s.
Proof.
  revert prev. induction s as [|c r IH]; intros prev; [reflexivity|].
  cbn [Re.downloadFrom altFrom]. now rewrite IH.
Qed.

Lemma consume_app (ci : bool) (p1 p2 : string) (prev : option ascii) (s : string) :
  Re.consume ci (p1 ++ p2) prev s =
  match Re.consume ci p1 prev s with
  | Some (l1, mid) => Re.consume ci p2 l1 mid
  | None => None
  end.
Proof.
  revert prev s. induction p1 as [|a p1 IH]; intros prev s; [reflexivity|].
  cbn [append Re.consume]. destruct s as [|c r]; [reflexivity|].
  destruct (if ci then Re.eqCI a c else Ascii.eqb a c); [apply IH | reflexivity].
Qed.

Lemma eqCI_d_word (c : ascii) : Re.eqCI "d" c = true -> Re.isWordChar c = true.
Proof.
  destruct c as [[] [] [] [] [] [] [] []]; vm_compute; intros H;
    reflexivity || discriminate H.
Qed.

Lemma eqCI_space (c : ascii) : Re.eqCI " " c = true -> Re.isWordChar c = false.
Proof.
  destruct c as [[] [] [] [] [] [] [] []]; vm_compute; intros H;
    reflexivity || discriminate H.
Qed.

(** After [download] comes a word boundary as soon as a space follows. *)
Lemma download_then_space (rest : string) (prev : option ascii) (s : string) :
  Re.consume true ("download" ++ String " " rest) prev s <> None ->
  match Re.consume true "download" prev s with
  | Some (last, mid) => Re.wordBoundary last (Re.head mid) = true
  | None => False
  end.
Proof.
  rewrite consume_app.
  change "download" with ("downloa" ++ "d"). rewrite consume_app.
  destruct (Re.consume true "downloa" prev s) as [[l0 m0]|]; [|congruence].
  cbn [Re.consume].
  destruct m0 as [|c m]; [congruence|].
  destruct (Re.eqCI "d" c) eqn:Hd; [|congruence].
  destruct m as [|c' m']; [congruence|].
  destruct (Re.eqCI " " c') eqn:Hs; [|congruence].
  intros _. unfold Re.wordBoundary. cbn [Re.isWord Re.head].
  now rewrite (eqCI_d_word c Hd), (eqCI_space c' Hs).
Qed.

Lemma altAt_reduced (prev : option ascii) (s : string) :
  altAt Re.DOWNLOAD_ALTS prev s = altAt ["download"; "get file"] prev s.
Proof.
  unfold altAt, Re.DOWNLOAD_ALTS. f_equal. cbn [existsb].
  pose proof (download_then_space "file" prev s) as H1.
  pose proof (download_then_space "all files" prev s) as H2.
  pose proof (download_then_space "files" prev s) as H3.
  cbn [append] in H1, H2, H3.
  destruct (Re.consume true "download" prev s) as [[l m]|].
  - destruct (Re.wordBoundary l (Re.head m)) eqn:Hb; [reflexivity|].
    destruct (Re.consume true "download file" prev s) as [[? ?]|];
      [exfalso; specialize (H1 ltac:(discriminate)); congruence|].
    destruct (Re.consume true "download all files" prev s) as [[? ?]|];
      [exfalso; specialize (H2 ltac:(discriminate)); congruence|].
    destruct (Re.consume true "download files" prev s) as [[? ?]|];
      [exfalso; specialize (H3 ltac:(discriminate)); congruence|].
    reflexivity.
  - destruct (Re.consume true "download file" prev s) as [[? ?]|];
      [exfalso; exact (H1 ltac:(discriminate))|].
    destruct (Re.consume true "download all files" prev s) as [[? ?]|];
      [exfalso; exact (H2 ltac:(discriminate))|].
    destruct (Re.consume true "download files" prev s) as [[? ?]|];
      [exfalso; exact (H3 ltac:(discriminate))|].
    reflexivity.
Qed.

(** X5: of the five alternatives of [DOWNLOAD_TEXT_RE] only [download] and
    [get file] matter: wherever [download file], [download all files] or
    [download files] matches, [download] followed by the word boundary
    before the space already does. *)
Theorem DOWNLOAD_TEXT_RE_two_alternatives :
  forall (s : string),
    Re.DOWNLOAD_TEXT_RE s = altFrom ["download"; "get file"] None s.
Proof.
  intros s. unfold Re.DOWNLOAD_TEXT_RE. rewrite downloadFrom_altFrom.
  generalize (@None ascii) as prev.
  induction s as [|c r IH]; intros prev; cbn [altFrom];
    rewrite altAt_reduced; [reflexivity|]. now rewrite IH.
Qed.
Lemma lower_idem (c : ascii) : Re.lower (Re.lower c) = Re.lower c.
Proof. destruct c as [[] [] [] [] [] [] [] []]; reflexivity. Qed.

Lemma isWordChar_lower (c : ascii) : Re.isWordChar (Re.lower c) = Re.isWordChar c.
Proof. destruct c as [[] [] [] [] [] [] [] []]; reflexivity. Qed.

Lemma eqCI_lower (a c : ascii) : Re.eqCI a (Re.lower c) = Re.eqCI a c.
Proof. unfold Re.eqCI. now rewrite lower_idem. Qed.

Lemma isWord_lower (c : option ascii) :
  Re.isWord (option_map Re.lower c) = Re.isWord c.
Proof. destruct c; [apply isWordChar_lower | reflexivity]. Qed.

Lemma wordBoundary_lower (a b : option ascii) :
  Re.wordBoundary (option_map Re.lower a) (option_map Re.lower b)
  = Re.wordBoundary a b.
Proof. unfold Re.wordBoundary. now rewrite !isWord_lower. Qed.

Lemma head_lowerString (s : string) :
  Re.head (lowerString s) = option_map Re.lower (Re.head s).
Proof. destruct s; reflexivity. Qed.

Lemma consume_lowerString (p : string) (prev : option ascii) (s : string) :
  Re.consume true p (option_map Re.lower prev) (lowerString s) =
  match Re.consume true p prev s with
  | Some (l, r) => Some (option_map Re.lower l, lowerString r)
  | None => None
  end.
Proof.
  revert prev s. induction p as [|a p IH]; intros prev s; [reflexivity|].
  destruct s as [|c r]; [reflexivity|].
  cbn [lowerString Re.consume]. rewrite eqCI_lower.
  destruct (Re.eqCI a c); [|reflexivity].
  exact (IH (Some c) r).
Qed.

Lemma existsb_same {A} (f g : A -> bool) (l : list A) :
  (forall a, f a = g a) -> existsb f l = existsb g l.
Proof.
  intros H. induction l as [|a l IH]; [reflexivity|].
  cbn [existsb]. now rewrite H, IH.
Qed.

Lemma downloadAt_lowerString (prev : option ascii) (s : string) :
  Re.downloadAt (option_map Re.lower prev) (lowerString s) = Re.downloadAt prev s.
Proof.
  unfold Re.downloadAt. rewrite head_lowerString, wordBoundary_lower.
  f_equal. apply existsb_same. intros alt. rewrite consume_lowerString.
  destruct (Re.consume true alt prev s) as [[l r]|]; [|reflexivity].
  now rewrite head_lowerString, wordBoundary_lower.
Qed.

Lemma downloadFrom_lowerString (prev : option ascii) (s : string) :
  Re.downloadFrom (option_map Re.lower prev) (lowerString s)
  = Re.downloadFrom prev s.
Proof.
  revert prev. induction s as [|c r IH]; intros prev.
  - cbn [lowerString Re.downloadFrom].
    now rewrite <- (downloadAt_lowerString prev EmptyString).
  - cbn [lowerString Re.downloadFrom].
    rewrite <- (IH (Some c)).
    now rewrite <- (downloadAt_lowerString prev (String c r)).
Qed.

Lemma contains_lowerString (t s : string) :
  Re.contains true t (lowerString s) = Re.contains true t s.
Proof.
  induction s as [|c r IH].
  - reflexivity.
  - cbn [lowerString Re.contains].
    pose proof (consume_lowerString t None (String c r)) as H.
    cbn [option_map lowerString] in H. rewrite H.
    destruct (Re.consume true t None (String c r)) as [[l m]|];
      [reflexivity | exact IH].
Qed.

(** The end of the input or a question mark: [(\?|$)]. *)
Lemma endOrQuery_lowerString (A : Type) (x y : A) (r : string) :
  match lowerString r with
  | EmptyString => x
  | String "?"%char _ => x
  | _ => y
  end =
  match r with
  | EmptyString => x
  | String "?"%char _ => x
  | _ => y
  end.
Proof.
  destruct r as [|c r]; [reflexivity|].
  destruct c as [[] [] [] [] [] [] [] []]; reflexivity.
Qed.

Lemma fileExtAt_lowerString (s : string) :
  Re.fileExtAt (lowerString s) = Re.fileExtAt s.
Proof.
  destruct s as [|c r]; [reflexivity|].
  destruct c as [[] [] [] [] [] [] [] []]; try reflexivity.
  cbn [lowerString]. change (Re.lower ".") with "."%char.
  unfold Re.fileExtAt. apply existsb_same. intros ext.
  pose proof (consume_lowerString ext None r) as H.
  cbn [option_map] in H. rewrite H.
  destruct (Re.consume true ext None r) as [[l m]|]; [|reflexivity].
  apply endOrQuery_lowerString.
Qed.

Lemma HREF_FILE_EXT_RE_lowerString (s : string) :
  Re.HREF_FILE_EXT_RE (lowerString s) = Re.HREF_FILE_EXT_RE s.
Proof.
  induction s as [|c r IH]; [reflexivity|].
  change (lowerString (String c r)) with (String (Re.lower c) (lowerString r)).
  cbn [Re.HREF_FILE_EXT_RE]. rewrite IH.
  change (String (Re.lower c) (lowerString r)) with (lowerString (String c r)).
  now rewrite fileExtAt_lowerString.
Qed.

(** X6: the three patterns of the script ignore the case of ASCII letters:
    each gives the same answer on a string and on its lower-case form. *)
Theorem patterns_ignore_case :
  forall (s : string),
    Re.DOWNLOAD_TEXT_RE (lowerString s) = Re.DOWNLOAD_TEXT_RE s
    /\ Re.HREF_FILE_EXT_RE (lowerString s) = Re.HREF_FILE_EXT_RE s
    /\ Re.DOWNLOAD_RE (lowerString s) = Re.DOWNLOAD_RE s.
Proof.
  intros s. split; [|split].
  - exact (downloadFrom_lowerString None s).
  - apply HREF_FILE_EXT_RE_lowerString.
  - apply contains_lowerString.
Qed.
Lemma consume_exact (t : string) (prev l : option ascii) (s r : string) :
  Re.consume false t prev s = Some (l, r) -> s = t ++ r.
Proof.
  revert prev s. induction t as [|a t IH]; intros prev s H.
  - cbn in H. now injection H as _ <-.
  - cbn [Re.consume] in H. destruct s as [|c s']; [discriminate|].
    destruct (Ascii.eqb_spec a c) as [->|]; [|discriminate].
    cbn [append]. f_equal. exact (IH _ _ H).
Qed.

Lemma consume_prefix (t : string) (prev : option ascii) (r : string) :
  Re.consume false t prev (t ++ r) <> None.
Proof.
  revert prev. induction t as [|a t IH]; intros prev; [discriminate|].
  cbn [append Re.consume]. rewrite Ascii.eqb_refl. apply IH.
Qed.

(** [s.indexOf(t) !== -1] says that [t] occurs in [s]. *)
Lemma contains_occurs (t s : string) :
  Re.contains false t s = true <-> occurs t s.
Proof.
  split.
  - induction s as [|c r IH]; cbn [Re.contains].
    + destruct (Re.consume false t None EmptyString) as [[l m]|] eqn:E;
        [|discriminate].
      intros _. exists EmptyString, m. exact (consume_exact _ _ _ _ _ E).
    + destruct (Re.consume false t None (String c r)) as [[l m]|] eqn:E.
      * intros _. exists EmptyString, m. exact (consume_exact _ _ _ _ _ E).
      * intros H. destruct (IH H) as (pre & post & ->).
        exists (String c pre), post. reflexivity.
  - intros (pre & post & ->). induction pre as [|c pre IH].
    + cbn [append]. pose proof (consume_prefix t None post) as H.
      destruct post as [|c r], t as [|a t]; cbn [append Re.contains] in *;
        destruct (Re.consume false _ None _); congruence.
    + cbn [append Re.contains].
      destruct (Re.consume false t None _); [reflexivity | exact IH].
Qed.

(** X7: a busy phrase in the body text decides alone: [isBusyUiPresent]
    answers [true] without evaluating the marker selector, so a failure of
    that query cannot matter; when no phrase occurs (or the page has no
    body text) the answer is whether some element matches the marker
    selector, and a failure of that query is the only way the detector can
    raise. *)
Theorem busy_text_then_markers :
  forall (sf : Surface),
    ((exists t, In t BUSY_TEXTS
                /\ occurs t (orDefault (sf_bodyInnerText sf) EmptyString)) ->
     busy sf = Normal true)
    /\ ((forall t, In t BUSY_TEXTS ->
                   ~ occurs t (orDefault (sf_bodyInnerText sf) EmptyString)) ->
        busy sf = if sf_selectorThrows sf SEL_BUSY then Throw
                  else Normal (existsb (fun e => el_matches e SEL_BUSY)
                                       (sf_elements sf))).
Proof.
  intros sf. unfold busy, resultOf, isBusyUiPresent.
  destruct (find _ BUSY_TEXTS) as [t0|] eqn:Hf; split.
  - intros _. reflexivity.
  - intros Hno. apply find_some in Hf as [Hin Hc].
    apply contains_occurs in Hc. destruct (Hno t0 Hin Hc).
  - intros (t & Hin & Hoc). apply contains_occurs in Hoc.
    pose proof (find_none _ _ Hf t Hin) as Hn. cbv beta in Hn. congruence.
  - intros _. unfold bind, lift, console, emit, ret, querySelector.
    destruct (sf_selectorThrows sf SEL_BUSY); [reflexivity|].
    induction (sf_elements sf) as [|e l IH]; [reflexivity|].
    cbn [find existsb]. destruct (el_matches e SEL_BUSY); [reflexivity|].
    exact IH.
Qed.
Lemma busy_text_then_markers_witness :
  (In "Uploading" BUSY_TEXTS
   /\ occurs "Uploading"
             (orDefault (sf_bodyInnerText busyTextBrokenMarkers) EmptyString)
   /\ sf_selectorThrows busyTextBrokenMarkers SEL_BUSY = true
   /\ busy busyTextBrokenMarkers = Normal true)
  /\ ((forall t, In t BUSY_TEXTS ->
                 ~ occurs t (orDefault (sf_bodyInnerText spinnerPage) EmptyString))
      /\ busy spinnerPage = Normal true).
Proof.
  assert (H1 : In "Uploading" BUSY_TEXTS) by (simpl; auto).
  assert (H2 : occurs "Uploading"
                 (orDefault (sf_bodyInnerText busyTextBrokenMarkers) EmptyString))
    by (exists "Still ", " your files"; reflexivity).
  assert (H3 : forall t, In t BUSY_TEXTS ->
                 ~ occurs t (orDefault (sf_bodyInnerText spinnerPage) EmptyString)).
  { intros t Hin Hoc. apply contains_occurs in Hoc.
    simpl in Hin. repeat destruct Hin as [<-|Hin]; try discriminate Hoc.
    exact Hin. }
  split.
  - do 2 (split; [assumption|]). split; [reflexivity|].
    exact (proj1 (busy_text_then_markers busyTextBrokenMarkers)
             (ex_intro _ "Uploading" (conj H1 H2))).
  - split; [exact H3|].
    exact (proj2 (busy_text_then_markers spinnerPage) H3).
Defined.

(* ================================================================== *)
(** * Further properties: the ledger *)
(* ================================================================== *)




(** A quiet watch-window expiry on a ledger that reads [NaN]. *)
Lemma nan_expiry_step (w : World) (i : nat) (sf : Surface) (w' : World) :
  sto_access (storage w) = Full ->
  readLedger (storage w) = JNaN ->
  quiet sf ->
  expiry (EvTick i sf) w = true ->
  step (EvTick i sf) w = Some w' ->
  storage w' = written "NaN" (storage w)
  /\ trace w' =
     (trace w
      ++ [SetItem "NaN"; Console Warn (ReloadingAttempt JNaN); LocationReload]
      ++ (if sf_reloadThrows sf then [Console Error ReloadFailed] else []))%list.
Proof.
  intros Hf Hn [Hl Hb] Hex. unfold step. cbn [enabled].
  cbn [expiry] in Hex.
  apply andb_true_iff in Hex as [Hex He]. apply andb_true_iff in Hex as [Ht Hr].
  apply negb_true_iff in Hr. rewrite Ht. intros [= <-].
  assert (Hi : (i < List.length (instances w))%nat)
    by (apply live_in_range; auto).
  assert (Hst : sto_setThrows (storage w) = false)
    by (unfold sto_setThrows; now rewrite Hf).
  exec. rewrite He. exec.
  rewrite (located_none_effects _ Hl), (busy_false_effects _ Hb), Hn.
  cbn [geb]. exec. rewrite Hst, Hn. exec. cbn [succ String_].
  destruct (sf_reloadThrows sf); exec;
    split; fields; rewrite <- ?app_assoc; reflexivity.
Qed.

(** X9: a stored value that does not parse defeats the ceiling: the ledger
    reads [NaN], [NaN >= MAX_RELOADS] is false and [NaN + 1] is [NaN], so
    on quiet surfaces the machine reloads at every watch-window expiry,
    however many there are, and the ledger reads [NaN] ever after. *)
Theorem unparsable_ledger_never_gives_up :
  forall (w : World),
    sto_access (storage w) = Full ->
    readLedger (storage w) = JNaN ->
    forall evs w',
      Forall quietEvent evs ->
      run evs w = Some w' ->
      countIf isReload (trace w')
      = (countIf isReload (trace w) + expiries evs w)%nat
      /\ readLedger (storage w') = JNaN.
Proof.
  intros w Hf Hn evs. revert w Hf Hn.
  induction evs as [|ev evs IH]; intros w Hf Hn w' Hq Hrun.
  - injection Hrun as <-. cbn [expiries]. rewrite Nat.add_0_r. auto.
  - inversion Hq as [|? ? Hev Hevs]; subst.
    cbn [run] in Hrun. cbn [expiries].
    destruct (step ev w) as [w1|] eqn:Hs; [|discriminate].
    destruct (expiry ev w) eqn:Hex.
    + destruct ev as [sf|i sf|i sf|i|]; try discriminate Hex.
      destruct (nan_expiry_step w i sf w1 Hf Hn Hev Hex Hs) as [Hsto Htr].
      assert (Hf1 : sto_access (storage w1) = Full) by (rewrite Hsto; exact Hf).
      assert (Hn1 : readLedger (storage w1) = JNaN).
      { rewrite Hsto. unfold readLedger, sto_getThrows, written in *.
        cbn [sto_access sto_item]. rewrite Hf. reflexivity. }
      destruct (IH w1 Hf1 Hn1 w' Hevs Hrun) as [Hr Hl].
      rewrite Hr, Htr. split; [|exact Hl].
      destruct (sf_reloadThrows sf); counts.
    + destruct (quiet_other_step ev w w1 Hev Hex Hs) as (Hsto & Hc & _).
      assert (Hf1 : sto_access (storage w1) = Full) by (rewrite Hsto; exact Hf).
      assert (Hn1 : readLedger (storage w1) = JNaN) by (rewrite Hsto; exact Hn).
      destruct (IH w1 Hf1 Hn1 w' Hevs Hrun) as [Hr Hl].
      rewrite Hr, Hc. split; [lia|exact Hl].
Qed.

Lemma unparsable_ledger_never_gives_up_witness :
  let evs := (quietLife 0 ++ quietLife 1 ++ quietLife 2 ++ quietLife 3
              ++ quietLife 4)%list in
  let w := initialWorld garbledStorage in
  let w' := after evs w in
  sto_access (storage w) = Full
  /\ readLedger (storage w) = JNaN
  /\ Forall quietEvent evs
  /\ run evs w = Some w'
  /\ expiries evs w = 5%nat
  /\ countIf isReload (trace w')
     = (countIf isReload (trace w) + expiries evs w)%nat
  /\ readLedger (storage w') = JNaN.
Proof.
  intros evs w w'.
  assert (H1 : sto_access (storage w) = Full) by reflexivity.
  assert (H2 : readLedger (storage w) = JNaN) by reflexivity.
  assert (H3 : Forall quietEvent evs).
  { unfold evs, quietLife. cbn [repeat app].
    repeat (constructor; [first [exact quietPage_quiet | exact I]|]).
    constructor. }
  assert (H4 : run evs w = Some w') by (vm_compute; reflexivity).
  do 4 (split; [assumption|]). split; [vm_compute; reflexivity|].
  exact (unparsable_ledger_never_gives_up w H1 H2 evs w' H3 H4).
Defined.

(* ================================================================== *)
(** * Further properties: runs of the retry machine *)
(* ================================================================== *)



(** A step over a busy surface that is not a watch-window expiry. *)
Lemma busy_other_step (ev : Event) (w w' : World) :
  busyEvent ev ->
  reloadRequested w = false ->
  expiry ev w = false ->
  step ev w = Some w' ->
  storage w' = storage w
  /\ reloadRequested w' = false
  /\ countIf isReload (trace w') = countIf isReload (trace w)
  /\ countIf isBackoff (trace w') = countIf isBackoff (trace w)
  /\ (pendingStarts w' + starts [ev] = pendingStarts w)%nat.
Proof.
  intros Hq Hrr Hex. unfold step. destruct (enabled ev w) eqn:En; [|discriminate].
  intros [= <-]. destruct ev as [sf|i sf|i sf|i|]; cbn [enabled] in En;
    cbn [busyEvent] in Hq; cbn [starts].
  - destruct Hq as [Hl Hb]. apply Nat.ltb_lt in En. exec.
    destruct (sf_observeThrows sf); exec;
      (repeat split; solve [fields; auto; lia | counts]).
  - destruct Hq as [Hl Hb].
    assert (Hi : (i < List.length (instances w))%nat)
      by (apply live_in_range; auto).
    exec. destruct (resolved (inst i w)) eqn:Hr; exec;
      (repeat split; solve [fields; auto; lia | counts]).
  - destruct Hq as [Hl Hb].
    assert (Hi : (i < List.length (instances w))%nat)
      by (apply live_in_range; auto).
    cbn [expiry] in Hex. rewrite En in Hex. cbn [andb] in Hex.
    exec. destruct (resolved (inst i w)) eqn:Hr; exec;
      [repeat split; solve [fields; auto; lia | counts]|].
    cbn [negb andb] in Hex. rewrite Hex. exec.
    repeat split; solve [fields; auto; lia | counts].
  - assert (Hi : (i < List.length (instances w))%nat)
      by (apply live_in_range; auto).
    exec. destruct (resolved (inst i w)) eqn:Hr; exec;
      (repeat split; solve [fields; auto; lia | counts]).
  - congruence.
Qed.

(** X11: while the page keeps showing a busy sign and no control, the
    machine only backs off: along every such run it never reloads and never
    touches the store, it schedules one delayed [startAutoDl] per
    watch-window expiry, and every scheduled entry that has not run yet is
    still pending, so the retry loop never ends by itself. *)
Theorem busy_runs_only_back_off :
  forall (w : World),
    reloadRequested w = false ->
    forall evs w',
      Forall busyEvent evs ->
      run evs w = Some w' ->
      storage w' = storage w
      /\ reloadRequested w' = false
      /\ countIf isReload (trace w') = countIf isReload (trace w)
      /\ countIf isBackoff (trace w')
         = (countIf isBackoff (trace w) + expiries evs w)%nat
      /\ (pendingStarts w' + starts evs
          = pendingStarts w + expiries evs w)%nat.
Proof.
  intros w Hrr evs. revert w Hrr.
  induction evs as [|ev evs IH]; intros w Hrr w' Hq Hrun.
  - injection Hrun as <-. cbn [expiries starts]. rewrite !Nat.add_0_r. auto.
  - inversion Hq as [|? ? Hev Hevs]; subst.
    cbn [run] in Hrun. cbn [expiries].
    destruct (step ev w) as [w1|] eqn:Hs; [|discriminate].
    destruct (expiry ev w) eqn:Hex.
    + destruct ev as [sf|i sf|i sf|i|]; try discriminate Hex.
      destruct Hev as [Hl Hb]. cbn [expiry] in Hex.
      apply andb_true_iff in Hex as [Hex He].
      apply andb_true_iff in Hex as [Ht Hr].
      apply negb_true_iff in Hr. apply Z.leb_le in He.
      destruct (busy_expiry_step w i sf w1 Ht Hr Hl He Hb Hs)
        as (Hsto & Hp & Hrq & Htr & _).
      assert (Hrr1 : reloadRequested w1 = false) by congruence.
      destruct (IH w1 Hrr1 w' Hevs Hrun) as (K1 & K2 & K3 & K4 & K5).
      cbn [starts]. rewrite K1, K3, K4, Hsto, Htr.
      repeat split; auto; try counts.
    + destruct (busy_other_step ev w w1 Hev Hrr Hex Hs)
        as (Hsto & Hrr1 & Hc & Hb & Hp).
      destruct (IH w1 Hrr1 w' Hevs Hrun) as (K1 & K2 & K3 & K4 & K5).
      rewrite K1, K3, K4, Hsto, Hc, Hb.
      repeat split; auto.
      destruct ev; cbn [starts] in *; lia.
Qed.

Lemma busy_runs_only_back_off_witness :
  let w := initialWorld emptyStorage in
  let w' := after busyReentries w in
  reloadRequested w = false
  /\ Forall busyEvent busyReentries
  /\ run busyReentries w = Some w'
  /\ expiries busyReentries w = 2%nat
  /\ storage w' = storage w
  /\ reloadRequested w' = false
  /\ countIf isReload (trace w') = countIf isReload (trace w)
  /\ countIf isBackoff (trace w')
     = (countIf isBackoff (trace w) + expiries busyReentries w)%nat
  /\ (pendingStarts w' + starts busyReentries
      = pendingStarts w + expiries busyReentries w)%nat.
Proof.
  intros w w'.
  assert (H1 : reloadRequested w = false) by reflexivity.
  assert (Hb : stillBusy busyPage) by (split; vm_compute; reflexivity).
  assert (H2 : Forall busyEvent busyReentries).
  { unfold busyReentries. cbn [repeat app].
    repeat (constructor; [first [exact Hb | exact I]|]).
    constructor. }
  assert (H3 : run busyReentries w = Some w') by (vm_compute; reflexivity).
  do 3 (split; [assumption|]). split; [vm_compute; reflexivity|].
  exact (busy_runs_only_back_off w H1 busyReentries w' H2 H3).
Defined.

(** A quiet watch-window expiry below the ceiling on a store that cannot
    be written. *)
Lemma unwritable_expiry_step (w : World) (i : nat) (sf : Surface) (w' : World) :
  sto_setThrows (storage w) = true ->
  geb (readLedger (storage w)) (JInt MAX_RELOADS) = false ->
  quiet sf ->
  expiry (EvTick i sf) w = true ->
  step (EvTick i sf) w = Some w' ->
  storage w' = storage w
  /\ trace w' =
     (trace w
      ++ [Console Warn (ReloadingAttempt (JInt 0)); LocationReload]
      ++ (if sf_reloadThrows sf then [Console Error ReloadFailed] else []))%list.
Proof.
  intros Hst Hg [Hl Hb] Hex. unfold step. cbn [enabled].
  cbn [expiry] in Hex.
  apply andb_true_iff in Hex as [Hex He]. apply andb_true_iff in Hex as [Ht Hr].
  apply negb_true_iff in Hr. rewrite Ht. intros [= <-].
  assert (Hi : (i < List.length (instances w))%nat)
    by (apply live_in_range; auto).
  exec. rewrite He. exec.
  rewrite (located_none_effects _ Hl), (busy_false_effects _ Hb).
  fold (readLedger (storage w)). rewrite Hg. exec. rewrite Hst. exec.
  destruct (sf_reloadThrows sf); exec;
    split; fields; rewrite <- ?app_assoc, ?app_nil_r; reflexivity.
Qed.

(** X12: the ceiling rests on the store being writable.  When [setItem]
    raises (storage denied, or readable but full), [incrementReloadCount]
    returns 0 and writes nothing; so if the count read at the start is below
    the ceiling, on quiet surfaces the machine reloads at every
    watch-window expiry, announcing attempt 0 each time, and the store
    never changes. *)
Theorem unwritable_store_never_gives_up :
  forall (w : World),
    sto_setThrows (storage w) = true ->
    geb (readLedger (storage w)) (JInt MAX_RELOADS) = false ->
    forall evs w',
      Forall quietEvent evs ->
      run evs w = Some w' ->
      storage w' = storage w
      /\ countIf isReload (trace w')
         = (countIf isReload (trace w) + expiries evs w)%nat
      /\ countIf isSetItem (trace w') = countIf isSetItem (trace w)
      /\ fst (incrementReloadCount w') = Normal (JInt 0).
Proof.
  intros w Hst Hg evs. revert w Hst Hg.
  induction evs as [|ev evs IH]; intros w Hst Hg w' Hq Hrun.
  - injection Hrun as <-. cbn [expiries]. rewrite Nat.add_0_r.
    rewrite incrementReloadCount_eq, Hst. auto.
  - inversion Hq as [|? ? Hev Hevs]; subst.
    cbn [run] in Hrun. cbn [expiries].
    destruct (step ev w) as [w1|] eqn:Hs; [|discriminate].
    destruct (expiry ev w) eqn:Hex.
    + destruct ev as [sf|i sf|i sf|i|]; try discriminate Hex.
      destruct (unwritable_expiry_step w i sf w1 Hst Hg Hev Hex Hs) as [Hsto Htr].
      rewrite <- Hsto in Hst, Hg.
      destruct (IH w1 Hst Hg w' Hevs Hrun) as (K1 & K2 & K3 & K4).
      rewrite K1, K2, K3, Hsto, Htr.
      repeat split; auto; destruct (sf_reloadThrows sf); counts.
    + destruct (quiet_other_step ev w w1 Hev Hex Hs) as (Hsto & Hc & Hw).
      rewrite <- Hsto in Hst, Hg.
      destruct (IH w1 Hst Hg w' Hevs Hrun) as (K1 & K2 & K3 & K4).
      rewrite K1, K2, K3, Hsto, Hc, Hw. auto.
Qed.

Lemma unwritable_store_never_gives_up_witness :
  let evs := (quietLife 0 ++ quietLife 1 ++ quietLife 2 ++ quietLife 3)%list in
  let w := initialWorld readOnlyStorage in
  let w' := after evs w in
  sto_setThrows (storage w) = true
  /\ geb (readLedger (storage w)) (JInt MAX_RELOADS) = false
  /\ Forall quietEvent evs
  /\ run evs w = Some w'
  /\ readLedger (storage w) = JInt 1
  /\ expiries evs w = 4%nat
  /\ storage w' = storage w
  /\ countIf isReload (trace w')
     = (countIf isReload (trace w) + expiries evs w)%nat
  /\ countIf isSetItem (trace w') = countIf isSetItem (trace w)
  /\ fst (incrementReloadCount w') = Normal (JInt 0).
Proof.
  intros evs w w'.
  assert (H1 : sto_setThrows (storage w) = true) by reflexivity.
  assert (H2 : geb (readLedger (storage w)) (JInt MAX_RELOADS) = false)
    by (vm_compute; reflexivity).
  assert (H3 : Forall quietEvent evs).
  { unfold evs, quietLife. cbn [repeat app].
    repeat (constructor; [first [exact quietPage_quiet | exact I]|]).
    constructor. }
  assert (H4 : run evs w = Some w') by (vm_compute; reflexivity).
  do 4 (split; [assumption|]).
  do 2 (split; [vm_compute; reflexivity|]).
  exact (unwritable_store_never_gives_up w H1 H2 evs w' H3 H4).
Defined.

(** A tick inside the watch window on a surface without a control. *)
Lemma waiting_tick_step (w : World) (i : nat) (sf : Surface) :
  timerOn (inst i w) = true ->
  resolved (inst i w) = false ->
  located sf = Normal None ->
  elapsed (inst i w) + POLL_INTERVAL_MS < INITIAL_WAIT_MS ->
  exists w',
    step (EvTick i sf) w = Some w'
    /\ expiry (EvTick i sf) w = false
    /\ inst i w' = addElapsed POLL_INTERVAL_MS (inst i w)
    /\ (forall j, j <> i -> inst j w' = inst j w)
    /\ storage w' = storage w
    /\ pendingStarts w' = pendingStarts w
    /\ reloadRequested w' = reloadRequested w
    /\ trace w' = trace w.
Proof.
  intros Ht Hr Hl He.
  assert (Hi : (i < List.length (instances w))%nat)
    by (apply live_in_range; auto).
  apply Z.leb_gt in He.
  eexists. unfold step. cbn [enabled expiry]. rewrite Ht, Hr, He.
  split; [reflexivity|]. split; [reflexivity|].
  exec. rewrite He. exec. rewrite (located_none_effects _ Hl).
  repeat split; try solve [fields; rewrite ?app_nil_r; auto].
  intros j Hne. assert (Hne' : i <> j) by congruence. insts. reflexivity.
Qed.

Lemma waiting_ticks_run (sfs : list Surface) :
  forall (w : World) (i : nat),
    timerOn (inst i w) = true ->
    resolved (inst i w) = false ->
    Forall (fun sf => located sf = Normal None) sfs ->
    elapsed (inst i w) + POLL_INTERVAL_MS * Z.of_nat (List.length sfs)
    < INITIAL_WAIT_MS ->
    exists w',
      run (map (EvTick i) sfs) w = Some w'
      /\ expiries (map (EvTick i) sfs) w = 0%nat
      /\ inst i w'
         = addElapsed (POLL_INTERVAL_MS * Z.of_nat (List.length sfs)) (inst i w)
      /\ storage w' = storage w
      /\ pendingStarts w' = pendingStarts w
      /\ trace w' = trace w.
Proof.
  induction sfs as [|sf sfs IH]; intros w i Ht Hr Hall He.
  - exists w. cbn [map run expiries List.length Z.of_nat].
    rewrite Z.mul_0_r. repeat split; auto.
    destruct (inst i w); unfold addElapsed; cbn. now rewrite Z.add_0_r.
  - inversion Hall as [|? ? Hl Hrest]; subst.
    cbn [List.length] in He. rewrite Nat2Z.inj_succ in He.
    assert (Hpos : 0 < POLL_INTERVAL_MS) by reflexivity.
    destruct (waiting_tick_step w i sf Ht Hr Hl ltac:(nia))
      as (w1 & Hs & Hex & Hin & _ & Hsto & Hp & _ & Htr).
    assert (Ht1 : timerOn (inst i w1) = true) by (rewrite Hin; exact Ht).
    assert (Hr1 : resolved (inst i w1) = false) by (rewrite Hin; exact Hr).
    assert (He1 : elapsed (inst i w1)
                  + POLL_INTERVAL_MS * Z.of_nat (List.length sfs)
                  < INITIAL_WAIT_MS).
    { rewrite Hin. cbn [addElapsed elapsed]. nia. }
    destruct (IH w1 i Ht1 Hr1 Hrest He1) as (w' & Hrun & Hexs & Hin' & K1 & K2 & K3).
    exists w'. cbn [map run expiries]. rewrite Hs, Hex, Hrun, Hexs.
    repeat split; try congruence.
    rewrite Hin', Hin. unfold addElapsed; cbn [resolved observing timerOn elapsed watchdog].
    f_equal. cbn [List.length]. rewrite Nat2Z.inj_succ. lia.
Qed.

(** X13: the watch window is [INITIAL_WAIT_MS / POLL_INTERVAL_MS = 14]
    polls.  A new instance whose surface shows no control lets its first
    thirteen ticks pass without reloading, backing off, writing or logging,
    adding [POLL_INTERVAL_MS] to [elapsed] each time; the fourteenth tick
    is the expiry, whatever the surface shows then. *)
Theorem watch_window_is_fourteen_polls :
  forall (w : World) (i : nat) (sfs : list Surface),
    timerOn (inst i w) = true ->
    resolved (inst i w) = false ->
    elapsed (inst i w) = 0 ->
    Forall (fun sf => located sf = Normal None) sfs ->
    (List.length sfs <= 13)%nat ->
    exists w',
      run (map (EvTick i) sfs) w = Some w'
      /\ expiries (map (EvTick i) sfs) w = 0%nat
      /\ elapsed (inst i w') = POLL_INTERVAL_MS * Z.of_nat (List.length sfs)
      /\ timerOn (inst i w') = true
      /\ storage w' = storage w
      /\ pendingStarts w' = pendingStarts w
      /\ trace w' = trace w
      /\ forall sf, expiry (EvTick i sf) w' = true <-> List.length sfs = 13%nat.
Proof.
  intros w i sfs Ht Hr He Hall Hlen.
  assert (Hb : elapsed (inst i w)
               + POLL_INTERVAL_MS * Z.of_nat (List.length sfs) < INITIAL_WAIT_MS).
  { rewrite He. unfold POLL_INTERVAL_MS, INITIAL_WAIT_MS. lia. }
  destruct (waiting_ticks_run sfs w i Ht Hr Hall Hb)
    as (w' & Hrun & Hexs & Hin & Hsto & Hp & Htr).
  exists w'. rewrite Hin. cbn [addElapsed elapsed timerOn]. rewrite He.
  repeat split; auto.
  - intros Hex. cbn [expiry] in Hex. rewrite Hin in Hex.
    cbn [addElapsed elapsed timerOn resolved] in Hex.
    apply andb_true_iff in Hex as [_ Hex]. apply Z.leb_le in Hex.
    rewrite He in Hex. unfold POLL_INTERVAL_MS, INITIAL_WAIT_MS in Hex. lia.
  - intros H13. cbn [expiry]. rewrite Hin.
    cbn [addElapsed elapsed timerOn resolved]. rewrite Ht, Hr, He, H13.
    reflexivity.
Qed.

Lemma watch_window_is_fourteen_polls_witness :
  let w := after [EvStart quietPage] (initialWorld emptyStorage) in
  let sfs := repeat quietPage 13 in
  timerOn (inst 0 w) = true
  /\ resolved (inst 0 w) = false
  /\ elapsed (inst 0 w) = 0
  /\ Forall (fun sf => located sf = Normal None) sfs
  /\ (List.length sfs <= 13)%nat
  /\ exists w',
      run (map (EvTick 0%nat) sfs) w = Some w'
      /\ expiries (map (EvTick 0%nat) sfs) w = 0%nat
      /\ elapsed (inst 0 w') = POLL_INTERVAL_MS * Z.of_nat (List.length sfs)
      /\ timerOn (inst 0 w') = true
      /\ storage w' = storage w
      /\ pendingStarts w' = pendingStarts w
      /\ trace w' = trace w
      /\ forall sf, expiry (EvTick 0%nat sf) w' = true <-> List.length sfs = 13%nat.
Proof.
  intros w sfs.
  assert (H1 : timerOn (inst 0 w) = true) by (vm_compute; reflexivity).
  assert (H2 : resolved (inst 0 w) = false) by (vm_compute; reflexivity).
  assert (H3 : elapsed (inst 0 w) = 0) by (vm_compute; reflexivity).
  assert (H4 : Forall (fun sf => located sf = Normal None) sfs).
  { unfold sfs. cbn [repeat].
    repeat (constructor; [exact (proj1 quietPage_quiet)|]). constructor. }
  assert (H5 : (List.length sfs <= 13)%nat) by (vm_compute; lia).
  do 5 (split; [assumption|]).
  exact (watch_window_is_fourteen_polls w 0%nat sfs H1 H2 H3 H4 H5).
Defined.

(** X14: what one entry of [startAutoDl] does.  It never writes the store,
    reloads or schedules anything.  When the locator finds a control it
    activates it once, right away, and sets up no watch: no observer, no
    timer, no watchdog, and the busy detector is not consulted.  When there
    is no control it activates nothing.  When the locator or the busy
    detector raises, the entry ends there with an uncaught exception and
    sets up no watch either. *)
Theorem start_activates_or_watches :
  forall (w : World) (sf : Surface) (w' : World),
    step (EvStart sf) w = Some w' ->
    storage w' = storage w
    /\ reloadRequested w' = reloadRequested w
    /\ pendingStarts w' = pred (pendingStarts w)
    /\ countIf isReload (trace w') = countIf isReload (trace w)
    /\ countIf isBackoff (trace w') = countIf isBackoff (trace w)
    /\ countIf isSetItem (trace w') = countIf isSetItem (trace w)
    /\ match located sf with
       | Normal (Some el) =>
           instances w' = instances w
           /\ trace w' =
              (trace w ++ [Console Debug StartAutoDl]
               ++ effectsOf (findDownloadControl sf)
               ++ effectsOf (emulateClick el))%list
           /\ countIf isActivation (trace w') = S (countIf isActivation (trace w))
       | Normal None =>
           countIf isActivation (trace w') = countIf isActivation (trace w)
           /\ (busy sf = Throw ->
               instances w' = instances w
               /\ trace w' =
                  (trace w ++ [Console Debug StartAutoDl]
                   ++ effectsOf (findDownloadControl sf)
                   ++ effectsOf (isBusyUiPresent sf) ++ [Uncaught])%list)
       | Throw =>
           instances w' = instances w
           /\ trace w' =
              (trace w ++ [Console Debug StartAutoDl]
               ++ effectsOf (findDownloadControl sf) ++ [Uncaught])%list
       end.
Proof.
  intros w sf w'. unfold step. destruct (enabled (EvStart sf) w); [|discriminate].
  intros [= <-]. exec.
  destruct (located sf) as [[el|]|] eqn:Hl; exec.
  - repeat split; try solve [fields; auto | counts].
    + fields. rewrite <- !app_assoc. reflexivity.
    + counts. rewrite countIf_activation_emulateClick. lia.
  - destruct (busy sf) as [[|]|] eqn:Hb; exec;
      try (destruct (sf_observeThrows sf); exec);
      repeat split; try solve [fields; auto | counts | discriminate];
      try (intros _); fields; rewrite <- ?app_assoc; reflexivity.
  - repeat split; try solve [fields; auto | counts].
    fields. rewrite <- !app_assoc. reflexivity.
Qed.

Lemma start_activates_or_watches_witness :
  let w := initialWorld emptyStorage in
  let w' := after [EvStart readyPage] w in
  step (EvStart readyPage) w = Some w'
  /\ located readyPage = Normal (Some downloadButton)
  /\ instances w' = []
  /\ countIf isActivation (trace w') = 1%nat
  /\ storage w' = storage w
  /\ reloadRequested w' = reloadRequested w
  /\ pendingStarts w' = pred (pendingStarts w)
  /\ countIf isReload (trace w') = countIf isReload (trace w)
  /\ countIf isBackoff (trace w') = countIf isBackoff (trace w)
  /\ countIf isSetItem (trace w') = countIf isSetItem (trace w).
Proof.
  intros w w'.
  assert (H1 : step (EvStart readyPage) w = Some w') by (vm_compute; reflexivity).
  split; [assumption|].
  do 3 (split; [vm_compute; reflexivity|]).
  destruct (start_activates_or_watches w readyPage w' H1)
    as (K1 & K2 & K3 & K4 & K5 & K6 & _).
  auto 10.
Defined.

(** X15: exceptions inside the callbacks of an instance.  When the locator
    raises during a tick or an observer notification, the callback ends
    there: the instance is exactly as it was, [elapsed] has not advanced,
    and nothing but the uncaught exception is recorded; as long as the
    locator keeps raising the watch window never ends.  When the busy
    detector raises at the expiry, the timer is already cleared and the
    observer disconnected: the instance ends without a reload and without
    a backoff re-entry. *)
Theorem callback_exceptions :
  (forall (w : World) (i : nat) (sf : Surface) (ev : Event) (w' : World),
      ev = EvTick i sf \/ ev = EvMutation i sf ->
      resolved (inst i w) = false ->
      located sf = Throw ->
      step ev w = Some w' ->
      instances w' = instances w
      /\ storage w' = storage w
      /\ pendingStarts w' = pendingStarts w
      /\ reloadRequested w' = reloadRequested w
      /\ trace w' =
         (trace w ++ effectsOf (findDownloadControl sf) ++ [Uncaught])%list)
  /\ (forall (w : World) (i : nat) (sf : Surface) (w' : World),
      expiry (EvTick i sf) w = true ->
      located sf = Normal None ->
      busy sf = Throw ->
      step (EvTick i sf) w = Some w' ->
      timerOn (inst i w') = false
      /\ observing (inst i w') = false
      /\ storage w' = storage w
      /\ pendingStarts w' = pendingStarts w
      /\ reloadRequested w' = reloadRequested w
      /\ countIf isReload (trace w') = countIf isReload (trace w)
      /\ countIf isBackoff (trace w') = countIf isBackoff (trace w)
      /\ trace w' =
         (trace w ++ effectsOf (isBusyUiPresent sf) ++ [Uncaught])%list).
Proof.
  split.
  - intros w i sf ev w' Hev Hr Hl. unfold step.
    destruct (enabled ev w) eqn:En; [|discriminate]. intros [= <-].
    destruct Hev as [-> | ->]; cbn [enabled] in En; exec;
      repeat split; fields; rewrite <- ?app_assoc; reflexivity.
  - intros w i sf w' Hex Hl Hb. unfold step. cbn [enabled].
    cbn [expiry] in Hex.
    apply andb_true_iff in Hex as [Hex He]. apply andb_true_iff in Hex as [Ht Hr].
    apply negb_true_iff in Hr. rewrite Ht. intros [= <-].
    assert (Hi : (i < List.length (instances w))%nat)
      by (apply live_in_range; auto).
    exec. rewrite He. exec. rewrite (located_none_effects _ Hl).
    repeat split; try solve [fields; rewrite <- ?app_assoc; auto | counts].
Qed.

Lemma callback_exceptions_witness :
  let w0 := after [EvStart quietPage] (initialWorld emptyStorage) in
  let w1 := after [EvTick 0%nat brokenScanPage] w0 in
  let w2 := after [EvTick 0%nat brokenMarkersPage] quietWaiting in
  (resolved (inst 0 w0) = false
   /\ located brokenScanPage = Throw
   /\ step (EvTick 0%nat brokenScanPage) w0 = Some w1
   /\ instances w1 = instances w0
   /\ storage w1 = storage w0
   /\ pendingStarts w1 = pendingStarts w0
   /\ reloadRequested w1 = reloadRequested w0
   /\ trace w1 =
      (trace w0 ++ effectsOf (findDownloadControl brokenScanPage)
       ++ [Uncaught])%list)
  /\ (expiry (EvTick 0%nat brokenMarkersPage) quietWaiting = true
      /\ located brokenMarkersPage = Normal None
      /\ busy brokenMarkersPage = Throw
      /\ step (EvTick 0%nat brokenMarkersPage) quietWaiting = Some w2
      /\ timerOn (inst 0 w2) = false
      /\ observing (inst 0 w2) = false
      /\ storage w2 = storage quietWaiting
      /\ pendingStarts w2 = pendingStarts quietWaiting
      /\ reloadRequested w2 = reloadRequested quietWaiting
      /\ countIf isReload (trace w2) = countIf isReload (trace quietWaiting)
      /\ countIf isBackoff (trace w2) = countIf isBackoff (trace quietWaiting)
      /\ trace w2 =
         (trace quietWaiting ++ effectsOf (isBusyUiPresent brokenMarkersPage)
          ++ [Uncaught])%list).
Proof.
  intros w0 w1 w2.
  assert (H1 : resolved (inst 0 w0) = false) by (vm_compute; reflexivity).
  assert (H2 : located brokenScanPage = Throw) by (vm_compute; reflexivity).
  assert (H3 : step (EvTick 0%nat brokenScanPage) w0 = Some w1)
    by (vm_compute; reflexivity).
  assert (H4 : expiry (EvTick 0%nat brokenMarkersPage) quietWaiting = true)
    by (vm_compute; reflexivity).
  assert (H5 : located brokenMarkersPage = Normal None) by (vm_compute; reflexivity).
  assert (H6 : busy brokenMarkersPage = Throw) by (vm_compute; reflexivity).
  assert (H7 : step (EvTick 0%nat brokenMarkersPage) quietWaiting = Some w2)
    by (vm_compute; reflexivity).
  split.
  - do 3 (split; [assumption|]).
    exact (proj1 callback_exceptions w0 0%nat brokenScanPage _ w1
             (or_introl eq_refl) H1 H2 H3).
  - do 4 (split; [assumption|]).
    exact (proj2 callback_exceptions quietWaiting 0%nat brokenMarkersPage w2
             H4 H5 H6 H7).
Defined.

(* ================================================================== *)
(** * Further properties: invariants of the retry machine *)
(* ================================================================== *)

Lemma coherent_noInstance : coherent noInstance.
Proof.
  unfold coherent, noInstance, INITIAL_WAIT_MS; cbn.
  repeat split; try discriminate; try lia. apply Z.divide_0_r.
Qed.

Lemma coherent_fresh (o : bool) : coherent (mkInstance false o true 0 true).
Proof.
  unfold coherent, INITIAL_WAIT_MS; cbn.
  repeat split; try discriminate; try lia. apply Z.divide_0_r.
Qed.

(** The updates a callback makes to the closure of its instance. *)
Lemma coherent_updates (x : Instance) :
  coherent x ->
  coherent (destroy x)
  /\ coherent (clearInterval (disconnect x))
  /\ coherent (disconnect (clearInterval x))
  /\ coherent (watchdogFired x)
  /\ coherent (clearInterval (disconnect (watchdogFired x)))
  /\ (resolved x = true -> coherent (clearInterval x))
  /\ coherent (disconnect (latch x))
  /\ coherent (disconnect (clearInterval (latch x)))
  /\ (timerOn x = true ->
      coherent (disconnect (clearInterval (addElapsed POLL_INTERVAL_MS x)))
      /\ (elapsed x + POLL_INTERVAL_MS < INITIAL_WAIT_MS ->
          coherent (addElapsed POLL_INTERVAL_MS x))).
Proof.
  destruct x as [r o t e wd]. unfold coherent.
  cbn [destroy clearInterval disconnect watchdogFired latch addElapsed
       resolved observing timerOn elapsed watchdog].
  intros (Ho & Ht & Hb & Hd).
  assert (Hd' : (POLL_INTERVAL_MS | e + POLL_INTERVAL_MS))
    by (apply Z.divide_add_r; [exact Hd | apply Z.divide_refl]).
  repeat match goal with |- _ /\ _ => split end;
    try discriminate; try assumption; try lia; try tauto.
  - intros Hr. split; [intros Ho'; destruct (Ho Ho'); congruence|].
    split; [discriminate|]. split; assumption.
  - intros Ht'. specialize (Ht Ht'). destruct Hd as [k Hk].
    unfold POLL_INTERVAL_MS, INITIAL_WAIT_MS in *.
    repeat match goal with
           | |- _ /\ _ => split
           | |- _ -> _ => intro
           end; try discriminate; try assumption; try lia; try tauto.
Qed.

Lemma coherent_step (ev : Event) (w w' : World) :
  (forall k, coherent (inst k w)) ->
  step ev w = Some w' ->
  forall k, coherent (inst k w').
Proof.
  intros Hall. unfold step. destruct (enabled ev w) eqn:En; [|discriminate].
  intros [= <-] k.
  destruct ev as [sf|j sf|j sf|j|]; cbn [enabled] in En.
  - exec. destruct (located sf) as [[el|]|]; exec; auto.
    destruct (busy sf) as [[|]|]; exec; auto;
      destruct (sf_observeThrows sf); exec;
      unfold inst; cbn [instances setInstances addTrace setPendingStarts];
      (destruct (Nat.lt_total k (List.length (instances w))) as [Hk|[->|Hk]];
       [ rewrite app_nth1 by assumption; exact (Hall k)
       | rewrite app_nth2, Nat.sub_diag by lia; apply coherent_fresh
       | rewrite nth_overflow by (rewrite length_app; cbn; lia);
         apply coherent_noInstance ]).
  - assert (Hj : (j < List.length (instances w))%nat)
      by (apply live_in_range; auto).
    pose proof (coherent_updates _ (Hall j)) as U.
    destruct (proj1 (Hall j) En) as [Hr _].
    exec. destruct (located sf) as [[el|]|]; exec; auto.
    destruct (Nat.eq_dec j k) as [<-|Hne]; exec; auto. apply U.
  - assert (Hj : (j < List.length (instances w))%nat)
      by (apply live_in_range; auto).
    pose proof (coherent_updates _ (Hall j)) as U.
    exec. destruct (resolved (inst j w)) eqn:Hr; exec.
    { destruct (Nat.eq_dec j k) as [<-|Hne]; exec; auto. now apply U. }
    destruct (located sf) as [[el|]|]; exec; auto.
    { destruct (Nat.eq_dec j k) as [<-|Hne]; exec; auto. apply U. }
    destruct (INITIAL_WAIT_MS <=? elapsed (inst j w) + POLL_INTERVAL_MS) eqn:He;
      exec.
    + assert (Hk : coherent (inst k (updInst j disconnect
                      (updInst j clearInterval
                         (updInst j (addElapsed POLL_INTERVAL_MS) w))))).
      { destruct (Nat.eq_dec j k) as [<-|Hne]; insts; auto. now apply U. }
      destruct (busy sf) as [[|]|]; exec; auto.
      destruct (geb (readLedger (storage w)) (JInt MAX_RELOADS)); exec; auto.
      destruct (sto_setThrows (storage w)); exec;
        destruct (sf_reloadThrows sf); exec; auto.
    + apply Z.leb_gt in He.
      destruct (Nat.eq_dec j k) as [<-|Hne]; insts; auto. now apply U.
  - assert (Hj : (j < List.length (instances w))%nat)
      by (apply live_in_range; auto).
    pose proof (coherent_updates _ (Hall j)) as U.
    exec. destruct (resolved (inst j w)) eqn:Hr; exec;
      (destruct (Nat.eq_dec j k) as [<-|Hne]; insts; auto; apply U).
  - exec. rewrite inst_navigate. exact (proj1 (coherent_updates _ (Hall k))).
Qed.

(** X16: an invariant of the retry machine.  In every state that any
    session reaches, whatever the surfaces show and whatever the storage
    does, every instance is coherent.  In particular the observer is only
    ever notified with the latch unset, so the latch test at the head of
    the observer callback never answers true; and an interval that is
    still running has made at most thirteen polls. *)
Theorem reachable_instances_coherent :
  forall (sto : Storage) (evs : list Event) (w' : World),
    run evs (initialWorld sto) = Some w' ->
    (forall i, coherent (inst i w'))
    /\ (forall i sf, enabled (EvMutation i sf) w' = true ->
                     resolved (inst i w') = false)
    /\ (forall i sf, enabled (EvTick i sf) w' = true ->
                     elapsed (inst i w') + POLL_INTERVAL_MS <= INITIAL_WAIT_MS).
Proof.
  intros sto evs w' Hrun.
  assert (Hall : forall i, coherent (inst i w')).
  { assert (H0 : forall i, coherent (inst i (initialWorld sto))).
    { intros i. unfold inst, initialWorld; cbn [instances].
      destruct i; exact coherent_noInstance. }
    revert Hrun H0. generalize (initialWorld sto). clear sto.
    induction evs as [|ev evs IH]; intros w Hrun H0.
    - now injection Hrun as <-.
    - cbn [run] in Hrun. destruct (step ev w) as [w1|] eqn:Hs; [|discriminate].
      exact (IH w1 Hrun (coherent_step ev w w1 H0 Hs)). }
  split; [exact Hall|]. split.
  - intros i sf En. cbn [enabled] in En. exact (proj1 (proj1 (Hall i) En)).
  - intros i sf En. cbn [enabled] in En.
    destruct (Hall i) as (_ & Ht & _ & [k Hk]). specialize (Ht En).
    unfold POLL_INTERVAL_MS, INITIAL_WAIT_MS in *. lia.
Qed.

Lemma reachable_instances_coherent_witness :
  let w' := after busyReentries (initialWorld emptyStorage) in
  run busyReentries (initialWorld emptyStorage) = Some w'
  /\ enabled (EvMutation 2%nat busyPage) w' = true
  /\ (forall i, coherent (inst i w'))
  /\ (forall i sf, enabled (EvMutation i sf) w' = true ->
                   resolved (inst i w') = false)
  /\ (forall i sf, enabled (EvTick i sf) w' = true ->
                   elapsed (inst i w') + POLL_INTERVAL_MS <= INITIAL_WAIT_MS).
Proof.
  intros w'.
  assert (H1 : run busyReentries (initialWorld emptyStorage) = Some w')
    by (vm_compute; reflexivity).
  split; [assumption|]. split; [vm_compute; reflexivity|].
  exact (reachable_instances_coherent emptyStorage busyReentries w' H1).
Defined.

Lemma unresolved_addTrace l w : unresolved (addTrace l w) = unresolved w.
Proof. reflexivity. Qed.

Lemma unresolved_setPendingStarts n w :
  unresolved (setPendingStarts n w) = unresolved w.
Proof. reflexivity. Qed.

Lemma unresolved_setStorage s w : unresolved (setStorage s w) = unresolved w.
Proof. reflexivity. Qed.

Lemma unresolved_setReloadRequested b w :
  unresolved (setReloadRequested b w) = unresolved w.
Proof. reflexivity. Qed.

Lemma filter_setNth {A} (p : A -> bool) (d : A) (i : nat) (x : A) (l : list A) :
  (i < List.length l)%nat ->
  (List.length (filter p (setNth i x l)) + (if p (nth i l d) then 1 else 0)
   = List.length (filter p l) + (if p x then 1 else 0))%nat.
Proof.
  revert i. induction l as [|a l IH]; intros [|i] H; cbn [List.length] in H;
    try lia; cbn [setNth filter nth].
  - destruct (p a), (p x); cbn [List.length]; lia.
  - specialize (IH i ltac:(lia)). destruct (p a); cbn [List.length]; lia.
Qed.

(** An update that leaves the latch as it is. *)
Lemma unresolved_keep i f w :
  (forall x, resolved (f x) = resolved x) ->
  unresolved (updInst i f w) = unresolved w.
Proof.
  intros Hf. unfold unresolved, updInst. cbn [instances setInstances].
  destruct (Nat.lt_ge_cases i (List.length (instances w))) as [Hi|Hi].
  - pose proof (filter_setNth (fun x => negb (resolved x)) noInstance i
                  (f (inst i w)) (instances w) Hi) as E.
    cbn beta in E. rewrite Hf in E. unfold inst in E at 2.
    destruct (negb (resolved (nth i (instances w) noInstance)));
      fold (inst i w) in E; unfold inst in *; lia.
  - assert (E : setNth i (f (inst i w)) (instances w) = instances w).
    { generalize (f (inst i w)). revert i Hi.
      induction (instances w) as [|a l IH]; intros [|i] Hi y;
        cbn [List.length] in Hi; try lia; cbn [setNth]; try reflexivity.
      f_equal. apply IH. lia. }
    now rewrite E.
Qed.

(** Setting the latch of an instance whose latch is unset. *)
Lemma unresolved_latch i w :
  (i < List.length (instances w))%nat ->
  resolved (inst i w) = false ->
  S (unresolved (updInst i latch w)) = unresolved w.
Proof.
  intros Hi Hr. unfold unresolved, updInst. cbn [instances setInstances].
  pose proof (filter_setNth (fun x => negb (resolved x)) noInstance i
                (latch (inst i w)) (instances w) Hi) as E.
  cbn beta in E. cbn [latch resolved negb] in E.
  fold (inst i w) in E. rewrite Hr in E. cbn [negb] in E. lia.
Qed.

Lemma unresolved_navigate w :
  unresolved (mkWorld (storage w) (map destroy (instances w)) 1 false (trace w))
  = unresolved w.
Proof.
  unfold unresolved; cbn [instances].
  induction (instances w) as [|a l IH]; [reflexivity|].
  cbn [map filter destroy resolved].
  destruct (negb (resolved a)); cbn [List.length]; now rewrite IH.
Qed.

Lemma updInst_addTrace i f l w :
  updInst i f (addTrace l w) = addTrace l (updInst i f w).
Proof. reflexivity. Qed.

(** The latch count seen through the updates the callbacks make. *)
Ltac latches :=
  repeat first
    [ rewrite updInst_addTrace
    | rewrite unresolved_addTrace
    | rewrite unresolved_setPendingStarts
    | rewrite unresolved_setStorage
    | rewrite unresolved_setReloadRequested
    | rewrite unresolved_keep by (intros []; reflexivity) ].

Lemma activation_step (ev : Event) (w w' : World) :
  step ev w = Some w' ->
  (countIf isActivation (trace w') + unresolved w'
   <= countIf isActivation (trace w) + unresolved w + starts [ev])%nat.
Proof.
  unfold step. destruct (enabled ev w) eqn:En; [|discriminate].
  intros [= <-]. destruct ev as [sf|j sf|j sf|j|]; cbn [enabled starts] in *.
  - exec. destruct (located sf) as [[el|]|]; exec.
    + latches. counts. rewrite countIf_activation_emulateClick. lia.
    + destruct (busy sf) as [[|]|]; exec;
        try (destruct (sf_observeThrows sf); exec);
        try (latches; counts);
        unfold unresolved; fields; rewrite filter_app, length_app;
        cbn [filter resolved negb List.length]; counts.
    + latches. counts.
  - assert (Hj : (j < List.length (instances w))%nat)
      by (apply live_in_range; auto).
    exec. destruct (resolved (inst j w)) eqn:Hr; exec; [lia|].
    destruct (located sf) as [[el|]|]; exec; try (latches; counts).
    latches. rewrite <- (unresolved_latch j w Hj Hr).
    counts. rewrite countIf_activation_emulateClick. lia.
  - assert (Hj : (j < List.length (instances w))%nat)
      by (apply live_in_range; auto).
    exec. destruct (resolved (inst j w)) eqn:Hr; exec; [latches; counts|].
    destruct (located sf) as [[el|]|]; exec; try (latches; counts).
    + latches. rewrite <- (unresolved_latch j w Hj Hr).
      counts. rewrite countIf_activation_emulateClick. lia.
    + destruct (INITIAL_WAIT_MS <=? elapsed (inst j w) + POLL_INTERVAL_MS);
        exec; try (latches; counts).
      destruct (busy sf) as [[|]|]; exec; try (latches; counts).
      destruct (geb (readLedger (storage w)) (JInt MAX_RELOADS)); exec;
        try (latches; counts).
      destruct (sto_setThrows (storage w)); exec;
        destruct (sf_reloadThrows sf); exec; latches; counts.
  - assert (Hj : (j < List.length (instances w))%nat)
      by (apply live_in_range; auto).
    exec. destruct (resolved (inst j w)) eqn:Hr; exec; latches; counts.
  - exec. rewrite unresolved_navigate. cbn [trace]. lia.
Qed.

(** X17: one activation per entry at most.  Along every run, the number of
    activations made plus the number of instances that have not latched
    grows by at most one at each entry of [startAutoDl] and never
    otherwise: an entry either activates the control at once or creates one
    instance, and an instance activates a control only by setting its
    latch.  So a session never activates a control more often than
    [startAutoDl] was entered. *)
Theorem one_activation_per_entry :
  (forall (evs : list Event) (w w' : World),
      run evs w = Some w' ->
      (countIf isActivation (trace w') + unresolved w'
       <= countIf isActivation (trace w) + unresolved w + starts evs)%nat)
  /\ (forall (sto : Storage) (evs : list Event) (w' : World),
      run evs (initialWorld sto) = Some w' ->
      (countIf isActivation (trace w') <= starts evs)%nat).
Proof.
  assert (G : forall evs w w',
             run evs w = Some w' ->
             (countIf isActivation (trace w') + unresolved w'
              <= countIf isActivation (trace w) + unresolved w + starts evs)%nat).
  { induction evs as [|ev evs IH]; intros w w' Hrun.
    - injection Hrun as <-. cbn [starts]. lia.
    - cbn [run] in Hrun. destruct (step ev w) as [w1|] eqn:Hs; [|discriminate].
      pose proof (activation_step ev w w1 Hs) as H1.
      pose proof (IH w1 w' Hrun) as H2.
      assert (Hst : starts (ev :: evs) = (starts [ev] + starts evs)%nat)
        by (destruct ev; reflexivity).
      lia. }
  split; [exact G|].
  intros sto evs w' Hrun. pose proof (G evs _ w' Hrun) as H.
  cbn in H. lia.
Qed.

Lemma one_activation_per_entry_witness :
  let w := initialWorld emptyStorage in
  let w' := after mixedSession w in
  run mixedSession w = Some w'
  /\ starts mixedSession = 3%nat
  /\ countIf isActivation (trace w') = 1%nat
  /\ unresolved w' = 2%nat
  /\ (countIf isActivation (trace w') <= starts mixedSession)%nat.
Proof.
  intros w w'.
  assert (H1 : run mixedSession w = Some w') by (vm_compute; reflexivity).
  split; [assumption|]. do 3 (split; [vm_compute; reflexivity|]).
  exact (proj2 one_activation_per_entry emptyStorage mixedSession w' H1).
Defined.

(** X18: a control that has appeared is activated by whichever channel of
    a waiting instance runs next.  When the observer is notified, or the
    interval fires, on a surface where the locator finds a control, the
    callback sets the latch, disconnects the observer (the interval also
    clears itself), reports the channel and activates that control once;
    nothing is written, reloaded or scheduled. *)
Theorem control_found_is_activated :
  forall (w : World) (i : nat) (sf : Surface) (el : Element) (ev : Event),
    ev = EvMutation i sf \/ ev = EvTick i sf ->
    enabled ev w = true ->
    resolved (inst i w) = false ->
    located sf = Normal (Some el) ->
    exists w',
      step ev w = Some w'
      /\ resolved (inst i w') = true
      /\ observing (inst i w') = false
      /\ (ev = EvTick i sf -> timerOn (inst i w') = false)
      /\ (forall j, j <> i -> inst j w' = inst j w)
      /\ storage w' = storage w
      /\ pendingStarts w' = pendingStarts w
      /\ reloadRequested w' = reloadRequested w
      /\ trace w' =
         (trace w ++ effectsOf (findDownloadControl sf)
          ++ [Console Debug
                match ev with
                | EvMutation _ _ => FoundViaObserver
                | _ => FoundViaPolling
                end]
          ++ effectsOf (emulateClick el))%list
      /\ countIf isActivation (trace w') = S (countIf isActivation (trace w)).
Proof.
  intros w i sf el ev Hev En Hr Hl.
  eexists. unfold step. rewrite En. split; [reflexivity|].
  destruct Hev as [-> | ->]; cbn [enabled] in En;
    assert (Hi : (i < List.length (instances w))%nat)
      by (apply live_in_range; auto);
    exec.
  - repeat split; try solve [fields; auto | discriminate].
    + intros j Hne. assert (Hne' : i <> j) by congruence. insts. reflexivity.
    + fields. rewrite <- !app_assoc. reflexivity.
    + counts. rewrite countIf_activation_emulateClick. lia.
  - repeat split; try solve [fields; auto | discriminate].
    + intros j Hne. assert (Hne' : i <> j) by congruence. insts. reflexivity.
    + fields. rewrite <- !app_assoc. reflexivity.
    + counts. rewrite countIf_activation_emulateClick. lia.
Qed.

Lemma control_found_is_activated_witness :
  let w := after [EvStart quietPage] (initialWorld emptyStorage) in
  let ev := EvMutation 0%nat readyPage in
  (ev = EvMutation 0%nat readyPage \/ ev = EvTick 0%nat readyPage)
  /\ enabled ev w = true
  /\ resolved (inst 0 w) = false
  /\ located readyPage = Normal (Some downloadButton)
  /\ step ev w = Some resolvedByObserver
  /\ exists w',
      step ev w = Some w'
      /\ resolved (inst 0 w') = true
      /\ observing (inst 0 w') = false
      /\ (ev = EvTick 0%nat readyPage -> timerOn (inst 0 w') = false)
      /\ (forall j, j <> 0%nat -> inst j w' = inst j w)
      /\ storage w' = storage w
      /\ pendingStarts w' = pendingStarts w
      /\ reloadRequested w' = reloadRequested w
      /\ trace w' =
         (trace w ++ effectsOf (findDownloadControl readyPage)
          ++ [Console Debug FoundViaObserver]
          ++ effectsOf (emulateClick downloadButton))%list
      /\ countIf isActivation (trace w') = S (countIf isActivation (trace w)).
Proof.
  intros w ev.
  assert (H1 : ev = EvMutation 0%nat readyPage \/ ev = EvTick 0%nat readyPage)
    by (left; reflexivity).
  assert (H2 : enabled ev w = true) by (vm_compute; reflexivity).
  assert (H3 : resolved (inst 0 w) = false) by (vm_compute; reflexivity).
  assert (H4 : located readyPage = Normal (Some downloadButton))
    by (vm_compute; reflexivity).
  do 4 (split; [assumption|]). split; [vm_compute; reflexivity|].
  exact (control_found_is_activated w 0%nat readyPage downloadButton ev
           H1 H2 H3 H4).
Defined.
